(** * NeuroMonitor: pharmacokinetic engine and neurochemical state store

    A shallow embedding of the TypeScript sources
      - [src/types/index.ts]             (data model),
      - [src/data/neurotransmitters.ts]  (the four circadian systems),
      - [src/data/substances.ts]         (the seven-substance catalog, [lerp], [r1]),
      - [src/engine/pharmacokinetics.ts] (decay, effectiveness, impact, timeline,
                                          tolerance),
      - [src/store/index.ts]             (the zustand store and [updateNTLevels],
                                          as state passing and on a heap).
      - [src/components/ActiveSubstances.tsx] (the list of unexpired logs and
                                          its remaining-time figures).

    JavaScript [number]s are idealised as real numbers: [Math.sin], [Math.pow],
    [Math.min], [Math.max] and [Math.round] are the mathematical functions, so
    rounding error of IEEE doubles, NaN and the infinities are outside the
    model.  Two places are taken in double arithmetic ([Double.round], the
    rounding to the nearest double as a function on the reals): the sampling
    loop of [generateTimeline], whose counter decides how many samples there
    are, and the clearance horizon of a log where its exactness is the
    question.  The wall clock ([Date.now()],
    [getCurrentHour()]), the random log id, the local time zone and the
    contents of the browser's storage are inputs of the functions that read
    them. *)

From stdpp Require Import gmap strings.
From Stdlib Require Import Reals Lra Lia Sorted.

#[local] Open Scope R_scope.

(** ** Data model ([src/types/index.ts]) *)

Inductive StatusEffectType :=
  | agonist | antagonist | upregulation | downregulation | modulation | precursor.

Inductive SubstanceCategory :=
  | Stimulant | Nootropic | Depressant | Supplement | Psychedelic.

Inductive NTStatus := rising | falling | stable | blocked | enhanced.

Record StatusEffect := {
  se_type : StatusEffectType;
  se_source : string;
  se_magnitude : R;
  se_startTime : R
}.

Record Receptor := {
  r_id : string;
  subtype : string;
  label : string;
  sensitivity : R;
  occupancy : R;
  statusEffects : list StatusEffect
}.

Record ReceptorInteraction := {
  receptorId : string;
  ntId : string;
  ri_type : StatusEffectType;
  magnitude : R
}.

(** [CircadianPattern] has the single method [getLevel]; the presentation-only
    fields [description], [color] and [iconEmoji] (and [mechanism] of a
    substance) are constant strings no engine function reads, and are left
    out of the records. *)
Record Neurotransmitter := {
  nt_id : string;
  nt_name : string;
  abbreviation : string;
  baselineLevel : R;
  currentLevel : R;
  status : NTStatus;
  receptors : list Receptor;
  getLevel : R -> R
}.

Record DosePK := {
  halfLife : R;
  onsetTime : R;
  peakTime : R;
  duration : R;
  toleranceRate : R
}.

Record Substance := {
  s_id : string;
  s_name : string;
  category : SubstanceCategory;
  dosageUnit : string;
  commonDoses : list R;
  defaultPK : DosePK;
  getDosePK : R -> DosePK;
  receptorInteractions : list ReceptorInteraction
}.

Record SubstanceLog := {
  log_id : string;
  substanceId : string;
  dosage : R;
  timestamp : R;
  expectedClearance : R
}.

Record SleepSchedule := { wakeTime : string; sleepTime : string }.

Inductive ViewMode := simple | advanced.

(** ** The circadian systems ([src/data/neurotransmitters.ts]) *)

(** JavaScript comparisons on numbers, as booleans. *)
#[global] Instance Rlt_decision (x y : R) : Decision (x < y) := Rlt_dec x y.
#[global] Instance Rle_decision (x y : R) : Decision (x <= y) := Rle_dec x y.
#[global] Instance Rgt_decision (x y : R) : Decision (x > y) := Rgt_dec x y.
#[global] Instance Rge_decision (x y : R) : Decision (x >= y) := Rge_dec x y.
#[global] Instance R_eq_decision : EqDecision R := Req_dec_T.

Definition Rltb (x y : R) : bool := bool_decide (x < y).
Definition Rleb (x y : R) : bool := bool_decide (x <= y).
Definition Rgeb (x y : R) : bool := bool_decide (x >= y).
Definition Rgtb (x y : R) : bool := bool_decide (x > y).

Module Circadian.

Definition adenosine (hour : R) : R :=
  if Rgeb hour 23 || Rltb hour 7 then 10
  else let wakeHours := hour - 7 in Rmin (10 + wakeHours * 5.6) 100.

Definition dopamine (hour : R) : R :=
  if Rgeb hour 23 || Rltb hour 7 then 40
  else if Rgeb hour 7 && Rltb hour 10 then 40 + ((hour - 7) / 3) * 30
  else if Rgeb hour 10 && Rltb hour 14 then 70
  else if Rgeb hour 14 && Rltb hour 18 then 70 - ((hour - 14) / 4) * 20
  else 50 - ((hour - 18) / 5) * 10.

Definition serotonin (hour : R) : R :=
  if Rgeb hour 22 || Rltb hour 6 then 35
  else if Rgeb hour 6 && Rltb hour 12 then 35 + ((hour - 6) / 6) * 35
  else if Rgeb hour 12 && Rltb hour 16 then 70
  else 70 - ((hour - 16) / 6) * 35.

Definition gaba (hour : R) : R :=
  if Rgeb hour 22 || Rltb hour 6 then 75
  else if Rgeb hour 6 && Rltb hour 10 then 75 - ((hour - 6) / 4) * 30
  else if Rgeb hour 10 && Rltb hour 18 then 45
  else 45 + ((hour - 18) / 4) * 30.

End Circadian.

Definition mkReceptor (id sub lbl : string) (occ : R) : Receptor :=
  {| r_id := id; subtype := sub; label := lbl;
     sensitivity := 100; occupancy := occ; statusEffects := [] |}.

Definition defaultNeurotransmitters : list Neurotransmitter :=
  [ {| nt_id := "adenosine"; nt_name := "Adenosine"; abbreviation := "ADO";
       baselineLevel := 20; currentLevel := 20; status := rising;
       receptors := [ mkReceptor "a1" "A1" "A1 (Sleep Pressure)" 20;
                      mkReceptor "a2a" "A2A" "A2A (Alertness)" 20 ];
       getLevel := Circadian.adenosine |};
    {| nt_id := "dopamine"; nt_name := "Dopamine"; abbreviation := "DA";
       baselineLevel := 60; currentLevel := 60; status := stable;
       receptors := [ mkReceptor "d1" "D1" "D1 (Motivation)" 50;
                      mkReceptor "d2" "D2" "D2 (Reward)" 50 ];
       getLevel := Circadian.dopamine |};
    {| nt_id := "serotonin"; nt_name := "Serotonin"; abbreviation := "5-HT";
       baselineLevel := 55; currentLevel := 55; status := stable;
       receptors := [ mkReceptor "5ht1a" "5-HT1A" "5-HT1A (Mood)" 50;
                      mkReceptor "5ht2a" "5-HT2A" "5-HT2A (Perception)" 50 ];
       getLevel := Circadian.serotonin |};
    {| nt_id := "gaba"; nt_name := "GABA"; abbreviation := "GABA";
       baselineLevel := 50; currentLevel := 50; status := stable;
       receptors := [ mkReceptor "gabaa" "GABA-A" "GABA-A (Fast Inhibition)" 50;
                      mkReceptor "gabab" "GABA-B" "GABA-B (Slow Inhibition)" 50 ];
       getLevel := Circadian.gaba |} ].

(** ** The substance catalog ([src/data/substances.ts]) *)

(** [lerp]: "Linear interpolation between two values based on normalized t
    (0 to 1, clamped)". *)
Definition lerp (a b t : R) : R := a + (b - a) * Rmax 0 (Rmin 1 t).

(** [Math.round]: the integer nearest to [x], halves rounded up. *)
Definition Math_round (x : R) : R := IZR (Zfloor (x + / 2)).

(** [r1]: "Round to one decimal place". *)
Definition r1 (n : R) : R := Math_round (n * 10) / 10.

Definition mkPK (hl onset peak dur tol : R) : DosePK :=
  {| halfLife := hl; onsetTime := onset; peakTime := peak;
     duration := dur; toleranceRate := tol |}.

Definition mkRI (rid nt : string) (ty : StatusEffectType) (mag : R)
  : ReceptorInteraction :=
  {| receptorId := rid; ntId := nt; ri_type := ty; magnitude := mag |}.

Module Catalog.

Definition caffeine : Substance :=
  {| s_id := "caffeine"; s_name := "Caffeine"; category := Stimulant;
     dosageUnit := "mg"; commonDoses := [50; 100; 200];
     defaultPK := mkPK 5 15 45 10 5;
     getDosePK := fun dose =>
       let t := (dose - 50) / 350 in
       let halfLife := r1 (lerp 4.5 6.5 t) in
       let onsetTime := 15 in
       let peakTime := Math_round (lerp 40 50 t) in
       let duration := r1 (halfLife * 2.2) in
       let toleranceRate := 5 in
       mkPK halfLife onsetTime peakTime duration toleranceRate;
     receptorInteractions :=
       [ mkRI "a1" "adenosine" antagonist 80;
         mkRI "a2a" "adenosine" antagonist 70;
         mkRI "d2" "dopamine" modulation 20 ] |}.

Definition l_theanine : Substance :=
  {| s_id := "l-theanine"; s_name := "L-Theanine"; category := Nootropic;
     dosageUnit := "mg"; commonDoses := [100; 200; 400];
     defaultPK := mkPK 1.1 30 50 4 1;
     getDosePK := fun dose =>
       let t := (dose - 100) / 300 in
       let halfLife := 1.1 in
       let onsetTime := Math_round (lerp 35 25 t) in
       let peakTime := 50 in
       let duration := r1 (lerp 3 7 t) in
       let toleranceRate := 1 in
       mkPK halfLife onsetTime peakTime duration toleranceRate;
     receptorInteractions :=
       [ mkRI "gabaa" "gaba" agonist 35;
         mkRI "5ht1a" "serotonin" modulation 20;
         mkRI "d1" "dopamine" modulation 15 ] |}.

Definition nicotine : Substance :=
  {| s_id := "nicotine"; s_name := "Nicotine"; category := Stimulant;
     dosageUnit := "mg"; commonDoses := [1; 2; 4];
     defaultPK := mkPK 2 5 15 4 12;
     getDosePK := fun dose =>
       let halfLife := 2 in
       let onsetTime := 5 in
       let peakTime := 15 in
       let t := (dose - 1) / 5 in
       let duration := r1 (lerp 3.5 5 t) in
       let toleranceRate := 12 in
       mkPK halfLife onsetTime peakTime duration toleranceRate;
     receptorInteractions :=
       [ mkRI "d1" "dopamine" agonist 55;
         mkRI "d2" "dopamine" agonist 45 ] |}.

Definition l_tyrosine : Substance :=
  {| s_id := "l-tyrosine"; s_name := "L-Tyrosine"; category := Nootropic;
     dosageUnit := "mg"; commonDoses := [250; 500; 1000];
     defaultPK := mkPK 2 30 90 5 2;
     getDosePK := fun dose =>
       let t := (dose - 250) / 750 in
       let halfLife := r1 (lerp 1.8 2.5 t) in
       let onsetTime := 30 in
       let peakTime := Math_round (lerp 75 120 t) in
       let duration := r1 (lerp 4 6 t) in
       let toleranceRate := 2 in
       mkPK halfLife onsetTime peakTime duration toleranceRate;
     receptorInteractions :=
       [ mkRI "d1" "dopamine" precursor 40;
         mkRI "d2" "dopamine" precursor 35 ] |}.

Definition flmodafinil : Substance :=
  {| s_id := "flmodafinil"; s_name := "Flmodafinil"; category := Stimulant;
     dosageUnit := "mg"; commonDoses := [25; 50; 100];
     defaultPK := mkPK 13 20 240 16 3;
     getDosePK := fun dose =>
       let t := (dose - 25) / 75 in
       let halfLife := r1 (lerp 12 15 t) in
       let onsetTime := Math_round (lerp 15 25 t) in
       let peakTime := Math_round (lerp 180 300 t) in
       let duration := r1 (lerp 14 18 t) in
       let toleranceRate := 3 in
       mkPK halfLife onsetTime peakTime duration toleranceRate;
     receptorInteractions :=
       [ mkRI "d1" "dopamine" agonist 50;
         mkRI "a2a" "adenosine" antagonist 25;
         mkRI "5ht1a" "serotonin" modulation 12 ] |}.

Definition bromantane : Substance :=
  {| s_id := "bromantane"; s_name := "Bromantane"; category := Nootropic;
     dosageUnit := "mg"; commonDoses := [25; 50; 100];
     defaultPK := mkPK 11 90 180 24 1;
     getDosePK := fun dose =>
       let t := (dose - 25) / 75 in
       let halfLife := 11 in
       let onsetTime := 90 in
       let peakTime := Math_round (lerp 165 210 t) in
       let duration := 24 in
       let toleranceRate := 1 in
       mkPK halfLife onsetTime peakTime duration toleranceRate;
     receptorInteractions :=
       [ mkRI "d1" "dopamine" upregulation 50;
         mkRI "d2" "dopamine" upregulation 45 ] |}.

Definition shilajit : Substance :=
  {| s_id := "shilajit"; s_name := "Shilajit"; category := Supplement;
     dosageUnit := "mg"; commonDoses := [250; 500];
     defaultPK := mkPK 7 60 180 12 2;
     getDosePK := fun dose =>
       let t := (dose - 250) / 250 in
       let halfLife := 7 in
       let onsetTime := 60 in
       let peakTime := Math_round (lerp 150 210 t) in
       let duration := r1 (lerp 10 14 t) in
       let toleranceRate := 2 in
       mkPK halfLife onsetTime peakTime duration toleranceRate;
     receptorInteractions :=
       [ mkRI "d1" "dopamine" modulation 30;
         mkRI "d2" "dopamine" modulation 25 ] |}.

End Catalog.

Definition substances : list Substance :=
  [ Catalog.caffeine; Catalog.l_theanine; Catalog.nicotine; Catalog.l_tyrosine;
    Catalog.flmodafinil; Catalog.bromantane; Catalog.shilajit ].

(** [new Map(substances.map(s => [s.id, s]))]: entries are set in list order,
    a later entry replacing an earlier one with the same id. *)
Definition mkSubstanceMap (cat : list Substance) : gmap string Substance :=
  foldl (fun m s => <[ s_id s := s ]> m) ∅ cat.

Definition substanceMap : gmap string Substance := mkSubstanceMap substances.


(** ** The pharmacokinetic engine ([src/engine/pharmacokinetics.ts]) *)

(** [Math.pow] at a positive base, the only use the engine makes of it.  The
    real power never vanishes, whereas a double underflows to 0 from an
    exponent of 1075 on for base 0.5: nothing below relies on the result
    being positive beyond the clearance horizon of a log. *)
Definition Math_pow (x y : R) : R := Rpower x y.

Definition calculateDecay (dose halfLife elapsedHours : R) : R :=
  if Rltb elapsedHours 0 then 0
  else dose * Math_pow 0.5 (elapsedHours / halfLife).

Definition calculateActiveLevel (dose : R) (pk : DosePK) (elapsedMinutes : R) : R :=
  if Rltb elapsedMinutes 0 then 0 else
  let onsetMin := onsetTime pk in
  let peakMin := peakTime pk in
  let halfLifeMin := halfLife pk * 60 in
  if Rleb elapsedMinutes peakMin then
    if bool_decide (peakMin = 0) then dose else
    let progress := elapsedMinutes / peakMin in
    let ramp :=
      if Rgtb onsetMin 0
      then sin ((PI / 2) * Rmin (progress * (peakMin / onsetMin)) 1)
      else progress in
    dose * ramp
  else
    let minutesPastPeak := elapsedMinutes - peakMin in
    calculateDecay dose (halfLifeMin / 60) (minutesPastPeak / 60).

Definition getEffectiveness (log : SubstanceLog) (substance : Substance) (nowMs : R) : R :=
  let elapsedMs := nowMs - timestamp log in
  let elapsedMinutes := elapsedMs / (1000 * 60) in
  if Rltb elapsedMinutes 0 then 0 else
  let pk := getDosePK substance (dosage log) in
  let peakMin := peakTime pk in
  if Rleb elapsedMinutes peakMin then
    let progress := if Rgtb peakMin 0 then elapsedMinutes / peakMin else 1 in
    sin ((PI / 2) * Rmin progress 1) * 100
  else
    let hoursPastPeak := (elapsedMinutes - peakMin) / 60 in
    calculateDecay 100 (halfLife pk) hoursPastPeak.

(** One iteration of the loop of [calculateReceptorImpact]. *)
Definition impactStep (effectivenessPercent : R) (impact : gmap string R)
    (interaction : ReceptorInteraction) : gmap string R :=
  let effectiveMagnitude := (magnitude interaction * effectivenessPercent) / 100 in
  let current := default 0 (impact !! receptorId interaction) in
  <[ receptorId interaction := Rmin (current + effectiveMagnitude) 100 ]> impact.

Definition calculateReceptorImpact (interactions : list ReceptorInteraction)
    (effectivenessPercent : R) : gmap string R :=
  foldl (impactStep effectivenessPercent) ∅ interactions.

Definition calculateClearanceTime (substance : Substance) (dose : R) : R :=
  let pk := getDosePK substance dose in
  halfLife pk * 4.3 * 60 * 60 * 1000.

(** *** Arithmetic on doubles

    A JavaScript number is an IEEE 754 binary64 value, and the result of [+],
    [-], [*] or [/] is the exact result rounded to the nearest double, a tie
    going to the double whose last bit is 0.  A finite double is a real
    number, so the rounding is a function on the reals; overflow to an
    infinity (from [2^1024] on) and NaN are not represented. *)
Module Double.

(** The exponent of the binade of [x], [floor(log2 |x|)], but at least -1022:
    below [2^-1022] the doubles are subnormal and evenly spaced. *)
Definition exponent (x : R) : Z := Z.max (Zfloor (ln (Rabs x) / ln 2)) (-1022).

(** The spacing of the doubles in the binade of [x]: 52 bits below the
    leading one. *)
Definition ulp (x : R) : R := powerRZ 2 (exponent x - 52).

(** The integer nearest to [y], a half going to the even neighbour. *)
Definition nearestEven (y : R) : Z :=
  let n := Zfloor y in
  if Rltb (y - IZR n) (/ 2) then n
  else if Rgtb (y - IZR n) (/ 2) then (n + 1)%Z
  else if Z.even n then n else (n + 1)%Z.

(** The double nearest to [x]. *)
Definition round (x : R) : R := IZR (nearestEven (x / ulp x)) * ulp x.

Definition add (x y : R) : R := round (x + y).
Definition sub (x y : R) : R := round (x - y).
Definition mul (x y : R) : R := round (x * y).


End Double.

Record TimelinePoint := { time : R; level : R }.

(** The [for (let m = 0; m <= totalMinutes; m += intervalMinutes)] loop of
    [generateTimeline], from the loop head with counter [m] and the points
    pushed so far; [None] when [fuel] iterations do not reach the exit.  The
    counter and the sample time are computed in double arithmetic:
    [m += intervalMinutes] rounds at every turn. *)
Fixpoint timelineLoop (fuel : nat) (log : SubstanceLog) (substance : Substance)
    (intervalMinutes totalMinutes m : R) (points : list TimelinePoint)
  : option (list TimelinePoint) :=
  if Rleb m totalMinutes then
    match fuel with
    | O => None
    | S fuel' =>
        let timeMs :=
          Double.add (timestamp log) (Double.mul (Double.mul m 60) 1000) in
        let level := getEffectiveness log substance timeMs in
        timelineLoop fuel' log substance intervalMinutes totalMinutes
          (Double.add m intervalMinutes)
          (points ++ [ {| time := timeMs; level := level |} ])
    end
  else Some points.

Definition generateTimeline (fuel : nat) (log : SubstanceLog) (substance : Substance)
    (intervalMinutes : R) : option (list TimelinePoint) :=
  let pk := getDosePK substance (dosage log) in
  let totalMinutes := Double.mul (duration pk) 60 in
  timelineLoop fuel log substance intervalMinutes totalMinutes 0 [].

(** [Array.prototype.sort] with the comparator [a.timestamp - b.timestamp]:
    ascending by timestamp and stable. *)
Fixpoint insertByTimestamp (x : SubstanceLog) (l : list SubstanceLog)
  : list SubstanceLog :=
  match l with
  | [] => [x]
  | y :: rest =>
      if Rleb (timestamp x) (timestamp y) then x :: y :: rest
      else y :: insertByTimestamp x rest
  end.

Definition sortByTimestamp (l : list SubstanceLog) : list SubstanceLog :=
  foldr insertByTimestamp [] l.

Section Tolerance.

(** The local calendar date of an instant, [(d.getFullYear(), d.getMonth(),
    d.getDate())] for [d = new Date(ms)]; it depends on the time zone of the
    host.  The key string built from it determines the triple and conversely,
    so the day set is kept as a set of triples. *)
Variable localDate : R -> Z * Z * Z.

Definition recentLogsOf (logs : list SubstanceLog) (substance : Substance)
    (nowMs : R) : list SubstanceLog :=
  let sevenDaysAgo := nowMs - 7 * 24 * 60 * 60 * 1000 in
  sortByTimestamp
    (List.filter
       (fun l => bool_decide (substanceId l = s_id substance)
                 && Rgtb (timestamp l) sevenDaysAgo)
       logs).

Definition daySetOf (recentLogs : list SubstanceLog) : gset (Z * Z * Z) :=
  foldl (fun daySet log => daySet ∪ {[ localDate (timestamp log) ]}) ∅ recentLogs.

Definition calculateTolerance (logs : list SubstanceLog) (substance : Substance)
    (nowMs : R) : R :=
  let recentLogs := recentLogsOf logs substance nowMs in
  match last recentLogs with
  | None => 100
  | Some lastLog =>
      let consecutiveDays := INR (size (daySetOf recentLogs)) in
      let lastDose := dosage lastLog in
      let pk := getDosePK substance lastDose in
      let toleranceLoss := consecutiveDays * toleranceRate pk in
      Rmax (100 - toleranceLoss) 10
  end.

End Tolerance.

(** ** The store ([src/store/index.ts]) *)

Record NeuroState := {
  neurotransmitters : list Neurotransmitter;
  substanceLogs : list SubstanceLog;
  sleepSchedule : SleepSchedule;
  viewMode : ViewMode;
  selectedSubstanceId : option string
}.

(** What the [persist] middleware keeps in storage: the three fields its
    [partialize] option selects. *)
Record Persisted := {
  p_substanceLogs : list SubstanceLog;
  p_sleepSchedule : SleepSchedule;
  p_viewMode : ViewMode
}.

Definition partialize (state : NeuroState) : Persisted :=
  {| p_substanceLogs := substanceLogs state;
     p_sleepSchedule := sleepSchedule state;
     p_viewMode := viewMode state |}.

(** Start-up.  [persist] is given no [merge] option, so what it finds in
    storage is spread over the object the state creator returned
    ([{...currentState, ...persistedState}]); with nothing stored the state
    is the creator's.  The stored value is what an earlier session left
    there, possibly under another version of the catalog: it is an input. *)
Definition rehydrate (stored : option Persisted) (state : NeuroState) : NeuroState :=
  match stored with
  | None => state
  | Some p =>
      {| neurotransmitters := neurotransmitters state;
         substanceLogs := p_substanceLogs p;
         sleepSchedule := p_sleepSchedule p;
         viewMode := p_viewMode p;
         selectedSubstanceId := selectedSubstanceId state |}
  end.

Definition storedLogs (stored : option Persisted) : list SubstanceLog :=
  match stored with
  | None => []
  | Some p => p_substanceLogs p
  end.

Section Store.

(** The two module-level constants the store reads: the substance map and the
    baseline neurotransmitter list. *)
Variable catalog : gmap string Substance.
Variable baseNTs : list Neurotransmitter.

(** "Start from fresh baseline NTs": the callback of
    [defaultNeurotransmitters.map], as a function on values.  The source
    builds new objects and then mutates them; [Heap.updateNTLevels] below is
    that code on a heap, and what it returns is shown to be this value. *)
Definition freshNT (hour : R) (baseNT : Neurotransmitter) : Neurotransmitter :=
  {| nt_id := nt_id baseNT;
     nt_name := nt_name baseNT;
     abbreviation := abbreviation baseNT;
     baselineLevel := baselineLevel baseNT;
     currentLevel := getLevel baseNT hour;
     status := stable;
     receptors :=
       map (fun r =>
              {| r_id := r_id r; subtype := subtype r; label := label r;
                 sensitivity := 100;
                 occupancy := getLevel baseNT hour * (occupancy r / baselineLevel baseNT);
                 statusEffects := [] |})
           (receptors baseNT);
     getLevel := getLevel baseNT |}.

(** The body of the innermost loop: one receptor of one neurotransmitter, with
    the neurotransmitter's mutable [currentLevel] and [status] threaded. *)
Definition applyToReceptor (substance : Substance) (log : SubstanceLog)
    (impacts : gmap string R) (lvl : R) (st : NTStatus) (receptor : Receptor)
  : R * NTStatus * Receptor :=
  match impacts !! r_id receptor with
  | None => (lvl, st, receptor)
  | Some impact =>
      match List.find (fun i => bool_decide (receptorId i = r_id receptor))
                      (receptorInteractions substance) with
      | None => (lvl, st, receptor)
      | Some interaction =>
          let effect := {| se_type := ri_type interaction;
                           se_source := s_name substance;
                           se_magnitude := impact;
                           se_startTime := timestamp log |} in
          let pushed := statusEffects receptor ++ [effect] in
          let withSens (s : R) :=
            {| r_id := r_id receptor; subtype := subtype receptor;
               label := label receptor; sensitivity := s;
               occupancy := occupancy receptor; statusEffects := pushed |} in
          match ri_type interaction with
          | agonist | precursor =>
              (Rmin (lvl + impact * 0.3) 100, enhanced, withSens (sensitivity receptor))
          | antagonist =>
              (Rmax (lvl - impact * 0.3) 0, blocked, withSens (sensitivity receptor))
          | upregulation =>
              (lvl, enhanced, withSens (Rmin (sensitivity receptor + impact * 0.2) 150))
          | downregulation =>
              (lvl, falling, withSens (Rmax (sensitivity receptor - impact * 0.2) 20))
          | modulation =>
              (Rmin (lvl + impact * 0.15) 100,
               match st with stable => enhanced | _ => st end,
               withSens (sensitivity receptor))
          end
      end
  end.

(** [for (const receptor of nt.receptors)]. *)
Fixpoint applyToReceptors (substance : Substance) (log : SubstanceLog)
    (impacts : gmap string R) (lvl : R) (st : NTStatus) (rs : list Receptor)
  : R * NTStatus * list Receptor :=
  match rs with
  | [] => (lvl, st, [])
  | r :: rest =>
      let '(lvl1, st1, r') := applyToReceptor substance log impacts lvl st r in
      let '(lvl2, st2, rest') :=
        applyToReceptors substance log impacts lvl1 st1 rest in
      (lvl2, st2, r' :: rest')
  end.

(** The body of [for (const nt of updated)]. *)
Definition applyToNT (substance : Substance) (log : SubstanceLog)
    (impacts : gmap string R) (nt : Neurotransmitter) : Neurotransmitter :=
  let '(lvl, st, rs) :=
    applyToReceptors substance log impacts (currentLevel nt) (status nt) (receptors nt) in
  {| nt_id := nt_id nt; nt_name := nt_name nt; abbreviation := abbreviation nt;
     baselineLevel := baselineLevel nt; currentLevel := lvl; status := st;
     receptors := rs; getLevel := getLevel nt |}.

(** The body of [for (const log of activeLogs)]. *)
Definition applyLog (now : R) (updated : list Neurotransmitter) (log : SubstanceLog)
  : list Neurotransmitter :=
  match catalog !! substanceId log with
  | None => updated
  | Some substance =>
      let effectiveness := getEffectiveness log substance now in
      if Rltb effectiveness 1 then updated else
      let impacts :=
        calculateReceptorImpact (receptorInteractions substance) effectiveness in
      map (applyToNT substance log impacts) updated
  end.

(** What [updateNTLevels] stores in [neurotransmitters], as a function of the
    three values it reads: [Date.now()], [getCurrentHour()] and the
    [substanceLogs] of the store. *)
Definition recomputeWith (now hour : R) (logs : list SubstanceLog)
  : list Neurotransmitter :=
  let updated := map (freshNT hour) baseNTs in
  let activeLogs := List.filter (fun l => Rgtb (expectedClearance l) now) logs in
  foldl (applyLog now) updated activeLogs.

Definition setNeurotransmitters (nts : list Neurotransmitter) (s : NeuroState) :=
  {| neurotransmitters := nts; substanceLogs := substanceLogs s;
     sleepSchedule := sleepSchedule s; viewMode := viewMode s;
     selectedSubstanceId := selectedSubstanceId s |}.

Definition setSubstanceLogs (logs : list SubstanceLog) (s : NeuroState) :=
  {| neurotransmitters := neurotransmitters s; substanceLogs := logs;
     sleepSchedule := sleepSchedule s; viewMode := viewMode s;
     selectedSubstanceId := selectedSubstanceId s |}.

Definition updateNTLevelsWith (now hour : R) (s : NeuroState) : NeuroState :=
  setNeurotransmitters (recomputeWith now hour (substanceLogs s)) s.

(** [logSubstance]: [now] is the [Date.now()] read for the log, [newId] the
    result of [generateId()], and [now'], [hour'] the clock read by the
    [updateNTLevels] call that follows. *)
Definition logSubstanceWith (sid : string) (dose : R) (now : R) (newId : string)
    (now' hour' : R) (s : NeuroState) : NeuroState :=
  match catalog !! sid with
  | None => s
  | Some substance =>
      let clearanceMs := calculateClearanceTime substance dose in
      let newLog := {| log_id := newId; substanceId := sid; dosage := dose;
                       timestamp := now; expectedClearance := now + clearanceMs |} in
      updateNTLevelsWith now' hour'
        (setSubstanceLogs (substanceLogs s ++ [newLog]) s)
  end.

Definition removeLogWith (logId : string) (now' hour' : R) (s : NeuroState) : NeuroState :=
  updateNTLevelsWith now' hour'
    (setSubstanceLogs
       (List.filter (fun l => negb (bool_decide (log_id l = logId))) (substanceLogs s)) s).

Definition clearLogsWith (now' hour' : R) (s : NeuroState) : NeuroState :=
  updateNTLevelsWith now' hour' (setSubstanceLogs [] s).

Definition setSleepScheduleWith (schedule : SleepSchedule) (now' hour' : R)
    (s : NeuroState) : NeuroState :=
  updateNTLevelsWith now' hour'
    {| neurotransmitters := neurotransmitters s; substanceLogs := substanceLogs s;
       sleepSchedule := schedule; viewMode := viewMode s;
       selectedSubstanceId := selectedSubstanceId s |}.

Definition setViewMode (mode : ViewMode) (s : NeuroState) : NeuroState :=
  {| neurotransmitters := neurotransmitters s; substanceLogs := substanceLogs s;
     sleepSchedule := sleepSchedule s; viewMode := mode;
     selectedSubstanceId := selectedSubstanceId s |}.

Definition setSelectedSubstance (id : option string) (s : NeuroState) : NeuroState :=
  {| neurotransmitters := neurotransmitters s; substanceLogs := substanceLogs s;
     sleepSchedule := sleepSchedule s; viewMode := viewMode s;
     selectedSubstanceId := id |}.

(** The object the state creator returns, before [persist] rehydrates it. *)
Definition initialState : NeuroState :=
  {| neurotransmitters := baseNTs; substanceLogs := [];
     sleepSchedule := {| wakeTime := "07:00"; sleepTime := "23:00" |};
     viewMode := simple; selectedSubstanceId := None |}.

(** One action of the store, with the clock and id values it reads. *)
Inductive step : NeuroState -> NeuroState -> Prop :=
  | step_logSubstance sid dose now newId now' hour' s :
      step s (logSubstanceWith sid dose now newId now' hour' s)
  | step_removeLog logId now' hour' s :
      step s (removeLogWith logId now' hour' s)
  | step_clearLogs now' hour' s :
      step s (clearLogsWith now' hour' s)
  | step_setSleepSchedule schedule now' hour' s :
      step s (setSleepScheduleWith schedule now' hour' s)
  | step_setViewMode mode s :
      step s (setViewMode mode s)
  | step_setSelectedSubstance id s :
      step s (setSelectedSubstance id s)
  | step_updateNTLevels now hour s :
      step s (updateNTLevelsWith now hour s).

(** The states the store can be in during a session that found [stored] in
    storage: the rehydrated creator's state, then any number of actions. *)
Inductive reachable (stored : option Persisted) : NeuroState -> Prop :=
  | reachable_init : reachable stored (rehydrate stored initialState)
  | reachable_step s s' : reachable stored s -> step s s' -> reachable stored s'.

End Store.

(** The store of the application: the catalog and the four systems above. *)
Definition recompute := recomputeWith substanceMap defaultNeurotransmitters.
Definition updateNTLevels := updateNTLevelsWith substanceMap defaultNeurotransmitters.
Definition logSubstance := logSubstanceWith substanceMap defaultNeurotransmitters.

(** ** The objects behind [updateNTLevels] *)

(** [updateNTLevels] builds its snapshot by mutation: it pushes to
    [receptor.statusEffects] and assigns [receptor.sensitivity],
    [nt.currentLevel] and [nt.status].  Here the objects live in a heap and
    are reached through references, so that what the function shares with the
    module constant [defaultNeurotransmitters], and what it writes, is
    explicit.  There is one store per class of object (the static types of
    the source keep the classes apart); a reference is an index into the
    store of its class, and a new object is allocated at the end of it. *)
Module Heap.

Abbreviation loc := nat.

(** A neurotransmitter object: its scalar fields, and the references held
    by [receptors] and [circadianRhythm]. *)
Record NTObj := {
  o_id : string;
  o_name : string;
  o_abbreviation : string;
  o_baselineLevel : R;
  o_currentLevel : R;
  o_status : NTStatus;
  o_receptors : loc;
  o_circadianRhythm : loc
}.

(** A receptor object, with the reference held by [statusEffects]. *)
Record ReceptorObj := {
  ro_id : string;
  ro_subtype : string;
  ro_label : string;
  ro_sensitivity : R;
  ro_occupancy : R;
  ro_statusEffects : loc
}.

(** The stores.  A status effect is an object literal that is pushed and
    never written again: the [statusEffects] arrays hold them as values. *)
Record heap := {
  ntObjs : list NTObj;
  receptorObjs : list ReceptorObj;
  effectArrays : list (list StatusEffect);
  refArrays : list (list loc);
  rhythms : list (R -> R)
}.

Definition emptyHeap : heap :=
  {| ntObjs := []; receptorObjs := []; effectArrays := []; refArrays := [];
     rhythms := [] |}.

Definition withNTObjs (h : heap) (l : list NTObj) : heap :=
  {| ntObjs := l; receptorObjs := receptorObjs h; effectArrays := effectArrays h;
     refArrays := refArrays h; rhythms := rhythms h |}.

Definition withReceptorObjs (h : heap) (l : list ReceptorObj) : heap :=
  {| ntObjs := ntObjs h; receptorObjs := l; effectArrays := effectArrays h;
     refArrays := refArrays h; rhythms := rhythms h |}.

Definition withEffectArrays (h : heap) (l : list (list StatusEffect)) : heap :=
  {| ntObjs := ntObjs h; receptorObjs := receptorObjs h; effectArrays := l;
     refArrays := refArrays h; rhythms := rhythms h |}.

Definition withRefArrays (h : heap) (l : list (list loc)) : heap :=
  {| ntObjs := ntObjs h; receptorObjs := receptorObjs h; effectArrays := effectArrays h;
     refArrays := l; rhythms := rhythms h |}.

Definition withRhythms (h : heap) (l : list (R -> R)) : heap :=
  {| ntObjs := ntObjs h; receptorObjs := receptorObjs h; effectArrays := effectArrays h;
     refArrays := refArrays h; rhythms := l |}.

(** Allocation: the new object goes to the end of its store. *)
Definition allocNT (o : NTObj) (h : heap) : loc * heap :=
  (length (ntObjs h), withNTObjs h (ntObjs h ++ [o])).

Definition allocReceptor (o : ReceptorObj) (h : heap) : loc * heap :=
  (length (receptorObjs h), withReceptorObjs h (receptorObjs h ++ [o])).

Definition allocEffects (es : list StatusEffect) (h : heap) : loc * heap :=
  (length (effectArrays h), withEffectArrays h (effectArrays h ++ [es])).

Definition allocArray (ls : list loc) (h : heap) : loc * heap :=
  (length (refArrays h), withRefArrays h (refArrays h ++ [ls])).

Definition allocRhythm (f : R -> R) (h : heap) : loc * heap :=
  (length (rhythms h), withRhythms h (rhythms h ++ [f])).

(** Assignment to the fields of an object, and [Array.prototype.push]. *)
Definition writeNT (l : loc) (f : NTObj -> NTObj) (h : heap) : option heap :=
  o ← ntObjs h !! l; Some (withNTObjs h (<[ l := f o ]> (ntObjs h))).

Definition writeReceptor (l : loc) (f : ReceptorObj -> ReceptorObj) (h : heap)
  : option heap :=
  o ← receptorObjs h !! l; Some (withReceptorObjs h (<[ l := f o ]> (receptorObjs h))).

Definition push (l : loc) (e : StatusEffect) (h : heap) : option heap :=
  es ← effectArrays h !! l; Some (withEffectArrays h (<[ l := es ++ [e] ]> (effectArrays h))).

Definition setLevelStatus (lvl : R) (st : NTStatus) (o : NTObj) : NTObj :=
  {| o_id := o_id o; o_name := o_name o; o_abbreviation := o_abbreviation o;
     o_baselineLevel := o_baselineLevel o; o_currentLevel := lvl; o_status := st;
     o_receptors := o_receptors o; o_circadianRhythm := o_circadianRhythm o |}.

Definition setSensitivity (s : R) (o : ReceptorObj) : ReceptorObj :=
  {| ro_id := ro_id o; ro_subtype := ro_subtype o; ro_label := ro_label o;
     ro_sensitivity := s; ro_occupancy := ro_occupancy o;
     ro_statusEffects := ro_statusEffects o |}.

(** The callback of [baseNT.receptors.map]: a new object spread from [r],
    with a new empty [statusEffects] array. *)
Definition copyReceptor (level baseline : R) (r : loc) (h : heap) : option (loc * heap) :=
  o ← receptorObjs h !! r;
  let '(e, h1) := allocEffects [] h in
  Some (allocReceptor
          {| ro_id := ro_id o; ro_subtype := ro_subtype o; ro_label := ro_label o;
             ro_sensitivity := 100;
             ro_occupancy := level * (ro_occupancy o / baseline);
             ro_statusEffects := e |} h1).

Fixpoint copyReceptors (level baseline : R) (rs : list loc) (h : heap)
  : option (list loc * heap) :=
  match rs with
  | [] => Some ([], h)
  | r :: rest =>
      '(r', h1) ← copyReceptor level baseline r h;
      '(rest', h2) ← copyReceptors level baseline rest h1;
      Some (r' :: rest', h2)
  end.

(** The callback of [defaultNeurotransmitters.map]: a new object spread from
    [baseNT] (the reference to the rhythm object is copied, the object is
    shared), with the new array of new receptor objects. *)
Definition copyNT (hour : R) (baseNT : loc) (h : heap) : option (loc * heap) :=
  o ← ntObjs h !! baseNT;
  getLevel ← rhythms h !! o_circadianRhythm o;
  rs ← refArrays h !! o_receptors o;
  '(rs', h1) ← copyReceptors (getLevel hour) (o_baselineLevel o) rs h;
  let '(a, h2) := allocArray rs' h1 in
  Some (allocNT
          {| o_id := o_id o; o_name := o_name o; o_abbreviation := o_abbreviation o;
             o_baselineLevel := o_baselineLevel o;
             o_currentLevel := getLevel hour; o_status := stable;
             o_receptors := a; o_circadianRhythm := o_circadianRhythm o |} h2).

Fixpoint copyNTs (hour : R) (nts : list loc) (h : heap) : option (list loc * heap) :=
  match nts with
  | [] => Some ([], h)
  | n :: rest =>
      '(n', h1) ← copyNT hour n h;
      '(rest', h2) ← copyNTs hour rest h1;
      Some (n' :: rest', h2)
  end.

(** The body of [for (const receptor of nt.receptors)], on the objects. *)
Definition applyToReceptor (substance : Substance) (log : SubstanceLog)
    (impacts : gmap string R) (nt receptor : loc) (h : heap) : option heap :=
  r ← receptorObjs h !! receptor;
  match impacts !! ro_id r with
  | None => Some h
  | Some impact =>
      match List.find (fun i => bool_decide (receptorId i = ro_id r))
                      (receptorInteractions substance) with
      | None => Some h
      | Some interaction =>
          let effect := {| se_type := ri_type interaction;
                           se_source := s_name substance;
                           se_magnitude := impact;
                           se_startTime := timestamp log |} in
          h1 ← push (ro_statusEffects r) effect h;
          match ri_type interaction with
          | agonist | precursor =>
              writeNT nt (fun o => setLevelStatus
                                     (Rmin (o_currentLevel o + impact * 0.3) 100)
                                     enhanced o) h1
          | antagonist =>
              writeNT nt (fun o => setLevelStatus
                                     (Rmax (o_currentLevel o - impact * 0.3) 0)
                                     blocked o) h1
          | upregulation =>
              h2 ← writeReceptor receptor
                     (fun o => setSensitivity
                                 (Rmin (ro_sensitivity o + impact * 0.2) 150) o) h1;
              writeNT nt (fun o => setLevelStatus (o_currentLevel o) enhanced o) h2
          | downregulation =>
              h2 ← writeReceptor receptor
                     (fun o => setSensitivity
                                 (Rmax (ro_sensitivity o - impact * 0.2) 20) o) h1;
              writeNT nt (fun o => setLevelStatus (o_currentLevel o) falling o) h2
          | modulation =>
              writeNT nt (fun o => setLevelStatus
                                     (Rmin (o_currentLevel o + impact * 0.15) 100)
                                     match o_status o with
                                     | stable => enhanced
                                     | st => st
                                     end o) h1
          end
      end
  end.

Fixpoint forEachReceptor (substance : Substance) (log : SubstanceLog)
    (impacts : gmap string R) (nt : loc) (rs : list loc) (h : heap) : option heap :=
  match rs with
  | [] => Some h
  | r :: rest =>
      h1 ← applyToReceptor substance log impacts nt r h;
      forEachReceptor substance log impacts nt rest h1
  end.

(** The body of [for (const nt of updated)]. *)
Definition applyToNT (substance : Substance) (log : SubstanceLog)
    (impacts : gmap string R) (nt : loc) (h : heap) : option heap :=
  o ← ntObjs h !! nt;
  rs ← refArrays h !! o_receptors o;
  forEachReceptor substance log impacts nt rs h.

Fixpoint forEachNT (substance : Substance) (log : SubstanceLog)
    (impacts : gmap string R) (nts : list loc) (h : heap) : option heap :=
  match nts with
  | [] => Some h
  | n :: rest =>
      h1 ← applyToNT substance log impacts n h;
      forEachNT substance log impacts rest h1
  end.

(** The body of [for (const log of activeLogs)]. *)
Definition applyLog (catalog : gmap string Substance) (now : R) (updated : loc)
    (log : SubstanceLog) (h : heap) : option heap :=
  match catalog !! substanceId log with
  | None => Some h
  | Some substance =>
      let effectiveness := getEffectiveness log substance now in
      if Rltb effectiveness 1 then Some h else
      let impacts :=
        calculateReceptorImpact (receptorInteractions substance) effectiveness in
      nts ← refArrays h !! updated;
      forEachNT substance log impacts nts h
  end.

Fixpoint forEachLog (catalog : gmap string Substance) (now : R) (updated : loc)
    (logs : list SubstanceLog) (h : heap) : option heap :=
  match logs with
  | [] => Some h
  | log :: rest =>
      h1 ← applyLog catalog now updated log h;
      forEachLog catalog now updated rest h1
  end.

(** [updateNTLevels], from the reference [defaults] held by the module
    constant; the result is the reference passed to [set] as the new
    [neurotransmitters], with the heap the call leaves.  [None] marks a
    dangling reference. *)
Definition updateNTLevels (catalog : gmap string Substance) (defaults : loc)
    (now hour : R) (substanceLogs : list SubstanceLog) (h : heap)
  : option (loc * heap) :=
  base ← refArrays h !! defaults;
  '(copies, h1) ← copyNTs hour base h;
  let '(updated, h2) := allocArray copies h1 in
  let activeLogs := List.filter (fun l => Rgtb (expectedClearance l) now) substanceLogs in
  h3 ← forEachLog catalog now updated activeLogs h2;
  Some (updated, h3).

(** Reading a value off the heap. *)
Definition readReceptor (h : heap) (l : loc) : option Receptor :=
  o ← receptorObjs h !! l;
  es ← effectArrays h !! ro_statusEffects o;
  Some {| r_id := ro_id o; subtype := ro_subtype o; label := ro_label o;
          sensitivity := ro_sensitivity o; occupancy := ro_occupancy o;
          statusEffects := es |}.

Definition readNT (h : heap) (l : loc) : option Neurotransmitter :=
  o ← ntObjs h !! l;
  f ← rhythms h !! o_circadianRhythm o;
  rs ← refArrays h !! o_receptors o;
  recs ← mapM (readReceptor h) rs;
  Some {| nt_id := o_id o; nt_name := o_name o; abbreviation := o_abbreviation o;
          baselineLevel := o_baselineLevel o; currentLevel := o_currentLevel o;
          status := o_status o; receptors := recs; getLevel := f |}.

Definition readNTs (h : heap) (l : loc) : option (list Neurotransmitter) :=
  ls ← refArrays h !! l; mapM (readNT h) ls.

(** Evaluation of an array literal of neurotransmitter object literals, as
    the module [data/neurotransmitters] does when it is loaded. *)
Definition newReceptor (r : Receptor) (h : heap) : loc * heap :=
  let '(e, h1) := allocEffects (statusEffects r) h in
  allocReceptor {| ro_id := r_id r; ro_subtype := subtype r; ro_label := label r;
                   ro_sensitivity := sensitivity r; ro_occupancy := occupancy r;
                   ro_statusEffects := e |} h1.

Fixpoint newReceptors (rs : list Receptor) (h : heap) : list loc * heap :=
  match rs with
  | [] => ([], h)
  | r :: rest =>
      let '(l, h1) := newReceptor r h in
      let '(ls, h2) := newReceptors rest h1 in
      (l :: ls, h2)
  end.

Definition newNT (nt : Neurotransmitter) (h : heap) : loc * heap :=
  let '(rs, h1) := newReceptors (receptors nt) h in
  let '(a, h2) := allocArray rs h1 in
  let '(c, h3) := allocRhythm (getLevel nt) h2 in
  allocNT {| o_id := nt_id nt; o_name := nt_name nt; o_abbreviation := abbreviation nt;
             o_baselineLevel := baselineLevel nt; o_currentLevel := currentLevel nt;
             o_status := status nt; o_receptors := a; o_circadianRhythm := c |} h3.

Fixpoint newNTs (nts : list Neurotransmitter) (h : heap) : list loc * heap :=
  match nts with
  | [] => ([], h)
  | nt :: rest =>
      let '(l, h1) := newNT nt h in
      let '(ls, h2) := newNTs rest h1 in
      (l :: ls, h2)
  end.

Definition newNTArray (nts : list Neurotransmitter) (h : heap) : loc * heap :=
  let '(ls, h1) := newNTs nts h in allocArray ls h1.

(** What a call leaves of the heap it found: every object that existed is
    still there, unchanged. *)
Definition extends (h h' : heap) : Prop :=
  (forall l o, ntObjs h !! l = Some o -> ntObjs h' !! l = Some o) /\
  (forall l o, receptorObjs h !! l = Some o -> receptorObjs h' !! l = Some o) /\
  (forall l o, effectArrays h !! l = Some o -> effectArrays h' !! l = Some o) /\
  (forall l o, refArrays h !! l = Some o -> refArrays h' !! l = Some o) /\
  (forall l o, rhythms h !! l = Some o -> rhythms h' !! l = Some o).

(** The heaps of a session: the heap [h0] it started with, then the heap left
    by each call of [updateNTLevels], whatever the clock and the logs were. *)
Inductive afterCalls (catalog : gmap string Substance) (defaults : loc) (h0 : heap)
  : heap -> Prop :=
  | after_start : afterCalls catalog defaults h0 h0
  | after_call h now hour substanceLogs updated h' :
      afterCalls catalog defaults h0 h ->
      updateNTLevels catalog defaults now hour substanceLogs h = Some (updated, h') ->
      afterCalls catalog defaults h0 h'.

(** The heap once the module [data/neurotransmitters] is loaded, and the
    reference its constant [defaultNeurotransmitters] holds. *)
Definition moduleHeap : heap := (newNTArray defaultNeurotransmitters emptyHeap).2.
Definition defaultsRef : loc := (newNTArray defaultNeurotransmitters emptyHeap).1.

End Heap.

(** ** Representation of snapshots in the heap *)

(** Where the objects of one neurotransmitter of a snapshot lie: the object
    itself, its [receptors] array, its rhythm object, and for each receptor
    the receptor object with its [statusEffects] array. *)
Record NTShape := {
  sh_nt : Heap.loc;
  sh_arr : Heap.loc;
  sh_rhythm : Heap.loc;
  sh_recs : list (Heap.loc * Heap.loc)
}.

Definition receptorObjOf (rec : Receptor) (e : Heap.loc) : Heap.ReceptorObj :=
  {| Heap.ro_id := r_id rec; Heap.ro_subtype := subtype rec; Heap.ro_label := label rec;
     Heap.ro_sensitivity := sensitivity rec; Heap.ro_occupancy := occupancy rec;
     Heap.ro_statusEffects := e |}.

Definition ntObjOf (nt : Neurotransmitter) (a c : Heap.loc) : Heap.NTObj :=
  {| Heap.o_id := nt_id nt; Heap.o_name := nt_name nt;
     Heap.o_abbreviation := abbreviation nt;
     Heap.o_baselineLevel := baselineLevel nt; Heap.o_currentLevel := currentLevel nt;
     Heap.o_status := status nt; Heap.o_receptors := a; Heap.o_circadianRhythm := c |}.

(** The heap holds the receptor [rec] at the pair [p] of a receptor object
    and its effects array, and the neurotransmitter [nt] at the shape [sh]. *)
Definition holdsRec (h : Heap.heap) (p : Heap.loc * Heap.loc) (rec : Receptor) : Prop :=
  Heap.receptorObjs h !! p.1 = Some (receptorObjOf rec p.2) /\
  Heap.effectArrays h !! p.2 = Some (statusEffects rec).

Definition holds (h : Heap.heap) (sh : NTShape) (nt : Neurotransmitter) : Prop :=
  Heap.ntObjs h !! sh_nt sh = Some (ntObjOf nt (sh_arr sh) (sh_rhythm sh)) /\
  Heap.rhythms h !! sh_rhythm sh = Some (getLevel nt) /\
  Heap.refArrays h !! sh_arr sh = Some (map fst (sh_recs sh)) /\
  Forall2 (holdsRec h) (sh_recs sh) (receptors nt).

Definition receptorLocs (shapes : list NTShape) : list Heap.loc :=
  concat (map (fun sh => map fst (sh_recs sh)) shapes).

Definition effectLocs (shapes : list NTShape) : list Heap.loc :=
  concat (map (fun sh => map snd (sh_recs sh)) shapes).

(** No object written by the loops is shared between two shapes, or between
    two receptors of one shape. *)
Definition separate (shapes : list NTShape) : Prop :=
  NoDup (map sh_nt shapes) /\ NoDup (receptorLocs shapes) /\ NoDup (effectLocs shapes).

(** [h'] differs from [h] at most in the neurotransmitter objects [N], the
    receptor objects [R] and the effects arrays [E]. *)
Definition sameExcept (N R E : list Heap.loc) (h h' : Heap.heap) : Prop :=
  (forall l, l ∉ N -> Heap.ntObjs h' !! l = Heap.ntObjs h !! l) /\
  (forall l, l ∉ R -> Heap.receptorObjs h' !! l = Heap.receptorObjs h !! l) /\
  (forall l, l ∉ E -> Heap.effectArrays h' !! l = Heap.effectArrays h !! l) /\
  Heap.refArrays h' = Heap.refArrays h /\ Heap.rhythms h' = Heap.rhythms h.

(** [h'] is [h] with more objects allocated. *)
Definition grown (h h' : Heap.heap) : Prop :=
  Heap.ntObjs h `prefix_of` Heap.ntObjs h' /\
  Heap.receptorObjs h `prefix_of` Heap.receptorObjs h' /\
  Heap.effectArrays h `prefix_of` Heap.effectArrays h' /\
  Heap.refArrays h `prefix_of` Heap.refArrays h' /\
  Heap.rhythms h `prefix_of` Heap.rhythms h'.

(** The receptor value [freshNT] builds from [r]. *)
Definition freshReceptor (level baseline : R) (r : Receptor) : Receptor :=
  {| r_id := r_id r; subtype := subtype r; label := label r;
     sensitivity := 100; occupancy := level * (occupancy r / baseline);
     statusEffects := [] |}.

(** The written objects of a shape were allocated between [h] and [h']. *)
Definition recsBetween (h h' : Heap.heap) (ps : list (Heap.loc * Heap.loc)) : Prop :=
  Forall (fun p =>
    (length (Heap.receptorObjs h) <= p.1 < length (Heap.receptorObjs h'))%nat /\
    (length (Heap.effectArrays h) <= p.2 < length (Heap.effectArrays h'))%nat) ps.

Definition shapeBetween (h h' : Heap.heap) (sh : NTShape) : Prop :=
  (length (Heap.ntObjs h) <= sh_nt sh < length (Heap.ntObjs h'))%nat /\
  recsBetween h h' (sh_recs sh).

(** The frame of a heap whose stores were each updated at one index: [lem]
    is the lemma that states it. *)
Ltac frame_writes lem :=
  apply lem; simpl; intros;
  repeat (rewrite list_lookup_insert_ne by congruence); reflexivity.


(** ** Calibration anchors and scenario data *)

(** The two anchor doses of each substance: the doses at which the
    interpolation parameter [t] of its [getDosePK] is 0 and 1. *)
Definition calibration : list (Substance * (R * R)) :=
  [ (Catalog.caffeine, (50, 400));
    (Catalog.l_theanine, (100, 400));
    (Catalog.nicotine, (1, 6));
    (Catalog.l_tyrosine, (250, 1000));
    (Catalog.flmodafinil, (25, 100));
    (Catalog.bromantane, (25, 100));
    (Catalog.shilajit, (250, 500)) ].

(** What an unclamped interpolation would return. *)
Definition extrapolate (a b t : R) : R := a + (b - a) * t.

(** A substance whose resolved peak time is 0 ("instantaneous onset"), with
    a positive half-life, and a log of it taken at instant 0. *)
Definition instantOnset : Substance :=
  {| s_id := "instant"; s_name := "Instant"; category := Supplement;
     dosageUnit := "mg"; commonDoses := [1];
     defaultPK := mkPK 2 0 0 4 1;
     getDosePK := fun _ => mkPK 2 0 0 4 1;
     receptorInteractions := [] |}.

Definition instantLog : SubstanceLog :=
  {| log_id := "log0"; substanceId := "instant"; dosage := 1;
     timestamp := 0; expectedClearance := 2 * 4.3 * 60 * 60 * 1000 |}.

(** "Sums same-receptor contributions of one substance": the sum of the
    scaled magnitudes of the interactions that target receptor [r], and
    whether any interaction targets it. *)
Definition scaledSum (r : string) (effectivenessPercent : R)
    (interactions : list ReceptorInteraction) : R :=
  foldr (fun i acc =>
           if bool_decide (receptorId i = r)
           then acc + magnitude i * effectivenessPercent / 100 else acc)
        0 interactions.

Definition targets (r : string) (interactions : list ReceptorInteraction) : bool :=
  existsb (fun i => bool_decide (receptorId i = r)) interactions.

(** A receptor with one more status effect, when it is receptor [r]. *)
Definition pushEffect (r : string) (e : StatusEffect) (rec : Receptor) : Receptor :=
  if bool_decide (r_id rec = r)
  then {| r_id := r_id rec; subtype := subtype rec; label := label rec;
          sensitivity := sensitivity rec; occupancy := occupancy rec;
          statusEffects := statusEffects rec ++ [e] |}
  else rec.

(** Two substances with one agonist interaction each, of magnitudes 40 and
    30, on the D1 receptor; both peak 30 minutes after the dose. *)
Definition agonistOn (id r : string) (m : R) : Substance :=
  {| s_id := id; s_name := id; category := Stimulant;
     dosageUnit := "mg"; commonDoses := [1];
     defaultPK := mkPK 2 10 30 4 1;
     getDosePK := fun _ => mkPK 2 10 30 4 1;
     receptorInteractions := [ mkRI r "dopamine" agonist m ] |}.

Definition subA : Substance := agonistOn "subA" "d1" 40.
Definition subB : Substance := agonistOn "subB" "d1" 30.
Definition twoAgonists : gmap string Substance := mkSubstanceMap [subA; subB].

(** The same with magnitudes 80 and 70, whose sum exceeds 100. *)
Definition strongA : Substance := agonistOn "strongA" "d1" 80.
Definition strongB : Substance := agonistOn "strongB" "d1" 70.
Definition twoStrongAgonists : gmap string Substance := mkSubstanceMap [strongA; strongB].

(** The two status effects that two logs [l1], [l2] of agonists [s1], [s2]
    with impacts [m1], [m2] leave on the receptor, in the order of the logs. *)
Definition twoEffects (s1 s2 : Substance) (l1 l2 : SubstanceLog) (m1 m2 : R)
  : list StatusEffect :=
  [ {| se_type := agonist; se_source := s_name s1;
       se_magnitude := m1; se_startTime := timestamp l1 |};
    {| se_type := agonist; se_source := s_name s2;
       se_magnitude := m2; se_startTime := timestamp l2 |} ].

(** The level a system would get from impacts [m1] and [m2] on one receptor if
    their sum were capped at 100 jointly, across the two substances, the way
    the contributions of one substance are. *)
Definition jointlyCapped (baseline m1 m2 : R) : R :=
  Rmin (baseline + Rmin (m1 + m2) 100 * 0.3) 100.

Definition logOf (id : string) (s : Substance) (dose now : R) : SubstanceLog :=
  {| log_id := id; substanceId := s_id s; dosage := dose; timestamp := now;
     expectedClearance := now + calculateClearanceTime s dose |}.



(** The filter of [calculateTolerance]: a log of this substance taken later
    than seven days before [nowMs]. *)
Definition inWindow (substance : Substance) (nowMs : R) (l : SubstanceLog) : bool :=
  bool_decide (substanceId l = s_id substance)
  && Rgtb (timestamp l) (nowMs - 7 * 24 * 60 * 60 * 1000).

(** "Distinct calendar days containing at least one log". *)
Definition distinctDays (localDate : R -> Z * Z * Z) (ls : list SubstanceLog) : nat :=
  size (list_to_set (map (fun l => localDate (timestamp l)) ls) : gset (Z * Z * Z)).

Definition earlierOrSame (a b : SubstanceLog) : Prop := timestamp a <= timestamp b.

(** The UTC calendar date of an instant of January 1970. *)
Definition januaryDate (ms : R) : Z * Z * Z :=
  (1970, 0, 1 + Zfloor (ms / 86400000))%Z.

(** A substance whose resolved tolerance rate is negative. *)
Definition sensitizer : Substance :=
  {| s_id := "sensitizer"; s_name := "Sensitizer"; category := Supplement;
     dosageUnit := "mg"; commonDoses := [1];
     defaultPK := mkPK 2 10 30 4 (-5);
     getDosePK := fun _ => mkPK 2 10 30 4 (-5);
     receptorInteractions := [] |}.

Definition dayMs : R := 24 * 60 * 60 * 1000.

(** Five nicotine logs at noon of five consecutive days. *)
Definition fiveDays : list SubstanceLog :=
  [ logOf "n1" Catalog.nicotine 2 (0.5 * dayMs);
    logOf "n2" Catalog.nicotine 2 (1.5 * dayMs);
    logOf "n3" Catalog.nicotine 4 (2.5 * dayMs);
    logOf "n4" Catalog.nicotine 2 (3.5 * dayMs);
    logOf "n5" Catalog.nicotine 1 (4.5 * dayMs) ].

Definition clamp (x lo hi : R) : R := Rmax lo (Rmin x hi).

(** The data-model ranges of a receptor and of a neurotransmitter with its
    receptors. *)
Definition receptorInRange (rec : Receptor) : Prop :=
  20 <= sensitivity rec <= 150 /\ 0 <= occupancy rec <= 100.

Definition ntInRange (nt : Neurotransmitter) : Prop :=
  0 <= currentLevel nt <= 100 /\ Forall receptorInRange (receptors nt).






(** Lookups in the substance map of the application. *)
Ltac lookup_catalog :=
  unfold substanceMap, mkSubstanceMap, substances; simpl;
  repeat (rewrite lookup_insert_ne by discriminate);
  first [apply lookup_insert_eq | apply lookup_empty].

(** The kinetics each substance resolves to at its two anchor doses, with the
    anchor doses themselves. *)
Definition anchorKinetics : list (Substance * (R * R) * (DosePK * DosePK)) :=
  [ (Catalog.caffeine, (50, 400), (mkPK 4.5 15 40 9.9 5, mkPK 6.5 15 50 14.3 5));
    (Catalog.l_theanine, (100, 400), (mkPK 1.1 35 50 3 1, mkPK 1.1 25 50 7 1));
    (Catalog.nicotine, (1, 6), (mkPK 2 5 15 3.5 12, mkPK 2 5 15 5 12));
    (Catalog.l_tyrosine, (250, 1000), (mkPK 1.8 30 75 4 2, mkPK 2.5 30 120 6 2));
    (Catalog.flmodafinil, (25, 100), (mkPK 12 15 180 14 3, mkPK 15 25 300 18 3));
    (Catalog.bromantane, (25, 100), (mkPK 11 90 165 24 1, mkPK 11 90 210 24 1));
    (Catalog.shilajit, (250, 500), (mkPK 7 60 150 10 2, mkPK 7 60 210 14 2)) ].

(** A neurotransmitter of a snapshot at hour [hour] is either untouched
    (stable, at its circadian level, every receptor at sensitivity 100 with no
    status effect) or carries a status other than stable and rising, with a
    status effect on at least one of its receptors. *)
Definition ntUntouched (hour : R) (nt : Neurotransmitter) : Prop :=
  status nt = stable /\ currentLevel nt = getLevel nt hour /\
  Forall (fun r => sensitivity r = 100 /\ statusEffects r = []) (receptors nt).

Definition ntAffected (nt : Neurotransmitter) : Prop :=
  In (status nt) [enhanced; blocked; falling] /\
  Exists (fun r => (0 < length (statusEffects r))%nat) (receptors nt).

(** What the recompute never changes: the identity of a system and of its
    receptors, and each receptor's occupancy. *)
Definition sameReceptorFrame (r0 r : Receptor) : Prop :=
  r_id r = r_id r0 /\ subtype r = subtype r0 /\ label r = label r0 /\
  occupancy r = occupancy r0.

Definition sameFrame (nt0 nt : Neurotransmitter) : Prop :=
  nt_id nt = nt_id nt0 /\ nt_name nt = nt_name nt0 /\
  abbreviation nt = abbreviation nt0 /\ baselineLevel nt = baselineLevel nt0 /\
  getLevel nt = getLevel nt0 /\
  Forall2 sameReceptorFrame (receptors nt0) (receptors nt).

(** The receptors of the adenosine system, the only ones the catalog
    antagonises. *)
Definition adenosineReceptors : list string := ["a1"; "a2a"].

(** The direction in which the catalog can move a system away from its
    circadian level at hour [h]: adenosine only down, the others only up;
    sensitivity only up. *)
Definition movedAsCatalogAllows (h : R) (base nt : Neurotransmitter) : Prop :=
  map r_id (receptors nt) = map r_id (receptors base) /\
  Forall (fun r => 100 <= sensitivity r) (receptors nt) /\
  (if bool_decide (nt_id base = "adenosine")
   then currentLevel nt <= getLevel base h
   else getLevel base h <= currentLevel nt).

(** ** The active-substances list ([src/components/ActiveSubstances.tsx]) *)

Definition Math_floor (x : R) : R := IZR (Zfloor x).

(** The remainder operator [%] of JavaScript: the quotient is truncated
    towards zero, so the result has the sign of the dividend. *)
Definition JS_rem (x y : R) : R :=
  x - y * IZR (if Rltb (x / y) 0 then Zceil (x / y) else Zfloor (x / y)).

(** [Array.prototype.sort] with the comparator [b.timestamp - a.timestamp]:
    descending by timestamp and stable. *)
Fixpoint insertNewestFirst (x : SubstanceLog) (l : list SubstanceLog)
  : list SubstanceLog :=
  match l with
  | [] => [x]
  | y :: rest =>
      if Rgeb (timestamp x) (timestamp y) then x :: y :: rest
      else y :: insertNewestFirst x rest
  end.

Definition sortNewestFirst (l : list SubstanceLog) : list SubstanceLog :=
  foldr insertNewestFirst [] l.

(** The logs the component lists. *)
Definition activeLogsNewestFirst (substanceLogs : list SubstanceLog) (now : R)
  : list SubstanceLog :=
  sortNewestFirst (List.filter (fun l => Rgtb (expectedClearance l) now) substanceLogs).

(** [remainingMin], [remainingHrs] and [remainingMins] of one listed log. *)
Definition remainingMinOf (log : SubstanceLog) (now : R) : R :=
  Math_round ((expectedClearance log - now) / (60 * 1000)).

Definition remainingHrsOf (log : SubstanceLog) (now : R) : R :=
  Math_floor (remainingMinOf log now / 60).

Definition remainingMinsOf (log : SubstanceLog) (now : R) : R :=
  JS_rem (remainingMinOf log now) 60.

Definition laterOrSame (a b : SubstanceLog) : Prop := timestamp b <= timestamp a.

(** A status effect that is accounted for by a log of the history: an
    unexpired log of a catalog substance, at least 1% effective at [now], whose
    name and timestamp the effect carries, with the type of one of the
    substance's interactions and a magnitude in [0,100]. *)
Definition effectFromLog (now : R) (logs : list SubstanceLog) (e : StatusEffect)
  : Prop :=
  exists l s i,
    In l logs /\ expectedClearance l > now /\
    substanceMap !! substanceId l = Some s /\
    1 <= getEffectiveness l s now /\
    In i (receptorInteractions s) /\
    se_type e = ri_type i /\ se_source e = s_name s /\
    se_startTime e = timestamp l /\ 0 <= se_magnitude e <= 100.

Definition effectsFromLogs (now : R) (logs : list SubstanceLog)
    (nt : Neurotransmitter) : Prop :=
  Forall (fun r => Forall (effectFromLog now logs) (statusEffects r)) (receptors nt).

(** Case analysis on the boolean comparisons. *)
Ltac unfold_cmp := unfold Rltb, Rleb, Rgeb, Rgtb in *.
Ltac cmp := unfold_cmp; repeat case_bool_decide; simpl in *; try lra.

(** * Properties *)

(** ** Numbers *)

Lemma Rltb_true x y : x < y -> Rltb x y = true.
Proof. intros; cmp. Qed.
Lemma Rltb_false x y : y <= x -> Rltb x y = false.
Proof. intros; cmp. Qed.
Lemma Rleb_true x y : x <= y -> Rleb x y = true.
Proof. intros; cmp. Qed.
Lemma Rleb_false x y : y < x -> Rleb x y = false.
Proof. intros; cmp. Qed.
Lemma Rgtb_true x y : y < x -> Rgtb x y = true.
Proof. intros; cmp. Qed.
Lemma Rgtb_false x y : x <= y -> Rgtb x y = false.
Proof. intros; cmp. Qed.

Lemma Math_round_IZR (z : Z) : Math_round (IZR z) = IZR z.
Proof. unfold Math_round. f_equal. apply Zfloor_eq. lra. Qed.

Lemma Math_round_le x y : x <= y -> Math_round x <= Math_round y.
Proof. intros H. unfold Math_round. apply IZR_le, Zfloor_le. lra. Qed.

Lemma Math_round_bounds x : x - / 2 < Math_round x <= x + / 2.
Proof. unfold Math_round. pose proof (Zfloor_bound (x + / 2)). lra. Qed.

Lemma r1_le x y : x <= y -> r1 x <= r1 y.
Proof.
  intros H. unfold r1.
  assert (Math_round (x * 10) <= Math_round (y * 10)) by (apply Math_round_le; lra).
  lra.
Qed.

Lemma r1_tenths (z : Z) : r1 (IZR z / 10) = IZR z / 10.
Proof.
  unfold r1. replace (IZR z / 10 * 10) with (IZR z) by lra.
  now rewrite Math_round_IZR.
Qed.

(** ** The resolver clamps *)

Lemma clamp01_bounds t : 0 <= Rmax 0 (Rmin 1 t) <= 1.
Proof. unfold Rmax, Rmin; repeat destruct Rle_dec; lra. Qed.

Lemma lerp_bounds a b t : Rmin a b <= lerp a b t <= Rmax a b.
Proof.
  unfold lerp. pose proof (clamp01_bounds t) as Ht.
  set (c := Rmax 0 (Rmin 1 t)) in *.
  destruct (Rle_dec a b).
  - rewrite Rmin_left, Rmax_right by lra. nra.
  - rewrite Rmin_right, Rmax_left by lra. nra.
Qed.

Lemma lerp_low a b t : t <= 0 -> lerp a b t = a.
Proof.
  intros Ht. unfold lerp. rewrite Rmin_right by lra. rewrite Rmax_left by lra. lra.
Qed.

Lemma lerp_high a b t : 1 <= t -> lerp a b t = b.
Proof.
  intros Ht. unfold lerp. rewrite Rmin_left by lra. rewrite Rmax_right by lra. lra.
Qed.

Lemma lerp_inside a b t : 0 <= t <= 1 -> lerp a b t = extrapolate a b t.
Proof.
  intros Ht. unfold lerp, extrapolate.
  rewrite Rmin_right by lra. rewrite Rmax_right by lra. lra.
Qed.

Lemma div_pos_le0 x w : 0 < w -> x <= 0 -> x / w <= 0.
Proof. intros Hw Hx. unfold Rdiv. pose proof (Rinv_0_lt_compat w Hw). nra. Qed.

Lemma div_pos_ge1 x w : 0 < w -> w <= x -> 1 <= x / w.
Proof.
  intros Hw Hx. unfold Rdiv. pose proof (Rinv_0_lt_compat w Hw) as Hi.
  assert (w * / w = 1) by (apply Rinv_r; lra). nra.
Qed.

(** Clamping the dose to the anchor range before interpolating changes
    nothing: [lerp] clamps [t] itself. *)
Lemma lerp_clamped_dose a b lo hi w dose :
  0 < w -> hi - lo = w ->
  lerp a b ((Rmax lo (Rmin hi dose) - lo) / w) = lerp a b ((dose - lo) / w).
Proof.
  intros Hw Hhi.
  destruct (Rle_dec dose lo) as [Hlo|Hlo].
  - rewrite Rmin_right by lra. rewrite Rmax_left by lra.
    rewrite !lerp_low; [reflexivity| |]; apply div_pos_le0; lra.
  - destruct (Rle_dec hi dose) as [Hh|Hh].
    + rewrite Rmin_left by lra. rewrite Rmax_right by lra.
      rewrite !lerp_high; [reflexivity| |]; apply div_pos_ge1; lra.
    + rewrite Rmin_right by lra. rewrite Rmax_right by lra. reflexivity.
Qed.

(** C1 (as stated, refuted): at 750 mg of caffeine, outside the anchors
    50 mg and 400 mg, [t = 2]; the half-life does not extrapolate to 8.5 h but
    stays at the 400 mg anchor value 6.5 h, and no value of [lerp] ever lies
    strictly outside its two endpoints. *)
Lemma C1_lerp_clamps_counterexample :
  (750 - 50) / 350 = 2 /\
  extrapolate 4.5 6.5 2 = 8.5 /\
  lerp 4.5 6.5 ((750 - 50) / 350) = 6.5 /\
  halfLife (getDosePK Catalog.caffeine 750) = 6.5 /\
  ~ (exists a b t, lerp a b t < Rmin a b \/ Rmax a b < lerp a b t).
Proof.
  assert (Hl : lerp 4.5 6.5 ((750 - 50) / 350) = 6.5) by (apply lerp_high; lra).
  split; [lra|]. split; [unfold extrapolate; lra|]. split; [exact Hl|]. split.
  - simpl. rewrite Hl. unfold r1. replace (6.5 * 10) with 65 by lra.
    rewrite (Math_round_IZR 65). lra.
  - intros (a & b & t & H). pose proof (lerp_bounds a b t). lra.
Qed.

(** C1 (amended): the resolver clamps.  Every value of [lerp] lies between
    its endpoints, equals the low endpoint for [t <= 0], the high endpoint for
    [t >= 1] and the linear interpolation in between; and for every substance
    of the catalog the kinetics resolved at any dose are those resolved at the
    dose clamped to the substance's anchor range. *)
Theorem C1_resolver_clamps_to_anchors :
  forall s lo hi dose,
    In (s, (lo, hi)) calibration ->
    getDosePK s dose = getDosePK s (Rmax lo (Rmin hi dose)) /\
    (forall a b t,
        Rmin a b <= lerp a b t <= Rmax a b /\
        (t <= 0 -> lerp a b t = a) /\
        (1 <= t -> lerp a b t = b) /\
        (0 <= t <= 1 -> lerp a b t = extrapolate a b t)).
Proof.
  intros s lo hi dose Hin. split.
  - simpl in Hin.
    repeat (destruct Hin as [Hin|Hin]; [injection Hin as <- <- <-|]);
      try contradiction; simpl;
      repeat (rewrite (lerp_clamped_dose _ _ _ _ _ dose) by lra); reflexivity.
  - intros a b t. split; [apply lerp_bounds|].
    split; [apply lerp_low|]. split; [apply lerp_high|apply lerp_inside].
Qed.

Lemma C1_resolver_clamps_to_anchors_witness :
  In (Catalog.caffeine, (50, 400)) calibration /\
  getDosePK Catalog.caffeine 750 = getDosePK Catalog.caffeine (Rmax 50 (Rmin 400 750)).
Proof.
  assert (H : In (Catalog.caffeine, (50, 400)) calibration) by (simpl; auto).
  split; [exact H|].
  exact (proj1 (C1_resolver_clamps_to_anchors Catalog.caffeine 50 400 750 H)).
Defined.

(** ** Effectiveness: ramp, peak and decay *)

Lemma ln_half_neg : ln 0.5 < 0.
Proof. rewrite <- ln_1. apply ln_increasing; lra. Qed.

Lemma exp_le x y : x <= y -> exp x <= exp y.
Proof.
  intros [H| ->]; [left; now apply exp_increasing | apply Rle_refl].
Qed.

Lemma pow_half_antitone x y : x <= y -> Math_pow 0.5 y <= Math_pow 0.5 x.
Proof.
  intros H. unfold Math_pow, Rpower. apply exp_le.
  pose proof ln_half_neg. nra.
Qed.

Lemma pow_half_0 : Math_pow 0.5 0 = 1.
Proof. unfold Math_pow. apply Rpower_O. lra. Qed.

Lemma pow_half_range x : 0 <= x -> 0 < Math_pow 0.5 x <= 1.
Proof.
  intros H. split.
  - unfold Math_pow, Rpower. apply exp_pos.
  - rewrite <- pow_half_0. now apply pow_half_antitone.
Qed.

Lemma div_le_compat x y w : 0 < w -> x <= y -> x / w <= y / w.
Proof. intros Hw H. unfold Rdiv. pose proof (Rinv_0_lt_compat w Hw). nra. Qed.

Lemma div_nonneg x w : 0 < w -> 0 <= x -> 0 <= x / w.
Proof. intros Hw H. unfold Rdiv. pose proof (Rinv_0_lt_compat w Hw). nra. Qed.

Lemma div_self w : 0 < w -> w / w = 1.
Proof. intros Hw. unfold Rdiv. apply Rinv_r. lra. Qed.

(** The sine ramp [p |-> sin(PI/2 * min(p, 1))] on non-negative progress. *)
Lemma ramp_mono p q : 0 <= p -> p <= q ->
  sin ((PI / 2) * Rmin p 1) <= sin ((PI / 2) * Rmin q 1).
Proof.
  intros Hp Hpq. pose proof PI_RGT_0 as Hpi.
  assert (0 <= Rmin p 1 <= 1) by (unfold Rmin; destruct Rle_dec; lra).
  assert (0 <= Rmin q 1 <= 1) by (unfold Rmin; destruct Rle_dec; lra).
  assert (Rmin p 1 <= Rmin q 1) by (unfold Rmin; repeat destruct Rle_dec; lra).
  apply sin_incr_1; nra.
Qed.

Lemma ramp_range p : 0 <= p -> 0 <= sin ((PI / 2) * Rmin p 1) <= 1.
Proof.
  intros Hp. pose proof PI_RGT_0 as Hpi.
  assert (0 <= Rmin p 1 <= 1) by (unfold Rmin; destruct Rle_dec; lra).
  split; [apply sin_ge_0; nra | apply SIN_bound].
Qed.

Lemma ramp_full : sin ((PI / 2) * Rmin 1 1) = 1.
Proof. rewrite Rmin_left by lra. rewrite Rmult_1_r. apply sin_PI2. Qed.

Lemma ramp_zero : sin ((PI / 2) * Rmin 0 1) = 0.
Proof. rewrite Rmin_left by lra. rewrite Rmult_0_r. apply sin_0. Qed.

Section Effectiveness.

Variables (log : SubstanceLog) (substance : Substance).

#[local] Abbreviation pk := (getDosePK substance (dosage log)).
#[local] Abbreviation elapsed now := ((now - timestamp log) / (1000 * 60)).

Lemma eff_before now : now < timestamp log -> getEffectiveness log substance now = 0.
Proof.
  intros H. unfold getEffectiveness.
  rewrite Rltb_true; [reflexivity|].
  unfold Rdiv. assert (0 < / (1000 * 60)) by (apply Rinv_0_lt_compat; lra). nra.
Qed.

Lemma elapsed_nonneg now : timestamp log <= now -> 0 <= elapsed now.
Proof. intros H. apply div_nonneg; lra. Qed.

Lemma eff_ramp now :
  timestamp log <= now -> elapsed now <= peakTime pk -> 0 < peakTime pk ->
  getEffectiveness log substance now
  = sin ((PI / 2) * Rmin (elapsed now / peakTime pk) 1) * 100.
Proof.
  intros H0 H1 Hp. unfold getEffectiveness.
  rewrite Rltb_false by now apply elapsed_nonneg.
  rewrite Rleb_true by assumption. now rewrite Rgtb_true.
Qed.

Lemma eff_instant now :
  timestamp log <= now -> elapsed now <= peakTime pk -> peakTime pk <= 0 ->
  getEffectiveness log substance now = 100.
Proof.
  intros H0 H1 Hp. unfold getEffectiveness.
  rewrite Rltb_false by now apply elapsed_nonneg.
  rewrite Rleb_true by assumption. rewrite Rgtb_false by assumption.
  rewrite ramp_full. lra.
Qed.

Lemma eff_decay now :
  timestamp log <= now -> peakTime pk < elapsed now ->
  getEffectiveness log substance now
  = 100 * Math_pow 0.5 ((elapsed now - peakTime pk) / 60 / halfLife pk).
Proof.
  intros H0 H1. unfold getEffectiveness.
  rewrite Rltb_false by now apply elapsed_nonneg.
  rewrite Rleb_false by assumption. unfold calculateDecay.
  rewrite Rltb_false; [reflexivity|]. apply div_nonneg; lra.
Qed.

Lemma eff_range now :
  0 < halfLife pk -> 0 <= getEffectiveness log substance now <= 100.
Proof.
  intros Hh. destruct (Rlt_dec now (timestamp log)) as [Hb|Hb].
  { rewrite eff_before by assumption. lra. }
  assert (H0 : timestamp log <= now) by lra.
  pose proof (elapsed_nonneg now H0) as He.
  destruct (Rle_dec (elapsed now) (peakTime pk)) as [Hr|Hr].
  - destruct (Rlt_dec 0 (peakTime pk)) as [Hp|Hp].
    + rewrite eff_ramp by assumption.
      pose proof (ramp_range (elapsed now / peakTime pk)
                    (div_nonneg _ _ Hp He)). lra.
    + rewrite eff_instant by (assumption || lra). lra.
  - rewrite eff_decay by (assumption || lra).
    assert (0 <= (elapsed now - peakTime pk) / 60 / halfLife pk) as Hx.
    { apply div_nonneg; [assumption|]. apply div_nonneg; lra. }
    pose proof (pow_half_range _ Hx). lra.
Qed.

End Effectiveness.

(** Rounding keeps an interpolated value between its (already rounded)
    endpoints. *)
Lemma r1_lerp_range (a b : Z) t :
  (a <= b)%Z ->
  IZR a / 10 <= r1 (lerp (IZR a / 10) (IZR b / 10) t) <= IZR b / 10.
Proof.
  intros Hab. apply IZR_le in Hab.
  pose proof (lerp_bounds (IZR a / 10) (IZR b / 10) t) as Hl.
  rewrite Rmin_left, Rmax_right in Hl by lra.
  rewrite <- (r1_tenths a) at 1. rewrite <- (r1_tenths b) at 3.
  split; apply r1_le; lra.
Qed.

Lemma round_lerp_range (a b : Z) t :
  (a <= b)%Z -> IZR a <= Math_round (lerp (IZR a) (IZR b) t) <= IZR b.
Proof.
  intros Hab. apply IZR_le in Hab.
  pose proof (lerp_bounds (IZR a) (IZR b) t) as Hl.
  rewrite Rmin_left, Rmax_right in Hl by lra.
  rewrite <- (Math_round_IZR a) at 1. rewrite <- (Math_round_IZR b) at 3.
  split; apply Math_round_le; lra.
Qed.

Lemma caffeine_kinetics_range dose :
  4.5 <= halfLife (getDosePK Catalog.caffeine dose) <= 6.5 /\
  40 <= peakTime (getDosePK Catalog.caffeine dose) <= 50.
Proof.
  simpl. split.
  - pose proof (r1_lerp_range 45 65 ((dose - 50) / 350)) as H.
    replace (IZR 45 / 10) with 4.5 in H by lra.
    replace (IZR 65 / 10) with 6.5 in H by lra. apply H. lia.
  - apply (round_lerp_range 40 50). lia.
Qed.

(** C2 (as stated, refuted): a substance with half-life 2 h and peak time 0
    is fully effective at the very instant of its log, where the claim asks
    for 0 (as for every [now <= log.timestamp]). *)
Lemma C2_zero_at_log_time_counterexample :
  0 < halfLife (getDosePK instantOnset (dosage instantLog)) /\
  timestamp instantLog <= timestamp instantLog /\
  getEffectiveness instantLog instantOnset (timestamp instantLog) = 100 /\
  getEffectiveness instantLog instantOnset (timestamp instantLog) <> 0.
Proof.
  assert (H : getEffectiveness instantLog instantOnset (timestamp instantLog) = 100).
  { apply eff_instant; simpl; lra. }
  rewrite H. simpl. repeat split; lra.
Qed.

(** C2 (amended): for every log and substance whose kinetics resolved at the
    log's dose have halfLife > 0 and peakTime >= 0, effectiveness as a
    function of [now] is 0 for every [now < log.timestamp], and also at
    [now = log.timestamp] when peakTime > 0 (it is 100 there when
    peakTime = 0); it is non-decreasing on
    [log.timestamp, log.timestamp + peakTime], equals 100 at
    [log.timestamp + peakTime] (peak time in minutes, instants in ms), where
    the decay started at 0 hours past the peak is 100 as well; it is
    non-increasing for every later [now], and always within [0,100]. *)
Theorem C2_effectiveness_profile (log : SubstanceLog) (substance : Substance) :
  let pk := getDosePK substance (dosage log) in
  let t0 := timestamp log in
  let tpeak := t0 + peakTime pk * (1000 * 60) in
  let eff := getEffectiveness log substance in
  0 < halfLife pk -> 0 <= peakTime pk ->
  (forall now, now < t0 -> eff now = 0) /\
  (0 < peakTime pk -> eff t0 = 0) /\
  (peakTime pk = 0 -> eff t0 = 100) /\
  (forall a b, t0 <= a -> a <= b -> b <= tpeak -> eff a <= eff b) /\
  eff tpeak = 100 /\
  calculateDecay 100 (halfLife pk) 0 = 100 /\
  (forall a b, tpeak <= a -> a <= b -> eff b <= eff a) /\
  (forall now, 0 <= eff now <= 100).
Proof.
  intros pk t0 tpeak eff Hh Hp. subst eff tpeak t0.
  set (p := peakTime pk) in *. set (t0 := timestamp log) in *.
  assert (Hel : forall x, t0 <= x -> x <= t0 + p * (1000 * 60) ->
                          0 <= (x - t0) / (1000 * 60) <= p).
  { intros x H1 H2. split; [apply div_nonneg; lra|].
    apply Rle_trans with ((t0 + p * (1000 * 60) - t0) / (1000 * 60));
      [apply div_le_compat; lra | right; field]. }
  assert (Hatpeak : (t0 + p * (1000 * 60) - t0) / (1000 * 60) = p) by field.
  assert (Hat0 : (t0 - t0) / (1000 * 60) = 0) by field.
  assert (Hpeak : getEffectiveness log substance (t0 + p * (1000 * 60)) = 100).
  { destruct (Rlt_dec 0 p) as [Hpos|Hz].
    - rewrite eff_ramp; fold pk p t0; [|nra|lra|lra].
      rewrite Hatpeak, div_self by assumption. rewrite ramp_full. lra.
    - apply eff_instant; fold pk p t0; [nra|lra|lra]. }
  repeat split.
  - intros now Hnow. now apply eff_before.
  - intros Hpos. rewrite eff_ramp; fold pk p t0; [|lra|lra|lra].
    rewrite Hat0. replace (0 / p) with 0 by (unfold Rdiv; ring).
    rewrite ramp_zero. lra.
  - intros Hz. apply eff_instant; fold pk p t0; lra.
  - intros a b Ha Hab Hb.
    destruct (Hel a) as [Ha0 Ha1]; [lra|lra|].
    destruct (Hel b) as [Hb0 Hb1]; [lra|lra|].
    destruct (Rlt_dec 0 p) as [Hpos|Hz].
    + rewrite (eff_ramp log substance a), (eff_ramp log substance b);
        fold pk p t0; try lra.
      apply Rmult_le_compat_r; [lra|].
      apply ramp_mono; [now apply div_nonneg|].
      apply div_le_compat; [assumption|]. apply div_le_compat; lra.
    + rewrite (eff_instant log substance a), (eff_instant log substance b);
        fold pk p t0; lra.
  - exact Hpeak.
  - unfold calculateDecay. rewrite Rltb_false by lra.
    replace (0 / halfLife pk) with 0 by (unfold Rdiv; ring).
    rewrite pow_half_0. lra.
  - intros a b Ha Hab.
    destruct (Req_dec a (t0 + p * (1000 * 60))) as [->|Hne].
    { rewrite Hpeak. apply eff_range. exact Hh. }
    assert (Hea : p < (a - t0) / (1000 * 60)).
    { rewrite <- Hatpeak at 1.
      unfold Rdiv. assert (0 < / (1000 * 60)) by (apply Rinv_0_lt_compat; lra).
      nra. }
    assert (Heb : (a - t0) / (1000 * 60) <= (b - t0) / (1000 * 60))
      by (apply div_le_compat; lra).
    assert (t0 <= a) by nra.
    rewrite (eff_decay log substance a), (eff_decay log substance b);
      fold pk p t0; try lra.
    apply Rmult_le_compat_l; [lra|]. apply pow_half_antitone.
    apply div_le_compat; [assumption|]. apply div_le_compat; lra.
  - apply eff_range. exact Hh.
  - apply eff_range. exact Hh.
Qed.

Lemma C2_effectiveness_profile_witness :
  let log := logOf "c100" Catalog.caffeine 100 0 in
  0 < halfLife (getDosePK Catalog.caffeine (dosage log)) /\
  0 <= peakTime (getDosePK Catalog.caffeine (dosage log)) /\
  getEffectiveness log Catalog.caffeine
    (timestamp log + peakTime (getDosePK Catalog.caffeine (dosage log)) * (1000 * 60))
  = 100.
Proof.
  intros log.
  assert (Hh : 0 < halfLife (getDosePK Catalog.caffeine (dosage log))).
  { pose proof (caffeine_kinetics_range (dosage log)). lra. }
  assert (Hp : 0 <= peakTime (getDosePK Catalog.caffeine (dosage log))).
  { pose proof (caffeine_kinetics_range (dosage log)). lra. }
  split; [exact Hh|]. split; [exact Hp|].
  exact (proj1 (proj2 (proj2 (proj2 (proj2
           (C2_effectiveness_profile log Catalog.caffeine Hh Hp)))))).
Defined.

Lemma eff_at_peak (log : SubstanceLog) (substance : Substance) :
  0 <= peakTime (getDosePK substance (dosage log)) ->
  getEffectiveness log substance
    (timestamp log + peakTime (getDosePK substance (dosage log)) * (1000 * 60)) = 100.
Proof.
  intros Hp.
  set (p := peakTime (getDosePK substance (dosage log))) in *.
  set (t0 := timestamp log).
  assert (Hat : (t0 + p * (1000 * 60) - t0) / (1000 * 60) = p) by field.
  destruct (Rlt_dec 0 p) as [Hpos|Hz].
  - rewrite eff_ramp; fold p t0; [|nra|lra|lra].
    rewrite Hat, div_self by assumption. rewrite ramp_full. lra.
  - apply eff_instant; fold p t0; [nra|lra|lra].
Qed.

(** ** Receptor impact aggregation *)

Lemma scaledSum_snoc r eff l i :
  scaledSum r eff (l ++ [i])
  = if bool_decide (receptorId i = r)
    then scaledSum r eff l + magnitude i * eff / 100 else scaledSum r eff l.
Proof.
  unfold scaledSum. induction l as [|x l IH]; simpl.
  - case_bool_decide; lra.
  - rewrite IH. repeat case_bool_decide; lra.
Qed.

Lemma targets_snoc r l i :
  targets r (l ++ [i]) = targets r l || bool_decide (receptorId i = r).
Proof. unfold targets. rewrite existsb_app. simpl. now rewrite orb_false_r. Qed.

Lemma scaledSum_nonneg r eff l :
  Forall (fun i => 0 <= magnitude i) l -> 0 <= eff -> 0 <= scaledSum r eff l.
Proof.
  intros Hl He. induction Hl as [|x l Hx Hl IH]; simpl; [lra|].
  fold (scaledSum r eff l). case_bool_decide; [|assumption].
  assert (0 <= magnitude x * eff / 100) by (apply div_nonneg; nra). lra.
Qed.

Lemma scaledSum_untargeted r eff l : targets r l = false -> scaledSum r eff l = 0.
Proof.
  unfold targets, scaledSum. induction l as [|x l IH]; simpl; [reflexivity|].
  intros H. apply orb_false_iff in H as [Hx Hl]. rewrite Hx. auto.
Qed.

Lemma Rmin_cap_add s m : 0 <= m -> Rmin (Rmin s 100 + m) 100 = Rmin (s + m) 100.
Proof. intros Hm. unfold Rmin. repeat destruct Rle_dec; lra. Qed.

Lemma impact_sum_capped (ints : list ReceptorInteraction) (eff : R) (r : string) :
  Forall (fun i => 0 <= magnitude i) ints -> 0 <= eff ->
  calculateReceptorImpact ints eff !! r
  = if targets r ints then Some (Rmin (scaledSum r eff ints) 100) else None.
Proof.
  intros Hm He. unfold calculateReceptorImpact.
  induction ints as [|i l IH] using rev_ind.
  - simpl. apply lookup_empty.
  - apply Forall_app in Hm as [Hl Hi]. inversion_clear Hi as [|? ? Hi0 _].
    specialize (IH Hl).
    rewrite foldl_snoc, scaledSum_snoc, targets_snoc. unfold impactStep at 1.
    assert (Hs : 0 <= magnitude i * eff / 100) by (apply div_nonneg; nra).
    rewrite lookup_insert. destruct (decide (receptorId i = r)) as [->|Hne].
    + rewrite bool_decide_true by reflexivity. rewrite orb_true_r. f_equal.
      rewrite IH. destruct (targets r l) eqn:Ht; simpl.
      * now apply Rmin_cap_add.
      * now rewrite (scaledSum_untargeted r eff l Ht).
    + rewrite bool_decide_false by assumption. rewrite orb_false_r. exact IH.
Qed.

Lemma single_impact r nt ty m eff :
  calculateReceptorImpact [mkRI r nt ty m] eff = {[ r := Rmin (0 + m * eff / 100) 100 ]}.
Proof.
  unfold calculateReceptorImpact, impactStep. simpl.
  rewrite lookup_empty. simpl. apply insert_empty.
Qed.

Section OneAgonist.

Variables (s : Substance) (log : SubstanceLog) (r ntid : string) (m v : R).
Hypothesis Hints : receptorInteractions s = [mkRI r ntid agonist m].

#[local] Abbreviation eff1 :=
  {| se_type := agonist; se_source := s_name s;
     se_magnitude := v; se_startTime := timestamp log |}.

Lemma applyToReceptor_miss lvl st rec :
  r_id rec <> r -> applyToReceptor s log {[ r := v ]} lvl st rec = (lvl, st, rec).
Proof.
  intros Hne. unfold applyToReceptor.
  rewrite lookup_singleton_ne by congruence. reflexivity.
Qed.

Lemma applyToReceptor_hit lvl st rec :
  r_id rec = r ->
  applyToReceptor s log {[ r := v ]} lvl st rec
  = (Rmin (lvl + v * 0.3) 100, enhanced, pushEffect r eff1 rec).
Proof.
  intros He. unfold applyToReceptor, pushEffect.
  rewrite He, lookup_singleton_eq, Hints. simpl.
  rewrite !bool_decide_true by reflexivity. reflexivity.
Qed.

Lemma pushEffect_miss e rs :
  ~ In r (map r_id rs) -> map (pushEffect r e) rs = rs.
Proof.
  induction rs as [|x rs IH]; simpl; [reflexivity|].
  intros Hn. rewrite IH by tauto. unfold pushEffect.
  rewrite bool_decide_false by tauto. reflexivity.
Qed.

Lemma applyToReceptors_miss lvl st rs :
  ~ In r (map r_id rs) -> applyToReceptors s log {[ r := v ]} lvl st rs = (lvl, st, rs).
Proof.
  revert lvl st. induction rs as [|x rs IH]; intros lvl st Hn; simpl; [reflexivity|].
  simpl in Hn. rewrite applyToReceptor_miss by tauto.
  rewrite IH by tauto. reflexivity.
Qed.

Lemma applyToReceptors_hit lvl st rs :
  NoDup (map r_id rs) -> In r (map r_id rs) ->
  applyToReceptors s log {[ r := v ]} lvl st rs
  = (Rmin (lvl + v * 0.3) 100, enhanced, map (pushEffect r eff1) rs).
Proof.
  revert lvl st. induction rs as [|x rs IH]; intros lvl st Hnd Hin; simpl in *;
    [contradiction|].
  apply NoDup_cons in Hnd as [Hx Hnd]. rewrite list_elem_of_In in Hx.
  destruct (decide (r_id x = r)) as [He|Hne].
  - rewrite applyToReceptor_hit by assumption.
    rewrite applyToReceptors_miss by (rewrite <- He; exact Hx).
    rewrite pushEffect_miss by (rewrite <- He; exact Hx). reflexivity.
  - rewrite applyToReceptor_miss by assumption.
    destruct Hin as [Hin|Hin]; [contradiction|].
    rewrite IH by assumption.
    unfold pushEffect at 2. rewrite bool_decide_false by assumption. reflexivity.
Qed.

Lemma pushEffect_ids e rs : map r_id (map (pushEffect r e) rs) = map r_id rs.
Proof.
  induction rs as [|x rs IH]; simpl; [reflexivity|]. rewrite IH. f_equal.
  unfold pushEffect. now case_bool_decide.
Qed.

Lemma applyToNT_hit nt :
  NoDup (map r_id (receptors nt)) -> In r (map r_id (receptors nt)) ->
  applyToNT s log {[ r := v ]} nt
  = {| nt_id := nt_id nt; nt_name := nt_name nt; abbreviation := abbreviation nt;
       baselineLevel := baselineLevel nt;
       currentLevel := Rmin (currentLevel nt + v * 0.3) 100;
       status := enhanced;
       receptors := map (pushEffect r eff1) (receptors nt);
       getLevel := getLevel nt |}.
Proof.
  intros Hnd Hin. unfold applyToNT.
  rewrite applyToReceptors_hit by assumption. reflexivity.
Qed.

End OneAgonist.

Lemma freshNT_ids hour base :
  map r_id (receptors (freshNT hour base)) = map r_id (receptors base).
Proof. simpl. rewrite map_map. reflexivity. Qed.

Lemma Rmin_twice c x y :
  0 <= x -> 0 <= y -> Rmin (Rmin (c + x) 100 + y) 100 = Rmin (c + (x + y)) 100.
Proof. intros Hx Hy. unfold Rmin. repeat destruct Rle_dec; lra. Qed.

(** Two substances with a single agonist interaction each on the same
    receptor, both applied to one neurotransmitter that owns it. *)
Lemma two_agonists_on_owner s1 s2 l1 l2 r nt1 nt2 m1 m2 hour base :
  receptorInteractions s1 = [mkRI r nt1 agonist m1] ->
  receptorInteractions s2 = [mkRI r nt2 agonist m2] ->
  0 <= m1 -> 0 <= m2 ->
  NoDup (map r_id (receptors base)) -> In r (map r_id (receptors base)) ->
  let nt := applyToNT s2 l2 {[ r := m2 ]}
              (applyToNT s1 l1 {[ r := m1 ]} (freshNT hour base)) in
  currentLevel nt = Rmin (getLevel base hour + (m1 + m2) * 0.3) 100 /\
  status nt = enhanced /\
  Forall (fun rec =>
            r_id rec = r ->
            statusEffects rec
            = [ {| se_type := agonist; se_source := s_name s1;
                   se_magnitude := m1; se_startTime := timestamp l1 |};
                {| se_type := agonist; se_source := s_name s2;
                   se_magnitude := m2; se_startTime := timestamp l2 |} ])
         (receptors nt) /\
  map r_id (receptors nt) = map r_id (receptors base).
Proof.
  intros H1 H2 Hm1 Hm2 Hnd Hin nt. subst nt.
  rewrite (applyToNT_hit s1 l1 r nt1 m1 m1 H1 (freshNT hour base))
    by (rewrite freshNT_ids; assumption).
  rewrite (applyToNT_hit s2 l2 r nt2 m2 m2 H2)
    by (cbn [receptors]; rewrite pushEffect_ids, freshNT_ids; assumption).
  cbn [currentLevel status receptors getLevel].
  split; [|split; [reflexivity|split]].
  - change (currentLevel (freshNT hour base)) with (getLevel base hour).
    rewrite Rmin_twice by lra. f_equal. lra.
  - unfold freshNT; cbn [receptors]. rewrite !Forall_map.
    apply Forall_forall. intros rec _.
    unfold pushEffect. cbn [r_id statusEffects].
    repeat (case_bool_decide; cbn [r_id statusEffects] in *);
      intros He; try contradiction; reflexivity.
  - rewrite !pushEffect_ids. apply freshNT_ids.
Qed.

Lemma full_single_impact r nt ty m :
  0 <= m <= 100 -> calculateReceptorImpact [mkRI r nt ty m] 100 = {[ r := m ]}.
Proof.
  intros Hm. rewrite single_impact. f_equal.
  rewrite Rmin_left by lra. lra.
Qed.

Lemma applyLog_full catalog now updated l s r nt ty m :
  catalog !! substanceId l = Some s ->
  receptorInteractions s = [mkRI r nt ty m] -> 0 <= m <= 100 ->
  getEffectiveness l s now = 100 ->
  applyLog catalog now updated l = map (applyToNT s l {[ r := m ]}) updated.
Proof.
  intros Hl Hi Hm He. unfold applyLog. rewrite Hl, He, Hi.
  rewrite Rltb_false by lra. now rewrite full_single_impact.
Qed.

(** C3: (1) for one substance, with non-negative magnitudes and effectiveness,
    the impact recorded for a receptor is the sum of that substance's
    magnitudes on the receptor, each scaled by effectivenessPercent/100,
    capped at 100 (and no entry when no interaction targets the receptor);
    (2) there is no joint cap across substances: when two different fully
    effective substances each have one agonist interaction on the same
    receptor, of magnitudes [m1] and [m2] (each within [0,100]), then in the
    snapshot of their two logs every neurotransmitter owning that receptor
    has currentLevel [min(circadian(hour) + (m1+m2)*0.3, 100)], and the
    receptor's status-effect list has exactly two entries, one per substance,
    carrying [m1] and [m2] uncapped.  For magnitudes 40 and 30 the level is
    [min(circadian(hour) + 21, 100)] with [21 = (40+30)*0.3]; and whenever
    [m1 + m2] exceeds 100 (as for 80 and 70) the level is strictly above what
    a joint cap of 100 would give, as long as that is below the clamp. *)
Theorem C3_impact_sum_capped_per_substance_only
    (ints : list ReceptorInteraction) (eff : R) (r' : string)
    (catalog : gmap string Substance) (baseNTs : list Neurotransmitter)
    (now hour : R) (s1 s2 : Substance) (l1 l2 : SubstanceLog)
    (r nt1 nt2 : string) (m1 m2 : R) :
  Forall (fun i => 0 <= magnitude i) ints -> 0 <= eff ->
  s_id s1 <> s_id s2 ->
  catalog !! substanceId l1 = Some s1 ->
  catalog !! substanceId l2 = Some s2 ->
  receptorInteractions s1 = [mkRI r nt1 agonist m1] ->
  receptorInteractions s2 = [mkRI r nt2 agonist m2] ->
  0 <= m1 <= 100 -> 0 <= m2 <= 100 ->
  expectedClearance l1 > now -> expectedClearance l2 > now ->
  getEffectiveness l1 s1 now = 100 ->
  getEffectiveness l2 s2 now = 100 ->
  calculateReceptorImpact ints eff !! r'
    = (if targets r' ints then Some (Rmin (scaledSum r' eff ints) 100) else None) /\
  (40 + 30) * 0.3 = 21 /\
  Forall2
    (fun base nt =>
       NoDup (map r_id (receptors base)) -> In r (map r_id (receptors base)) ->
       currentLevel nt = Rmin (getLevel base hour + (m1 + m2) * 0.3) 100 /\
       (m1 = 40 -> m2 = 30 -> currentLevel nt = Rmin (getLevel base hour + 21) 100) /\
       (100 < m1 + m2 -> getLevel base hour + 30 < 100 ->
        jointlyCapped (getLevel base hour) m1 m2 = getLevel base hour + 30 /\
        jointlyCapped (getLevel base hour) m1 m2 < currentLevel nt) /\
       Forall (fun rec => r_id rec = r -> statusEffects rec = twoEffects s1 s2 l1 l2 m1 m2)
              (receptors nt) /\
       map r_id (receptors nt) = map r_id (receptors base))
    baseNTs (recomputeWith catalog baseNTs now hour [l1; l2]).
Proof.
  intros Hm He _ Hl1 Hl2 Hi1 Hi2 Hm1 Hm2 Ha1 Ha2 He1 He2.
  split; [now apply impact_sum_capped|]. split; [lra|].
  unfold recomputeWith. simpl List.filter.
  rewrite !Rgtb_true by lra. simpl foldl.
  rewrite (applyLog_full catalog now _ l1 s1 r nt1 agonist m1) by assumption.
  rewrite (applyLog_full catalog now _ l2 s2 r nt2 agonist m2) by assumption.
  rewrite !map_map.
  induction baseNTs as [|base rest IH]; simpl; constructor; [|exact IH].
  intros Hnd Hin.
  destruct (two_agonists_on_owner s1 s2 l1 l2 r nt1 nt2 m1 m2 hour base)
    as (Hlvl & _ & Heff & Hids); try assumption; try lra.
  split; [exact Hlvl|]. split; [|split; [|split; assumption]].
  - intros -> ->. rewrite Hlvl. f_equal. lra.
  - intros Hsum Hroom. unfold jointlyCapped. rewrite Hlvl.
    rewrite (Rmin_right (m1 + m2) 100) by lra.
    rewrite (Rmin_left (getLevel base hour + 100 * 0.3) 100) by lra.
    split; [lra|]. apply Rmin_glb_lt; lra.
Qed.

Lemma C3_impact_sum_capped_per_substance_only_witness :
  let la := logOf "la" subA 1 0 in
  let lb := logOf "lb" subB 1 0 in
  let lc := logOf "lc" strongA 1 0 in
  let ld := logOf "ld" strongB 1 0 in
  let now := 0 + 30 * (1000 * 60) in
  (getEffectiveness la subA now = 100 /\ getEffectiveness lb subB now = 100 /\
   getEffectiveness lc strongA now = 100 /\ getEffectiveness ld strongB now = 100) /\
  Forall2
    (fun base nt =>
       NoDup (map r_id (receptors base)) -> In "d1" (map r_id (receptors base)) ->
       currentLevel nt = Rmin (getLevel base 12 + (40 + 30) * 0.3) 100 /\
       (40 = 40 -> 30 = 30 -> currentLevel nt = Rmin (getLevel base 12 + 21) 100) /\
       (100 < 40 + 30 -> getLevel base 12 + 30 < 100 ->
        jointlyCapped (getLevel base 12) 40 30 = getLevel base 12 + 30 /\
        jointlyCapped (getLevel base 12) 40 30 < currentLevel nt) /\
       Forall (fun rec => r_id rec = "d1" ->
                          statusEffects rec = twoEffects subA subB la lb 40 30)
              (receptors nt) /\
       map r_id (receptors nt) = map r_id (receptors base))
    defaultNeurotransmitters
    (recomputeWith twoAgonists defaultNeurotransmitters now 12 [la; lb]) /\
  Forall2
    (fun base nt =>
       NoDup (map r_id (receptors base)) -> In "d1" (map r_id (receptors base)) ->
       currentLevel nt = Rmin (getLevel base 20 + (80 + 70) * 0.3) 100 /\
       (80 = 40 -> 70 = 30 -> currentLevel nt = Rmin (getLevel base 20 + 21) 100) /\
       (100 < 80 + 70 -> getLevel base 20 + 30 < 100 ->
        jointlyCapped (getLevel base 20) 80 70 = getLevel base 20 + 30 /\
        jointlyCapped (getLevel base 20) 80 70 < currentLevel nt) /\
       Forall (fun rec => r_id rec = "d1" ->
                          statusEffects rec = twoEffects strongA strongB lc ld 80 70)
              (receptors nt) /\
       map r_id (receptors nt) = map r_id (receptors base))
    defaultNeurotransmitters
    (recomputeWith twoStrongAgonists defaultNeurotransmitters now 20 [lc; ld]).
Proof.
  intros la lb lc ld now.
  assert (Hm : Forall (fun i => 0 <= magnitude i) (receptorInteractions Catalog.caffeine)).
  { repeat constructor; simpl; lra. }
  assert (He : 0 <= 100) by lra.
  assert (Hne : s_id subA <> s_id subB) by (simpl; discriminate).
  assert (Hne' : s_id strongA <> s_id strongB) by (simpl; discriminate).
  assert (Hl1 : twoAgonists !! substanceId la = Some subA).
  { unfold twoAgonists, mkSubstanceMap. simpl.
    rewrite lookup_insert_ne by discriminate. apply lookup_insert_eq. }
  assert (Hl2 : twoAgonists !! substanceId lb = Some subB).
  { unfold twoAgonists, mkSubstanceMap. simpl. apply lookup_insert_eq. }
  assert (Hl3 : twoStrongAgonists !! substanceId lc = Some strongA).
  { unfold twoStrongAgonists, mkSubstanceMap. simpl.
    rewrite lookup_insert_ne by discriminate. apply lookup_insert_eq. }
  assert (Hl4 : twoStrongAgonists !! substanceId ld = Some strongB).
  { unfold twoStrongAgonists, mkSubstanceMap. simpl. apply lookup_insert_eq. }
  assert (Ha : forall id s, expectedClearance (logOf id (agonistOn (s_id s) "d1" 0) 1 0) > now).
  { intros id s. unfold now. simpl. unfold calculateClearanceTime. simpl. lra. }
  assert (Ha1 : expectedClearance la > now) by exact (Ha "la" subA).
  assert (Ha2 : expectedClearance lb > now) by exact (Ha "lb" subB).
  assert (Ha3 : expectedClearance lc > now) by exact (Ha "lc" strongA).
  assert (Ha4 : expectedClearance ld > now) by exact (Ha "ld" strongB).
  assert (He1 : getEffectiveness la subA now = 100).
  { apply (eff_at_peak la subA). simpl. lra. }
  assert (He2 : getEffectiveness lb subB now = 100).
  { apply (eff_at_peak lb subB). simpl. lra. }
  assert (He3 : getEffectiveness lc strongA now = 100).
  { apply (eff_at_peak lc strongA). simpl. lra. }
  assert (He4 : getEffectiveness ld strongB now = 100).
  { apply (eff_at_peak ld strongB). simpl. lra. }
  assert (R40 : 0 <= 40 <= 100) by lra. assert (R30 : 0 <= 30 <= 100) by lra.
  assert (R80 : 0 <= 80 <= 100) by lra. assert (R70 : 0 <= 70 <= 100) by lra.
  split; [tauto|]. split.
  - exact (proj2 (proj2
      (C3_impact_sum_capped_per_substance_only
         (receptorInteractions Catalog.caffeine) 100 "a1"
         twoAgonists defaultNeurotransmitters now 12 subA subB la lb
         "d1" "dopamine" "dopamine" 40 30
         Hm He Hne Hl1 Hl2 eq_refl eq_refl R40 R30 Ha1 Ha2 He1 He2))).
  - exact (proj2 (proj2
      (C3_impact_sum_capped_per_substance_only
         (receptorInteractions Catalog.caffeine) 100 "a1"
         twoStrongAgonists defaultNeurotransmitters now 20 strongA strongB lc ld
         "d1" "dopamine" "dopamine" 80 70
         Hm He Hne' Hl3 Hl4 eq_refl eq_refl R80 R70 Ha3 Ha4 He3 He4))).
Defined.

(** ** The snapshot is a function of the clock and the log list *)

Lemma sameExcept_refl N R E h : sameExcept N R E h h.
Proof. repeat split; reflexivity. Qed.

Lemma sameExcept_trans N R E h1 h2 h3 :
  sameExcept N R E h1 h2 -> sameExcept N R E h2 h3 -> sameExcept N R E h1 h3.
Proof.
  intros (A1 & B1 & C1 & D1 & E1) (A2 & B2 & C2 & D2 & E2).
  repeat split; try congruence.
  - intros l Hl. rewrite A2, A1 by assumption. reflexivity.
  - intros l Hl. rewrite B2, B1 by assumption. reflexivity.
  - intros l Hl. rewrite C2, C1 by assumption. reflexivity.
Qed.

Lemma sameExcept_weaken N R E N' R' E' h h' :
  N ⊆ N' -> R ⊆ R' -> E ⊆ E' -> sameExcept N R E h h' -> sameExcept N' R' E' h h'.
Proof.
  intros HN HR HE (A & B & C & D & F).
  repeat split; try assumption; intros l Hl; [apply A|apply B|apply C];
    intros Hin; apply Hl; auto.
Qed.

Lemma holdsRec_same N R E h h' p rec :
  sameExcept N R E h h' -> p.1 ∉ R -> p.2 ∉ E -> holdsRec h p rec -> holdsRec h' p rec.
Proof.
  intros (_ & B & C & _ & _) H1 H2 [Hr He]. split.
  - rewrite B by assumption. exact Hr.
  - rewrite C by assumption. exact He.
Qed.

Lemma holds_same N R E h h' sh nt :
  sameExcept N R E h h' ->
  sh_nt sh ∉ N ->
  (forall r, r ∈ map fst (sh_recs sh) -> r ∉ R) ->
  (forall e, e ∈ map snd (sh_recs sh) -> e ∉ E) ->
  holds h sh nt -> holds h' sh nt.
Proof.
  intros Hs Hn Hr He (H1 & H2 & H3 & H4).
  pose proof Hs as (A & B & C & D & F).
  split; [|split; [|split]].
  - rewrite A by assumption. exact H1.
  - rewrite F. exact H2.
  - rewrite D. exact H3.
  - clear H1 H3. induction H4 as [|p rec ps recs Hp _ IH]; constructor.
    + apply (holdsRec_same N R E h); try assumption.
      * apply Hr. simpl. left.
      * apply He. simpl. left.
    + apply IH.
      * intros r Hin. apply Hr. simpl. now right.
      * intros e Hin. apply He. simpl. now right.
Qed.

(** Assignments and [push] on an object that exists. *)
Lemma writeNT_Some l f h o :
  Heap.ntObjs h !! l = Some o ->
  Heap.writeNT l f h = Some (Heap.withNTObjs h (<[ l := f o ]> (Heap.ntObjs h))).
Proof. intros H. unfold Heap.writeNT. rewrite H. reflexivity. Qed.

Lemma writeReceptor_Some l f h o :
  Heap.receptorObjs h !! l = Some o ->
  Heap.writeReceptor l f h
  = Some (Heap.withReceptorObjs h (<[ l := f o ]> (Heap.receptorObjs h))).
Proof. intros H. unfold Heap.writeReceptor. rewrite H. reflexivity. Qed.

Lemma push_Some l e h es :
  Heap.effectArrays h !! l = Some es ->
  Heap.push l e h
  = Some (Heap.withEffectArrays h (<[ l := es ++ [e] ]> (Heap.effectArrays h))).
Proof. intros H. unfold Heap.push. rewrite H. reflexivity. Qed.

Lemma lookup_insert_same {A} (l : list A) (i : nat) (x y : A) :
  l !! i = Some y -> <[ i := x ]> l !! i = Some x.
Proof. intros H. apply list_lookup_insert_eq. now apply lookup_lt_Some in H. Qed.

Lemma setLevelStatus_id o :
  Heap.setLevelStatus (Heap.o_currentLevel o) (Heap.o_status o) o = o.
Proof. now destruct o. Qed.

Lemma not_elem_of_singleton {A} (x y : A) : x ∉ [y] -> y <> x.
Proof. intros H ->. apply H. left. Qed.

(** The frame of a heap whose stores were updated at one index each. *)
Lemma sameExcept_writes n r e h ns rs es :
  (forall l, l <> n -> ns !! l = Heap.ntObjs h !! l) ->
  (forall l, l <> r -> rs !! l = Heap.receptorObjs h !! l) ->
  (forall l, l <> e -> es !! l = Heap.effectArrays h !! l) ->
  sameExcept [n] [r] [e] h
    {| Heap.ntObjs := ns; Heap.receptorObjs := rs; Heap.effectArrays := es;
       Heap.refArrays := Heap.refArrays h; Heap.rhythms := Heap.rhythms h |}.
Proof.
  intros A B C. repeat split; simpl; intros l Hl;
    [apply A|apply B|apply C]; intros ->; apply Hl; left.
Qed.

Lemma applyToReceptorH_spec substance log impacts n o p rec h :
  Heap.ntObjs h !! n = Some o ->
  holdsRec h p rec ->
  exists h',
    Heap.applyToReceptor substance log impacts n p.1 h = Some h' /\
    Heap.ntObjs h' !! n
    = Some (Heap.setLevelStatus
              (applyToReceptor substance log impacts
                 (Heap.o_currentLevel o) (Heap.o_status o) rec).1.1
              (applyToReceptor substance log impacts
                 (Heap.o_currentLevel o) (Heap.o_status o) rec).1.2 o) /\
    holdsRec h' p
      (applyToReceptor substance log impacts
         (Heap.o_currentLevel o) (Heap.o_status o) rec).2 /\
    sameExcept [n] [p.1] [p.2] h h'.
Proof.
  intros Hn [Hr He]. unfold Heap.applyToReceptor, applyToReceptor.
  rewrite Hr. cbn [Heap.ro_id receptorObjOf mbind option_bind].
  destruct (impacts !! r_id rec) as [impact|].
  2:{ exists h. cbn. rewrite setLevelStatus_id.
      repeat split; try assumption; apply sameExcept_refl. }
  destruct (List.find _ _) as [interaction|].
  2:{ exists h. cbn. rewrite setLevelStatus_id.
      repeat split; try assumption; apply sameExcept_refl. }
  cbn [Heap.ro_statusEffects receptorObjOf].
  rewrite (push_Some _ _ _ _ He). cbn [mbind option_bind].
  destruct (ri_type interaction);
    try (erewrite writeReceptor_Some by (cbn; exact Hr); cbn [mbind option_bind]);
    (erewrite writeNT_Some by (cbn; exact Hn));
    eexists; (split; [reflexivity|]);
    unfold Heap.withNTObjs, Heap.withReceptorObjs, Heap.withEffectArrays; cbn;
    (split; [rewrite (lookup_insert_same _ _ _ _ Hn);
              first [reflexivity | destruct (Heap.o_status o); reflexivity]|]);
    (split; [|frame_writes sameExcept_writes]);
    (split; cbn;
      [first [rewrite (lookup_insert_same _ _ _ _ Hr); reflexivity | exact Hr]
      |rewrite (lookup_insert_same _ _ _ _ He); reflexivity]).
Qed.

Lemma applyToReceptors_cons substance log impacts lvl st r rest :
  applyToReceptors substance log impacts lvl st (r :: rest)
  = let a := applyToReceptor substance log impacts lvl st r in
    let b := applyToReceptors substance log impacts a.1.1 a.1.2 rest in
    (b.1.1, b.1.2, a.2 :: b.2).
Proof.
  simpl. destruct (applyToReceptor _ _ _ _ _ _) as [[lvl1 st1] r'].
  simpl. destruct (applyToReceptors _ _ _ _ _ _) as [[lvl2 st2] rest']. reflexivity.
Qed.

Lemma forEachReceptor_spec substance log impacts n ps recs :
  forall h o,
    NoDup (map fst ps) -> NoDup (map snd ps) ->
    Heap.ntObjs h !! n = Some o ->
    Forall2 (holdsRec h) ps recs ->
    exists h',
      Heap.forEachReceptor substance log impacts n (map fst ps) h = Some h' /\
      Heap.ntObjs h' !! n
      = Some (Heap.setLevelStatus
                (applyToReceptors substance log impacts
                   (Heap.o_currentLevel o) (Heap.o_status o) recs).1.1
                (applyToReceptors substance log impacts
                   (Heap.o_currentLevel o) (Heap.o_status o) recs).1.2 o) /\
      Forall2 (holdsRec h') ps
        (applyToReceptors substance log impacts
           (Heap.o_currentLevel o) (Heap.o_status o) recs).2 /\
      sameExcept [n] (map fst ps) (map snd ps) h h'.
Proof.
  revert recs. induction ps as [|p ps IH]; intros recs h o Hnd1 Hnd2 Hn Hall.
  - apply Forall2_nil_inv_l in Hall as ->. exists h. simpl.
    rewrite setLevelStatus_id. repeat split; try assumption; try constructor.
  - apply Forall2_cons_inv_l in Hall as (rec & recs' & Hp & Hall & ->).
    simpl in Hnd1, Hnd2.
    apply NoDup_cons in Hnd1 as [Hp1 Hnd1]. apply NoDup_cons in Hnd2 as [Hp2 Hnd2].
    destruct (applyToReceptorH_spec substance log impacts n o p rec h Hn Hp)
      as (h1 & Hrun1 & Hn1 & Hp' & Hsame1).
    set (a := applyToReceptor substance log impacts
                (Heap.o_currentLevel o) (Heap.o_status o) rec) in *.
    assert (Hall1 : Forall2 (holdsRec h1) ps recs').
    { clear IH. revert Hp1 Hp2. clear -Hall Hsame1.
      induction Hall as [|q rec' qs recs'' Hq _ IH]; intros Hp1 Hp2; constructor.
      - apply (holdsRec_same [n] [p.1] [p.2] h); try assumption.
        + intros Hin. apply list_elem_of_singleton in Hin. apply Hp1. rewrite <- Hin. left.
        + intros Hin. apply list_elem_of_singleton in Hin. apply Hp2. rewrite <- Hin. left.
      - apply IH; intros Hin; [apply Hp1|apply Hp2]; simpl; now right. }
    destruct (IH recs' h1 _ Hnd1 Hnd2 Hn1 Hall1) as (h' & Hrun & Hn' & Hall' & Hsame).
    cbn [Heap.setLevelStatus Heap.o_currentLevel Heap.o_status] in Hrun, Hn', Hall', Hsame.
    exists h'. rewrite applyToReceptors_cons. cbn zeta. fold a.
    cbn [fst snd map Heap.forEachReceptor]. rewrite Hrun1. cbn [mbind option_bind].
    split; [exact Hrun|]. split; [exact Hn'|]. split.
    + constructor; [|exact Hall'].
      apply (holdsRec_same [n] (map fst ps) (map snd ps) h1); assumption.
    + apply (sameExcept_trans _ _ _ h h1 h').
      * apply (sameExcept_weaken [n] [p.1] [p.2]); try assumption; try reflexivity.
        -- intros x Hx. apply list_elem_of_singleton in Hx as ->. left.
        -- intros x Hx. apply list_elem_of_singleton in Hx as ->. left.
      * apply (sameExcept_weaken [n] (map fst ps) (map snd ps)); try assumption;
          try reflexivity; intros x Hx; now right.
Qed.

Lemma applyToNTH_spec substance log impacts sh nt h :
  NoDup (map fst (sh_recs sh)) -> NoDup (map snd (sh_recs sh)) ->
  holds h sh nt ->
  exists h',
    Heap.applyToNT substance log impacts (sh_nt sh) h = Some h' /\
    holds h' sh (applyToNT substance log impacts nt) /\
    sameExcept [sh_nt sh] (map fst (sh_recs sh)) (map snd (sh_recs sh)) h h'.
Proof.
  intros Hnd1 Hnd2 (Hn & Hc & Ha & Hrecs).
  destruct (forEachReceptor_spec substance log impacts (sh_nt sh) (sh_recs sh)
              (receptors nt) h _ Hnd1 Hnd2 Hn Hrecs) as (h' & Hrun & Hn' & Hrecs' & Hsame).
  cbn [ntObjOf Heap.o_currentLevel Heap.o_status] in Hrun, Hn', Hrecs'.
  exists h'. split; [|split; [|exact Hsame]].
  - unfold Heap.applyToNT. rewrite Hn. cbn [mbind option_bind ntObjOf Heap.o_receptors].
    rewrite Ha. exact Hrun.
  - pose proof Hsame as (_ & _ & _ & HA & HC).
    unfold applyToNT.
    destruct (applyToReceptors substance log impacts (currentLevel nt) (status nt)
                (receptors nt)) as [[lvl st] rs] eqn:Hres.
    split; [|split; [|split]].
    + exact Hn'.
    + rewrite HC. exact Hc.
    + rewrite HA. exact Ha.
    + exact Hrecs'.
Qed.

Lemma holds_all_same N R E h h' shapes nts :
  sameExcept N R E h h' ->
  (forall x, x ∈ map sh_nt shapes -> x ∉ N) ->
  (forall x, x ∈ receptorLocs shapes -> x ∉ R) ->
  (forall x, x ∈ effectLocs shapes -> x ∉ E) ->
  Forall2 (holds h) shapes nts -> Forall2 (holds h') shapes nts.
Proof.
  intros Hs HN HR HE Hall.
  induction Hall as [|sh nt shapes nts Hsh _ IH]; constructor.
  - apply (holds_same N R E h); try assumption.
    + apply HN. left.
    + intros r Hr. apply HR. unfold receptorLocs. simpl. apply elem_of_app. now left.
    + intros e He. apply HE. unfold effectLocs. simpl. apply elem_of_app. now left.
  - apply IH.
    + intros x Hx. apply HN. now right.
    + intros x Hx. apply HR. unfold receptorLocs. simpl. apply elem_of_app. now right.
    + intros x Hx. apply HE. unfold effectLocs. simpl. apply elem_of_app. now right.
Qed.

Lemma separate_cons sh shapes :
  separate (sh :: shapes) ->
  NoDup (map fst (sh_recs sh)) /\ NoDup (map snd (sh_recs sh)) /\
  (sh_nt sh ∉ map sh_nt shapes) /\
  (forall x, x ∈ map fst (sh_recs sh) -> x ∉ receptorLocs shapes) /\
  (forall x, x ∈ map snd (sh_recs sh) -> x ∉ effectLocs shapes) /\
  separate shapes.
Proof.
  intros (H1 & H2 & H3). unfold receptorLocs, effectLocs in *. simpl in *.
  apply NoDup_cons in H1 as [H1 H1']. apply NoDup_app in H2 as (H2 & H2' & H2'').
  apply NoDup_app in H3 as (H3 & H3' & H3''). repeat split; assumption.
Qed.

Lemma forEachNTH_spec substance log impacts shapes :
  forall nts h,
    separate shapes -> Forall2 (holds h) shapes nts ->
    exists h',
      Heap.forEachNT substance log impacts (map sh_nt shapes) h = Some h' /\
      Forall2 (holds h') shapes (map (applyToNT substance log impacts) nts) /\
      sameExcept (map sh_nt shapes) (receptorLocs shapes) (effectLocs shapes) h h'.
Proof.
  induction shapes as [|sh shapes IH]; intros nts h Hsep Hall.
  - apply Forall2_nil_inv_l in Hall as ->. exists h. simpl.
    repeat split; try constructor.
  - apply Forall2_cons_inv_l in Hall as (nt & nts' & Hsh & Hall & ->).
    apply separate_cons in Hsep as (Hnd1 & Hnd2 & Hn & Hr & He & Hsep).
    destruct (applyToNTH_spec substance log impacts sh nt h Hnd1 Hnd2 Hsh)
      as (h1 & Hrun1 & Hsh1 & Hsame1).
    assert (Hall1 : Forall2 (holds h1) shapes nts').
    { apply (holds_all_same _ _ _ h h1 shapes nts' Hsame1); try assumption.
      - intros x Hx Hin. apply list_elem_of_singleton in Hin as ->. contradiction.
      - intros x Hx Hin. now apply (Hr x).
      - intros x Hx Hin. now apply (He x). }
    destruct (IH nts' h1 Hsep Hall1) as (h' & Hrun & Hall' & Hsame).
    exists h'. cbn [map Heap.forEachNT]. rewrite Hrun1. cbn [mbind option_bind].
    split; [exact Hrun|]. split.
    + constructor; [|exact Hall'].
      apply (holds_same _ _ _ h1 h' sh _ Hsame); assumption.
    + unfold receptorLocs, effectLocs. cbn [map concat].
      apply (sameExcept_trans _ _ _ h h1 h').
      * eapply sameExcept_weaken; [| | |exact Hsame1].
        -- intros x Hx. apply list_elem_of_singleton in Hx as ->. left.
        -- intros x Hx. apply elem_of_app. now left.
        -- intros x Hx. apply elem_of_app. now left.
      * eapply sameExcept_weaken; [| | |exact Hsame].
        -- intros x Hx. now right.
        -- intros x Hx. apply elem_of_app. now right.
        -- intros x Hx. apply elem_of_app. now right.
Qed.

Lemma applyLogH_spec catalog now u shapes nts log h :
  separate shapes ->
  Heap.refArrays h !! u = Some (map sh_nt shapes) ->
  Forall2 (holds h) shapes nts ->
  exists h',
    Heap.applyLog catalog now u log h = Some h' /\
    Forall2 (holds h') shapes (applyLog catalog now nts log) /\
    sameExcept (map sh_nt shapes) (receptorLocs shapes) (effectLocs shapes) h h'.
Proof.
  intros Hsep Hu Hall. unfold Heap.applyLog, applyLog.
  destruct (catalog !! substanceId log) as [substance|];
    [|exists h; repeat split; try assumption; reflexivity].
  destruct (Rltb _ 1);
    [exists h; repeat split; try assumption; reflexivity|].
  rewrite Hu. cbn [mbind option_bind]. now apply forEachNTH_spec.
Qed.

Lemma forEachLogH_spec catalog now u shapes logs :
  forall nts h,
    separate shapes ->
    Heap.refArrays h !! u = Some (map sh_nt shapes) ->
    Forall2 (holds h) shapes nts ->
    exists h',
      Heap.forEachLog catalog now u logs h = Some h' /\
      Forall2 (holds h') shapes (foldl (applyLog catalog now) nts logs) /\
      sameExcept (map sh_nt shapes) (receptorLocs shapes) (effectLocs shapes) h h'.
Proof.
  induction logs as [|log logs IH]; intros nts h Hsep Hu Hall.
  - exists h. repeat split; try assumption; reflexivity.
  - destruct (applyLogH_spec catalog now u shapes nts log h Hsep Hu Hall)
      as (h1 & Hrun1 & Hall1 & Hsame1).
    assert (Hu1 : Heap.refArrays h1 !! u = Some (map sh_nt shapes)).
    { destruct Hsame1 as (_ & _ & _ & -> & _). exact Hu. }
    destruct (IH _ h1 Hsep Hu1 Hall1) as (h' & Hrun & Hall' & Hsame).
    exists h'. cbn [Heap.forEachLog foldl]. rewrite Hrun1. cbn [mbind option_bind].
    split; [exact Hrun|]. split; [exact Hall'|].
    now apply (sameExcept_trans _ _ _ h h1 h').
Qed.

(** Reading what a shape holds. *)
Lemma holdsRec_read h p rec : holdsRec h p rec -> Heap.readReceptor h p.1 = Some rec.
Proof.
  intros [Hr He]. unfold Heap.readReceptor. rewrite Hr. cbn. rewrite He. cbn.
  now destruct rec.
Qed.

Lemma holds_read h sh nt : holds h sh nt -> Heap.readNT h (sh_nt sh) = Some nt.
Proof.
  intros (Hn & Hc & Ha & Hrecs). unfold Heap.readNT. rewrite Hn. cbn.
  rewrite Hc. cbn. rewrite Ha. cbn.
  assert (Hm : mapM (Heap.readReceptor h) (map fst (sh_recs sh)) = Some (receptors nt)).
  { apply mapM_Some_2. clear -Hrecs.
    induction Hrecs as [|p rec ps recs Hp _ IH]; simpl; constructor;
      auto using holdsRec_read. }
  rewrite Hm. cbn. now destruct nt.
Qed.

Lemma holds_all_read h u shapes nts :
  Heap.refArrays h !! u = Some (map sh_nt shapes) ->
  Forall2 (holds h) shapes nts -> Heap.readNTs h u = Some nts.
Proof.
  intros Hu Hall. unfold Heap.readNTs. rewrite Hu. cbn.
  apply mapM_Some_2. clear Hu.
  induction Hall as [|sh nt shapes' nts' Hsh _ IH]; simpl; constructor;
    auto using holds_read.
Qed.

Lemma grown_refl h : grown h h.
Proof. repeat split; reflexivity. Qed.

Lemma grown_trans h1 h2 h3 : grown h1 h2 -> grown h2 h3 -> grown h1 h3.
Proof.
  intros (A1 & B1 & C1 & D1 & E1) (A2 & B2 & C2 & D2 & E2).
  repeat split; etrans; eassumption.
Qed.

Lemma grown_extends h h' : grown h h' -> Heap.extends h h'.
Proof.
  intros (A & B & C & D & E).
  repeat split; intros l o Hl; eapply prefix_lookup_Some; eassumption.
Qed.

Lemma extends_trans h1 h2 h3 :
  Heap.extends h1 h2 -> Heap.extends h2 h3 -> Heap.extends h1 h3.
Proof.
  intros (A1 & B1 & C1 & D1 & E1) (A2 & B2 & C2 & D2 & E2).
  repeat split; auto.
Qed.

Lemma extends_readReceptor h h' l rec :
  Heap.extends h h' -> Heap.readReceptor h l = Some rec -> Heap.readReceptor h' l = Some rec.
Proof.
  intros (_ & B & C & _ & _). unfold Heap.readReceptor. intros H.
  destruct (Heap.receptorObjs h !! l) as [o|] eqn:Ho; [|discriminate]. cbn in H.
  destruct (Heap.effectArrays h !! Heap.ro_statusEffects o) as [es|] eqn:He; [|discriminate].
  rewrite (B _ _ Ho). cbn. rewrite (C _ _ He). exact H.
Qed.

Lemma extends_readReceptors h h' rs recs :
  Heap.extends h h' ->
  mapM (Heap.readReceptor h) rs = Some recs -> mapM (Heap.readReceptor h') rs = Some recs.
Proof.
  intros Hext H. apply mapM_Some_1 in H. apply mapM_Some_2.
  eapply Forall2_impl; [exact H|]. intros r rec. now apply extends_readReceptor.
Qed.

Lemma extends_readNT h h' l nt :
  Heap.extends h h' -> Heap.readNT h l = Some nt -> Heap.readNT h' l = Some nt.
Proof.
  intros Hext. pose proof Hext as (A & _ & _ & D & E). unfold Heap.readNT. intros H.
  destruct (Heap.ntObjs h !! l) as [o|] eqn:Ho; [|discriminate]. cbn in H.
  destruct (Heap.rhythms h !! Heap.o_circadianRhythm o) as [f|] eqn:Hf; [|discriminate].
  cbn in H.
  destruct (Heap.refArrays h !! Heap.o_receptors o) as [rs|] eqn:Hrs; [|discriminate].
  cbn in H.
  destruct (mapM (Heap.readReceptor h) rs) as [recs|] eqn:Hrecs; [|discriminate].
  rewrite (A _ _ Ho). cbn. rewrite (E _ _ Hf). cbn. rewrite (D _ _ Hrs). cbn.
  rewrite (extends_readReceptors h h' rs recs Hext Hrecs). exact H.
Qed.

Lemma extends_readNTs h h' l nts :
  Heap.extends h h' -> Heap.readNTs h l = Some nts -> Heap.readNTs h' l = Some nts.
Proof.
  intros Hext. pose proof Hext as (_ & _ & _ & D & _). unfold Heap.readNTs. intros H.
  destruct (Heap.refArrays h !! l) as [ls|] eqn:Hls; [|discriminate]. cbn in H.
  rewrite (D _ _ Hls). cbn.
  apply mapM_Some_1 in H. apply mapM_Some_2.
  eapply Forall2_impl; [exact H|]. intros r nt. now apply extends_readNT.
Qed.

Lemma extends_holdsRec h h' p rec : Heap.extends h h' -> holdsRec h p rec -> holdsRec h' p rec.
Proof. intros (_ & B & C & _ & _) [Hr He]. split; auto. Qed.

Lemma extends_holds h h' sh nt : Heap.extends h h' -> holds h sh nt -> holds h' sh nt.
Proof.
  intros Hext (Hn & Hc & Ha & Hrecs). pose proof Hext as (A & _ & _ & D & E).
  repeat split; auto.
  eapply Forall2_impl; [exact Hrecs|]. intros p rec. now apply extends_holdsRec.
Qed.

Lemma recsBetween_mono h1 h2 h3 h4 ps :
  grown h1 h2 -> grown h3 h4 -> recsBetween h2 h3 ps -> recsBetween h1 h4 ps.
Proof.
  intros (_ & B1 & C1 & _ & _) (_ & B2 & C2 & _ & _) H.
  apply prefix_length in B1, C1, B2, C2.
  eapply Forall_impl; [exact H|]. intros p [[? ?] [? ?]]. repeat split; lia.
Qed.

Lemma copyReceptor_spec level baseline r h rec :
  Heap.readReceptor h r = Some rec ->
  exists p h',
    Heap.copyReceptor level baseline r h = Some (p.1, h') /\
    holdsRec h' p (freshReceptor level baseline rec) /\
    grown h h' /\ recsBetween h h' [p] /\
    Heap.ntObjs h' = Heap.ntObjs h /\ Heap.refArrays h' = Heap.refArrays h /\
    Heap.rhythms h' = Heap.rhythms h.
Proof.
  unfold Heap.readReceptor, Heap.copyReceptor. intros H.
  destruct (Heap.receptorObjs h !! r) as [o|] eqn:Ho; [|discriminate]. cbn in H.
  destruct (Heap.effectArrays h !! Heap.ro_statusEffects o) as [es|] eqn:He; [|discriminate].
  injection H as <-. cbn.
  eexists (length (Heap.receptorObjs h), length (Heap.effectArrays h)), _.
  split; [reflexivity|]. cbn.
  split; [|split; [|split]].
  - split; cbn.
    + rewrite lookup_app_r by lia. rewrite Nat.sub_diag. reflexivity.
    + rewrite lookup_app_r by lia. rewrite Nat.sub_diag. reflexivity.
  - repeat split; cbn; try reflexivity; apply prefix_app_r; reflexivity.
  - constructor; [|constructor]. cbn. rewrite !length_app. cbn. lia.
  - repeat split.
Qed.

Lemma copyReceptors_spec level baseline rs :
  forall recs h,
    mapM (Heap.readReceptor h) rs = Some recs ->
    exists ps h',
      Heap.copyReceptors level baseline rs h = Some (map fst ps, h') /\
      Forall2 (holdsRec h') ps (map (freshReceptor level baseline) recs) /\
      grown h h' /\ recsBetween h h' ps /\
      NoDup (map fst ps) /\ NoDup (map snd ps) /\
      Heap.ntObjs h' = Heap.ntObjs h /\ Heap.refArrays h' = Heap.refArrays h /\
      Heap.rhythms h' = Heap.rhythms h.
Proof.
  induction rs as [|r rs IH]; intros recs h Hread.
  - injection Hread as <-. exists [], h. cbn.
    repeat split; try constructor; try reflexivity.
  - apply mapM_Some_1 in Hread.
    apply Forall2_cons_inv_l in Hread as (rec & recs' & Hr & Hrs & ->).
    destruct (copyReceptor_spec level baseline r h rec Hr)
      as (p & h1 & Hrun1 & Hp & Hg1 & Hb1 & HA1 & HD1 & HE1).
    assert (Hrs1 : mapM (Heap.readReceptor h1) rs = Some recs').
    { apply (extends_readReceptors h h1); [now apply grown_extends|now apply mapM_Some_2]. }
    destruct (IH recs' h1 Hrs1) as (ps & h' & Hrun & Hps & Hg & Hb & Hnd1 & Hnd2 & HA & HD & HE).
    exists (p :: ps), h'. cbn [Heap.copyReceptors map]. rewrite Hrun1. cbn. rewrite Hrun. cbn.
    split; [reflexivity|].
    assert (Hp1 : (p.1 < length (Heap.receptorObjs h1))%nat /\
                  (p.2 < length (Heap.effectArrays h1))%nat).
    { apply Forall_cons in Hb1 as [[? ?] _]. lia. }
    assert (Hfresh : forall q, q ∈ ps -> (p.1 < q.1)%nat /\ (p.2 < q.2)%nat).
    { intros q Hq. unfold recsBetween in Hb. rewrite Forall_forall in Hb.
      specialize (Hb q Hq). lia. }
    split; [|split; [|split; [|split; [|split]]]].
    + constructor; [|exact Hps]. apply (extends_holdsRec h1); [now apply grown_extends|exact Hp].
    + now apply (grown_trans h h1 h').
    + constructor.
      * apply Forall_cons in Hb1 as [Hb1 _].
        destruct Hg as (_ & B & C & _ & _). apply prefix_length in B, C. lia.
      * apply (recsBetween_mono h h1 h' h'); [assumption|apply grown_refl|exact Hb].
    + apply NoDup_cons. split; [|exact Hnd1].
      intros Hin. apply list_elem_of_fmap in Hin as (q & Hq1 & Hq). apply Hfresh in Hq. lia.
    + apply NoDup_cons. split; [|exact Hnd2].
      intros Hin. apply list_elem_of_fmap in Hin as (q & Hq1 & Hq). apply Hfresh in Hq. lia.
    + repeat split; congruence.
Qed.

Lemma copyNT_spec hour l base h :
  Heap.readNT h l = Some base ->
  exists sh h',
    Heap.copyNT hour l h = Some (sh_nt sh, h') /\
    holds h' sh (freshNT hour base) /\
    grown h h' /\ shapeBetween h h' sh /\
    NoDup (map fst (sh_recs sh)) /\ NoDup (map snd (sh_recs sh)).
Proof.
  unfold Heap.readNT, Heap.copyNT. intros H.
  destruct (Heap.ntObjs h !! l) as [o|] eqn:Ho; [|discriminate]. cbn in H.
  destruct (Heap.rhythms h !! Heap.o_circadianRhythm o) as [f|] eqn:Hf; [|discriminate].
  cbn in H.
  destruct (Heap.refArrays h !! Heap.o_receptors o) as [rs|] eqn:Hrs; [|discriminate].
  cbn in H.
  destruct (mapM (Heap.readReceptor h) rs) as [recs|] eqn:Hrecs; [|discriminate].
  injection H as <-. cbn. rewrite Hf. cbn. rewrite Hrs. cbn.
  destruct (copyReceptors_spec (f hour) (Heap.o_baselineLevel o) rs recs h Hrecs)
    as (ps & h1 & Hrun & Hps & Hg & Hb & Hnd1 & Hnd2 & HA & HD & HE).
  rewrite Hrun. cbn.
  exists {| sh_nt := length (Heap.ntObjs h1); sh_arr := length (Heap.refArrays h1);
            sh_rhythm := Heap.o_circadianRhythm o; sh_recs := ps |}.
  eexists. split; [reflexivity|]. cbn.
  set (h2 := Heap.withNTObjs (Heap.withRefArrays h1 _) _).
  assert (Hg12 : grown h1 h2).
  { repeat split; cbn; try reflexivity; apply prefix_app_r; reflexivity. }
  split; [|split; [|split; [|split]]]; try assumption.
  - split; [|split; [|split]]; cbn.
    + rewrite lookup_app_r by lia. rewrite Nat.sub_diag. reflexivity.
    + rewrite HE. exact Hf.
    + rewrite lookup_app_r by lia. rewrite Nat.sub_diag. reflexivity.
    + eapply Forall2_impl; [exact Hps|]. intros p rec.
      apply extends_holdsRec. now apply grown_extends.
  - now apply (grown_trans h h1 h2).
  - split; cbn.
    + rewrite length_app, HA. cbn. lia.
    + apply (recsBetween_mono h h h1 h2); [apply grown_refl|assumption|exact Hb].
Qed.

Lemma shapeBetween_mono h1 h2 h3 h4 sh :
  grown h1 h2 -> grown h3 h4 -> shapeBetween h2 h3 sh -> shapeBetween h1 h4 sh.
Proof.
  intros Hg1 Hg2 [Hn Hr]. split; [|now apply (recsBetween_mono h1 h2 h3 h4)].
  destruct Hg1 as (A1 & _), Hg2 as (A2 & _). apply prefix_length in A1, A2. lia.
Qed.

Lemma elem_of_concat {A} (x : A) (ls : list (list A)) :
  x ∈ concat ls -> exists l, x ∈ l /\ l ∈ ls.
Proof.
  induction ls as [|l ls IH]; simpl; intros Hx.
  - now apply elem_of_nil in Hx.
  - apply elem_of_app in Hx as [Hx|Hx].
    + exists l. split; [exact Hx|left].
    + destruct (IH Hx) as (l' & H1 & H2). exists l'. split; [exact H1|now right].
Qed.

Lemma receptorLocs_between h h' shapes x :
  Forall (shapeBetween h h') shapes -> x ∈ receptorLocs shapes ->
  (length (Heap.receptorObjs h) <= x < length (Heap.receptorObjs h'))%nat.
Proof.
  intros Hall Hx. unfold receptorLocs in Hx.
  apply elem_of_concat in Hx as (l & Hx & Hl).
  apply list_elem_of_fmap in Hl as (sh & -> & Hsh).
  rewrite Forall_forall in Hall. destruct (Hall sh Hsh) as [_ Hr].
  apply list_elem_of_fmap in Hx as (p & -> & Hp).
  unfold recsBetween in Hr. rewrite Forall_forall in Hr. now apply Hr.
Qed.

Lemma effectLocs_between h h' shapes x :
  Forall (shapeBetween h h') shapes -> x ∈ effectLocs shapes ->
  (length (Heap.effectArrays h) <= x < length (Heap.effectArrays h'))%nat.
Proof.
  intros Hall Hx. unfold effectLocs in Hx.
  apply elem_of_concat in Hx as (l & Hx & Hl).
  apply list_elem_of_fmap in Hl as (sh & -> & Hsh).
  rewrite Forall_forall in Hall. destruct (Hall sh Hsh) as [_ Hr].
  apply list_elem_of_fmap in Hx as (p & -> & Hp).
  unfold recsBetween in Hr. rewrite Forall_forall in Hr. now apply Hr.
Qed.

Lemma ntLocs_between h h' shapes x :
  Forall (shapeBetween h h') shapes -> x ∈ map sh_nt shapes ->
  (length (Heap.ntObjs h) <= x < length (Heap.ntObjs h'))%nat.
Proof.
  intros Hall Hx. apply list_elem_of_fmap in Hx as (sh & -> & Hsh).
  rewrite Forall_forall in Hall. now destruct (Hall sh Hsh).
Qed.

Lemma copyNTs_spec hour ls :
  forall bases h,
    mapM (Heap.readNT h) ls = Some bases ->
    exists shapes h',
      Heap.copyNTs hour ls h = Some (map sh_nt shapes, h') /\
      Forall2 (holds h') shapes (map (freshNT hour) bases) /\
      grown h h' /\ Forall (shapeBetween h h') shapes /\ separate shapes.
Proof.
  induction ls as [|l ls IH]; intros bases h Hread.
  - injection Hread as <-. exists [], h. cbn.
    repeat split; try constructor; try reflexivity.
  - apply mapM_Some_1 in Hread.
    apply Forall2_cons_inv_l in Hread as (base & bases' & Hl & Hls & ->).
    destruct (copyNT_spec hour l base h Hl) as (sh & h1 & Hrun1 & Hsh & Hg1 & Hb1 & Hnd1 & Hnd2).
    assert (Hls1 : mapM (Heap.readNT h1) ls = Some bases').
    { apply mapM_Some_2. eapply Forall2_impl; [exact Hls|]. intros x y.
      apply extends_readNT. now apply grown_extends. }
    destruct (IH bases' h1 Hls1) as (shapes & h' & Hrun & Hall & Hg & Hb & Hsep).
    exists (sh :: shapes), h'. cbn [Heap.copyNTs map]. rewrite Hrun1. cbn. rewrite Hrun. cbn.
    split; [reflexivity|]. split; [|split; [|split]].
    + constructor; [|exact Hall]. apply (extends_holds h1); [now apply grown_extends|exact Hsh].
    + now apply (grown_trans h h1 h').
    + constructor.
      * apply (shapeBetween_mono h h h1 h'); [apply grown_refl|assumption|exact Hb1].
      * eapply Forall_impl; [exact Hb|]. intros s.
        apply shapeBetween_mono; [assumption|apply grown_refl].
    + destruct Hsep as (S1 & S2 & S3). destruct Hb1 as [Hn1 Hr1].
      unfold recsBetween in Hr1. rewrite Forall_forall in Hr1.
      split; [|split].
      * cbn. apply NoDup_cons. split; [|exact S1]. intros Hin.
        apply (ntLocs_between h1 h') in Hin; [lia|exact Hb].
      * unfold receptorLocs. cbn. apply NoDup_app. split; [exact Hnd1|]. split; [|exact S2].
        intros x Hx Hin. apply (receptorLocs_between h1 h') in Hin; [|exact Hb].
        apply list_elem_of_fmap in Hx as (p & -> & Hp). specialize (Hr1 p Hp). lia.
      * unfold effectLocs. cbn. apply NoDup_app. split; [exact Hnd2|]. split; [|exact S3].
        intros x Hx Hin. apply (effectLocs_between h1 h') in Hin; [|exact Hb].
        apply list_elem_of_fmap in Hx as (p & -> & Hp). specialize (Hr1 p Hp). lia.
Qed.

(** The call: what it returns and what it leaves. *)
Lemma updateNTLevelsH_spec catalog defaults now hour logs h baseNTs :
  Heap.readNTs h defaults = Some baseNTs ->
  exists u h',
    Heap.updateNTLevels catalog defaults now hour logs h = Some (u, h') /\
    Heap.readNTs h' u = Some (recomputeWith catalog baseNTs now hour logs) /\
    Heap.extends h h' /\
    (length (Heap.refArrays h) <= u)%nat.
Proof.
  unfold Heap.readNTs, Heap.updateNTLevels. intros H.
  destruct (Heap.refArrays h !! defaults) as [ls|] eqn:Hls; [|discriminate]. cbn in H. cbn.
  destruct (copyNTs_spec hour ls baseNTs h H) as (shapes & h1 & Hrun & Hall & Hg & Hb & Hsep).
  rewrite Hrun. cbn.
  set (h2 := Heap.withRefArrays h1 (Heap.refArrays h1 ++ [map sh_nt shapes])).
  set (u := length (Heap.refArrays h1)).
  assert (Hg12 : grown h1 h2).
  { repeat split; cbn; try reflexivity. apply prefix_app_r. reflexivity. }
  assert (Hu : Heap.refArrays h2 !! u = Some (map sh_nt shapes)).
  { cbn. rewrite lookup_app_r by (unfold u; lia). unfold u. rewrite Nat.sub_diag. reflexivity. }
  assert (Hall2 : Forall2 (holds h2) shapes (map (freshNT hour) baseNTs)).
  { eapply Forall2_impl; [exact Hall|]. intros sh nt. apply extends_holds.
    now apply grown_extends. }
  destruct (forEachLogH_spec catalog now u shapes
              (List.filter (fun l => Rgtb (expectedClearance l) now) logs)
              _ h2 Hsep Hu Hall2) as (h3 & Hloop & Hall3 & Hsame).
  rewrite Hloop. cbn. exists u, h3. split; [reflexivity|].
  pose proof Hsame as (SA & SB & SC & SD & SE).
  split; [|split].
  - fold (Heap.readNTs h3 u). apply (holds_all_read h3 u shapes).
    + rewrite SD. exact Hu.
    + exact Hall3.
  - assert (Hg02 : grown h h2) by (apply (grown_trans h h1 h2); assumption).
    pose proof (grown_extends h h2 Hg02) as (A & B & C & D & E).
    assert (Hb2 : Forall (shapeBetween h h2) shapes).
    { eapply Forall_impl; [exact Hb|]. intros s.
      apply shapeBetween_mono; [apply grown_refl|assumption]. }
    repeat split; intros l o Hl.
    + rewrite SA; [now apply A|]. intros Hin.
      apply (ntLocs_between h h2) in Hin; [|exact Hb2].
      apply lookup_lt_Some in Hl. lia.
    + rewrite SB; [now apply B|]. intros Hin.
      apply (receptorLocs_between h h2) in Hin; [|exact Hb2].
      apply lookup_lt_Some in Hl. lia.
    + rewrite SC; [now apply C|]. intros Hin.
      apply (effectLocs_between h h2) in Hin; [|exact Hb2].
      apply lookup_lt_Some in Hl. lia.
    + rewrite SD. now apply D.
    + rewrite SE. now apply E.
  - destruct Hg as (_ & _ & _ & D & _). apply prefix_length in D. unfold u. lia.
Qed.

Lemma afterCalls_keeps catalog defaults baseNTs h0 h :
  Heap.readNTs h0 defaults = Some baseNTs ->
  Heap.afterCalls catalog defaults h0 h ->
  Heap.extends h0 h /\ Heap.readNTs h defaults = Some baseNTs.
Proof.
  intros H0 Hcalls. induction Hcalls as [|h now hour logs u h' _ [IHe IHr] Hrun].
  - split; [|exact H0]. repeat split; auto.
  - destruct (updateNTLevelsH_spec catalog defaults now hour logs h baseNTs IHr)
      as (u' & h'' & Hrun' & _ & Hext & _).
    rewrite Hrun in Hrun'. injection Hrun' as -> ->.
    split; [now apply (extends_trans h0 h h'')|now apply (extends_readNTs h h'')].
Qed.

Lemma moduleHeap_defaults :
  Heap.readNTs Heap.moduleHeap Heap.defaultsRef = Some defaultNeurotransmitters.
Proof. reflexivity. Qed.

(** C4: [updateNTLevels] carries no hidden state.  Run on the objects of the
    heap, from any heap a session can have reached (any number of earlier
    calls, with any clock readings and logs, whose snapshots may all still be
    around), the call succeeds and the snapshot it returns, read off the
    heap, is [recompute] of its three arguments and of the value of the
    module constant only: two calls with the same (now, hour, logs) return
    the same snapshot whatever came before, and it is the snapshot the
    state-passing store holds.  The call writes to objects it has allocated
    itself and to no other: every object that existed before, the module
    constant and every snapshot returned earlier, is left as it was, so no
    call leaves a trace for the next. *)
Theorem C4_recompute_no_hidden_state
    (catalog : gmap string Substance) (baseNTs : list Neurotransmitter)
    (defaults : Heap.loc) (h0 h1 h2 : Heap.heap)
    (now hour : R) (logs : list SubstanceLog) (s : NeuroState) :
  Heap.readNTs h0 defaults = Some baseNTs ->
  Heap.afterCalls catalog defaults h0 h1 ->
  Heap.afterCalls catalog defaults h0 h2 ->
  substanceLogs s = logs ->
  exists u1 h1' u2 h2',
    Heap.updateNTLevels catalog defaults now hour logs h1 = Some (u1, h1') /\
    Heap.updateNTLevels catalog defaults now hour logs h2 = Some (u2, h2') /\
    Heap.readNTs h1' u1 = Some (recomputeWith catalog baseNTs now hour logs) /\
    Heap.readNTs h2' u2 = Heap.readNTs h1' u1 /\
    Heap.readNTs h1' u1
    = Some (neurotransmitters (updateNTLevelsWith catalog baseNTs now hour s)) /\
    Heap.extends h1 h1' /\
    (forall old v, Heap.readNTs h1 old = Some v -> Heap.readNTs h1' old = Some v) /\
    Heap.readNTs h1' defaults = Some baseNTs /\
    (length (Heap.refArrays h1) <= u1)%nat.
Proof.
  intros H0 Hc1 Hc2 Hlogs.
  destruct (afterCalls_keeps catalog defaults baseNTs h0 h1 H0 Hc1) as [_ Hr1].
  destruct (afterCalls_keeps catalog defaults baseNTs h0 h2 H0 Hc2) as [_ Hr2].
  destruct (updateNTLevelsH_spec catalog defaults now hour logs h1 baseNTs Hr1)
    as (u1 & h1' & Hrun1 & Hread1 & Hext1 & Hfresh1).
  destruct (updateNTLevelsH_spec catalog defaults now hour logs h2 baseNTs Hr2)
    as (u2 & h2' & Hrun2 & Hread2 & _ & _).
  exists u1, h1', u2, h2'.
  split; [exact Hrun1|]. split; [exact Hrun2|]. split; [exact Hread1|].
  split; [now rewrite Hread1, Hread2|]. split; [|split; [exact Hext1|split; [|split]]].
  - rewrite Hread1. unfold updateNTLevelsWith. cbn. now rewrite Hlogs.
  - intros old v. now apply extends_readNTs.
  - now apply (extends_readNTs h1 h1').
  - exact Hfresh1.
Qed.

Lemma C4_recompute_no_hidden_state_witness :
  let l := logOf "c1" Catalog.caffeine 100 1000 in
  Heap.readNTs Heap.moduleHeap Heap.defaultsRef = Some defaultNeurotransmitters /\
  exists u h',
    Heap.updateNTLevels substanceMap Heap.defaultsRef 2701000 12 [l] Heap.moduleHeap
    = Some (u, h') /\
    Heap.readNTs h' u = Some (recompute 2701000 12 [l]) /\
    Heap.readNTs h' Heap.defaultsRef = Some defaultNeurotransmitters.
Proof.
  intros l. split; [exact moduleHeap_defaults|].
  destruct (updateNTLevelsH_spec substanceMap Heap.defaultsRef 90000 9 [l; l]
              Heap.moduleHeap defaultNeurotransmitters moduleHeap_defaults)
    as (u0 & h2 & Hrun0 & _).
  assert (Hc1 : Heap.afterCalls substanceMap Heap.defaultsRef Heap.moduleHeap Heap.moduleHeap)
    by constructor.
  assert (Hc2 : Heap.afterCalls substanceMap Heap.defaultsRef Heap.moduleHeap h2).
  { econstructor; [exact Hc1|exact Hrun0]. }
  destruct (C4_recompute_no_hidden_state substanceMap defaultNeurotransmitters
              Heap.defaultsRef Heap.moduleHeap Heap.moduleHeap h2 2701000 12 [l]
              (setSubstanceLogs [l] (initialState defaultNeurotransmitters))
              moduleHeap_defaults Hc1 Hc2 eq_refl)
    as (u1 & h1' & _ & _ & Hrun & _ & Hread & _ & _ & _ & _ & Hdef & _).
  exists u1, h1'. split; [exact Hrun|]. split; [exact Hread|exact Hdef].
Defined.

(** ** Unknown substances *)

(** C9: a log whose substanceId is not in the catalog is skipped: the
    snapshot of a history containing it is exactly the snapshot of the
    history with that log removed. *)
Theorem C9_unknown_substance_log_is_inert
    (catalog : gmap string Substance) (baseNTs : list Neurotransmitter)
    (now hour : R) (before after : list SubstanceLog) (l : SubstanceLog) :
  catalog !! substanceId l = None ->
  recomputeWith catalog baseNTs now hour (before ++ l :: after)
  = recomputeWith catalog baseNTs now hour (before ++ after).
Proof.
  intros Hnone. unfold recomputeWith.
  rewrite !List.filter_app, !foldl_app. simpl.
  destruct (Rgtb (expectedClearance l) now); [|reflexivity].
  simpl. unfold applyLog at 2. now rewrite Hnone.
Qed.

Lemma C9_unknown_substance_log_is_inert_witness :
  let removed := logOf "m1" (agonistOn "magnesium" "gabaa" 20) 200 0 in
  let kept := logOf "c1" Catalog.caffeine 100 0 in
  substanceMap !! substanceId removed = None /\
  recompute 1000 12 ([kept] ++ removed :: [kept]) = recompute 1000 12 ([kept] ++ [kept]).
Proof.
  intros removed kept.
  assert (H : substanceMap !! substanceId removed = None) by lookup_catalog.
  split; [exact H|].
  exact (C9_unknown_substance_log_is_inert substanceMap defaultNeurotransmitters
           1000 12 [kept] [kept] removed H).
Defined.

(** ** Empty history: the circadian baseline *)

(** C8: with an empty log history, for every hour of day (in particular every
    hour in [0,24)), [recompute] returns each neurotransmitter of the
    catalog at its circadian level with status stable, and each of its
    receptors with sensitivity 100, occupancy the circadian level times the
    receptor's baseline occupancy over the system's baseline level, and no
    status effect. *)
Theorem C8_empty_history_is_circadian_baseline (now h : R) :
  Forall2
    (fun base nt =>
       nt_id nt = nt_id base /\
       currentLevel nt = getLevel base h /\
       status nt = stable /\
       Forall2
         (fun r0 r =>
            r_id r = r_id r0 /\
            sensitivity r = 100 /\
            occupancy r = getLevel base h * (occupancy r0 / baselineLevel base) /\
            statusEffects r = [])
         (receptors base) (receptors nt))
    defaultNeurotransmitters (recompute now h []) /\
  map (fun nt => (nt_id nt, currentLevel nt)) (recompute now h [])
  = [ ("adenosine", Circadian.adenosine h); ("dopamine", Circadian.dopamine h);
      ("serotonin", Circadian.serotonin h); ("gaba", Circadian.gaba h) ].
Proof.
  unfold recompute, recomputeWith. simpl. split; [|reflexivity].
  repeat (constructor; simpl; repeat split).
Qed.

(** ** Data-model ranges of the snapshot *)

Lemma adenosine_range h : 10 <= Circadian.adenosine h <= 100.
Proof.
  unfold Circadian.adenosine. cmp; unfold Rmin; destruct Rle_dec; lra.
Qed.

Lemma dopamine_range h : 40 <= Circadian.dopamine h <= 70.
Proof. unfold Circadian.dopamine. cmp. Qed.

Lemma serotonin_range h : 35 <= Circadian.serotonin h <= 70.
Proof. unfold Circadian.serotonin. cmp. Qed.

Lemma gaba_range h : 45 <= Circadian.gaba h <= 75.
Proof. unfold Circadian.gaba. cmp. Qed.

Lemma baseline_in_range h :
  Forall ntInRange (map (freshNT h) defaultNeurotransmitters).
Proof.
  pose proof (adenosine_range h). pose proof (dopamine_range h).
  pose proof (serotonin_range h). pose proof (gaba_range h).
  unfold ntInRange, receptorInRange. simpl.
  repeat (apply List.Forall_cons;
          [simpl; split;
           [lra | repeat (apply List.Forall_cons; [simpl; lra|]); apply List.Forall_nil]|]).
  apply List.Forall_nil.
Qed.

Lemma mkSubstanceMap_lookup cat k s : mkSubstanceMap cat !! k = Some s -> In s cat.
Proof.
  unfold mkSubstanceMap. induction cat as [|x cat IH] using rev_ind.
  - simpl. rewrite lookup_empty. discriminate.
  - rewrite foldl_snoc, lookup_insert. destruct (decide (s_id x = k)).
    + intros [= ->]. apply in_or_app. right. now left.
    + intros H. apply in_or_app. left. auto.
Qed.

Lemma catalog_magnitudes k s :
  substanceMap !! k = Some s -> Forall (fun i => 0 <= magnitude i) (receptorInteractions s).
Proof.
  intros H. apply mkSubstanceMap_lookup in H. simpl in H.
  repeat (destruct H as [<-|H];
          [simpl; repeat (apply List.Forall_cons; [simpl; lra|]);
           apply List.Forall_nil|]).
  contradiction.
Qed.

Lemma impact_range ints eff r v :
  Forall (fun i => 0 <= magnitude i) ints -> 0 <= eff ->
  calculateReceptorImpact ints eff !! r = Some v -> 0 <= v <= 100.
Proof.
  intros Hm He. rewrite impact_sum_capped by assumption.
  destruct (targets r ints); [|discriminate]. intros [= <-].
  pose proof (scaledSum_nonneg r eff ints Hm He).
  unfold Rmin. destruct Rle_dec; lra.
Qed.

Section Ranges.

Variables (substance : Substance) (log : SubstanceLog) (impacts : gmap string R).
Hypothesis Himpacts : forall r v, impacts !! r = Some v -> 0 <= v <= 100.

Lemma applyToReceptor_range lvl st rec :
  0 <= lvl <= 100 -> receptorInRange rec ->
  let '(lvl', _, rec') := applyToReceptor substance log impacts lvl st rec in
  0 <= lvl' <= 100 /\ receptorInRange rec'.
Proof.
  intros Hl [Hs Ho]. unfold applyToReceptor.
  destruct (impacts !! r_id rec) as [v|] eqn:Hv; [|now repeat split].
  apply Himpacts in Hv.
  destruct (List.find _ _) as [i|]; [|now repeat split].
  unfold receptorInRange.
  destruct (ri_type i); simpl; unfold Rmin, Rmax; repeat destruct Rle_dec; lra.
Qed.

Lemma applyToReceptors_range lvl st rs :
  0 <= lvl <= 100 -> Forall receptorInRange rs ->
  let '(lvl', _, rs') := applyToReceptors substance log impacts lvl st rs in
  0 <= lvl' <= 100 /\ Forall receptorInRange rs'.
Proof.
  revert lvl st. induction rs as [|x rs IH]; intros lvl st Hl Hrs; simpl.
  - split; [assumption|constructor].
  - inversion_clear Hrs as [|? ? Hx Hrest].
    pose proof (applyToReceptor_range lvl st x Hl Hx) as H1.
    destruct (applyToReceptor substance log impacts lvl st x) as [[lvl1 st1] x'].
    destruct H1 as [Hl1 Hx'].
    specialize (IH lvl1 st1 Hl1 Hrest).
    destruct (applyToReceptors substance log impacts lvl1 st1 rs) as [[lvl2 st2] rs'].
    destruct IH as [Hl2 Hrs']. split; [assumption|now constructor].
Qed.

Lemma applyToNT_range nt : ntInRange nt -> ntInRange (applyToNT substance log impacts nt).
Proof.
  intros [Hl Hrs]. unfold applyToNT.
  pose proof (applyToReceptors_range (currentLevel nt) (status nt) (receptors nt) Hl Hrs) as H.
  destruct (applyToReceptors _ _ _ _ _ _) as [[lvl st] rs]. exact H.
Qed.

End Ranges.

Lemma applyLog_range now updated l :
  Forall ntInRange updated -> Forall ntInRange (applyLog substanceMap now updated l).
Proof.
  intros Hu. unfold applyLog.
  destruct (substanceMap !! substanceId l) as [s|] eqn:Hs; [|assumption].
  unfold Rltb. case_bool_decide as He; [assumption|].
  apply Forall_map. eapply Forall_impl; [exact Hu|].
  intros nt Hnt. apply applyToNT_range; [|assumption].
  intros r v. apply impact_range; [now apply (catalog_magnitudes _ _ Hs) | lra].
Qed.

(** C10: for every hour of day (in particular every hour in [0,24)) and every
    log history, every neurotransmitter of the snapshot [recompute] returns
    over the initial catalog has currentLevel in [0,100], and every receptor
    of it has sensitivity in [20,150] and occupancy in [0,100]. *)
Theorem C10_snapshot_within_data_model_ranges (now h : R) (logs : list SubstanceLog) :
  Forall
    (fun nt =>
       0 <= currentLevel nt <= 100 /\
       Forall (fun rec => 20 <= sensitivity rec <= 150 /\ 0 <= occupancy rec <= 100)
              (receptors nt))
    (recompute now h logs).
Proof.
  change (Forall ntInRange (recompute now h logs)).
  unfold recompute, recomputeWith.
  generalize (baseline_in_range h).
  generalize (map (freshNT h) defaultNeurotransmitters) as updated.
  induction (List.filter (fun l => Rgtb (expectedClearance l) now) logs)
    as [|l active IH]; intros updated Hu; simpl; [assumption|].
  apply IH. now apply applyLog_range.
Qed.

(** ** Double arithmetic on whole numbers *)



Lemma pow2_pos (e : Z) : 0 < powerRZ 2 e.
Proof. apply powerRZ_lt. lra. Qed.

Lemma pow2_add (a b : Z) : powerRZ 2 (a + b) = powerRZ 2 a * powerRZ 2 b.
Proof. apply powerRZ_add. lra. Qed.









(** Rounding never turns a number that is not positive into a positive one. *)
Lemma nearestEven_nonpos (y : R) : y <= 0 -> (Double.nearestEven y <= 0)%Z.
Proof.
  intros Hy. unfold Double.nearestEven, Rltb, Rgtb.
  pose proof (Zfloor_bound y) as [Hb1 Hb2].
  assert (Hn : (Zfloor y <= 0)%Z) by (apply le_IZR; lra).
  destruct (Z.eq_dec (Zfloor y) 0) as [E|E].
  - rewrite E in *. rewrite bool_decide_true by lra. lia.
  - repeat case_bool_decide; try destruct (Z.even _); lia.
Qed.

Lemma round_nonpos (x : R) : x <= 0 -> Double.round x <= 0.
Proof.
  intros Hx. unfold Double.round, Double.ulp.
  pose proof (pow2_pos (Double.exponent x - 52)) as Hp.
  assert (Hy : x / powerRZ 2 (Double.exponent x - 52) <= 0).
  { unfold Rdiv. pose proof (Rinv_0_lt_compat _ Hp). nra. }
  apply nearestEven_nonpos, IZR_le in Hy. nra.
Qed.



(** ** Clearance horizon of a log *)

Section Clearance.

Variables (catalog : gmap string Substance) (baseNTs : list Neurotransmitter).

(** The log [logSubstance] creates. *)
#[local] Abbreviation createdLog sid dose now newId sub :=
  {| log_id := newId; substanceId := sid; dosage := dose; timestamp := now;
     expectedClearance := now + calculateClearanceTime sub dose |}.






End Clearance.





(** ** Timeline sampling *)

Section Timeline.

Variables (log : SubstanceLog) (substance : Substance) (i : Z) (total : R).
Hypothesis Hinterval : (0 < i)%Z.
Hypothesis Hbound : (total + IZR i) * 60000 <= IZR (2 ^ 53).

#[local] Abbreviation interval := (IZR i).









End Timeline.










(** ** Tolerance *)

Lemma insertByTimestamp_perm x l : Permutation (insertByTimestamp x l) (x :: l).
Proof.
  induction l as [|y l IH]; simpl; [reflexivity|].
  destruct (Rleb (timestamp x) (timestamp y)); [reflexivity|].
  rewrite IH. apply perm_swap.
Qed.

Lemma sortByTimestamp_perm l : Permutation (sortByTimestamp l) l.
Proof.
  induction l as [|x l IH]; simpl; [reflexivity|].
  rewrite insertByTimestamp_perm. now rewrite IH.
Qed.

Lemma insertByTimestamp_sorted x l :
  StronglySorted earlierOrSame l -> StronglySorted earlierOrSame (insertByTimestamp x l).
Proof.
  induction 1 as [|y l Hs IH Hy]; simpl.
  - repeat constructor.
  - unfold Rleb. case_bool_decide as Hxy.
    + constructor; [now constructor|]. constructor; [exact Hxy|].
      eapply List.Forall_impl; [|exact Hy]. unfold earlierOrSame. intros z Hz. lra.
    + constructor; [exact IH|].
      rewrite (insertByTimestamp_perm x l). constructor; [|exact Hy].
      unfold earlierOrSame. lra.
Qed.

Lemma sortByTimestamp_sorted l : StronglySorted earlierOrSame (sortByTimestamp l).
Proof.
  induction l as [|x l IH]; simpl; [constructor|].
  now apply insertByTimestamp_sorted.
Qed.

Lemma last_In {A} (l : list A) (x : A) : last l = Some x -> In x l.
Proof.
  rewrite last_Some. intros [l' ->]. apply in_or_app. right. now left.
Qed.

Lemma sorted_last_latest l x :
  StronglySorted earlierOrSame l -> last l = Some x ->
  Forall (fun y => timestamp y <= timestamp x) l.
Proof.
  induction 1 as [|a l Hs IH Ha]; intros Hlast; [constructor|].
  destruct l as [|b l].
  - injection Hlast as ->. constructor; [lra|constructor].
  - rewrite last_cons_cons in Hlast. constructor; [|now apply IH].
    rewrite List.Forall_forall in Ha. apply (Ha x). now apply last_In.
Qed.

Section ToleranceFacts.

Variable localDate : R -> Z * Z * Z.

Lemma daySetOf_foldl (acc : gset (Z * Z * Z)) ls :
  foldl (fun daySet log => daySet ∪ {[ localDate (timestamp log) ]}) acc ls
  = acc ∪ list_to_set (map (fun l => localDate (timestamp l)) ls).
Proof.
  revert acc. induction ls as [|x ls IH]; intros acc; simpl.
  - now rewrite (right_id_L ∅ (∪)).
  - rewrite IH. now rewrite (assoc_L (∪)).
Qed.

Lemma daySetOf_sorted ls :
  size (daySetOf localDate (sortByTimestamp ls)) = distinctDays localDate ls.
Proof.
  unfold daySetOf, distinctDays. rewrite daySetOf_foldl.
  rewrite (left_id_L ∅ (∪)).
  f_equal. apply list_to_set_perm_L, Permutation_map, sortByTimestamp_perm.
Qed.

Lemma recentLogsOf_window logs substance now :
  recentLogsOf logs substance now
  = sortByTimestamp (List.filter (inWindow substance now) logs).
Proof. reflexivity. Qed.

Lemma tolerance_empty logs substance now :
  List.filter (inWindow substance now) logs = [] ->
  calculateTolerance localDate logs substance now = 100.
Proof.
  intros H. unfold calculateTolerance. rewrite recentLogsOf_window, H. reflexivity.
Qed.

Lemma tolerance_nonempty logs substance now :
  List.filter (inWindow substance now) logs <> [] ->
  exists lastLog,
    In lastLog (List.filter (inWindow substance now) logs) /\
    Forall (fun l => timestamp l <= timestamp lastLog)
           (List.filter (inWindow substance now) logs) /\
    calculateTolerance localDate logs substance now
    = Rmax (100 - INR (distinctDays localDate (List.filter (inWindow substance now) logs))
                  * toleranceRate (getDosePK substance (dosage lastLog)))
           10.
Proof.
  intros Hne. unfold calculateTolerance. rewrite recentLogsOf_window.
  set (window := List.filter (inWindow substance now) logs) in *.
  pose proof (sortByTimestamp_perm window) as Hperm.
  destruct (last (sortByTimestamp window)) as [lastLog|] eqn:Hlast.
  - exists lastLog. split; [|split].
    + apply (Permutation_in _ Hperm). now apply last_In.
    + pose proof (sorted_last_latest _ _ (sortByTimestamp_sorted window) Hlast) as Hall.
      rewrite List.Forall_forall in *. intros l Hl. apply Hall.
      apply (Permutation_in _ (Permutation_sym Hperm)). exact Hl.
    + now rewrite daySetOf_sorted.
  - exfalso. apply last_None in Hlast. rewrite Hlast in Hperm.
    apply Permutation_nil in Hperm. auto.
Qed.

Lemma tolerance_floor logs substance now :
  10 <= calculateTolerance localDate logs substance now.
Proof.
  unfold calculateTolerance. destruct (last _); [apply Rmax_r|lra].
Qed.

Lemma tolerance_ceiling logs substance now :
  (forall dose, 0 <= toleranceRate (getDosePK substance dose)) ->
  calculateTolerance localDate logs substance now <= 100.
Proof.
  intros Hrate. unfold calculateTolerance. destruct (last _) as [l|]; [|lra].
  pose proof (pos_INR (size (daySetOf localDate (recentLogsOf logs substance now)))).
  pose proof (Hrate (dosage l)). apply Rmax_lub; nra.
Qed.

End ToleranceFacts.

Lemma distinctDays_single localDate l : distinctDays localDate [l] = 1%nat.
Proof.
  unfold distinctDays.
  change (size ({[ localDate (timestamp l) ]} ∪ ∅ : gset (Z * Z * Z)) = 1%nat).
  rewrite (right_id_L ∅ (∪)). apply size_singleton.
Qed.

Lemma inWindow_iff substance now l :
  inWindow substance now l = true
  <-> substanceId l = s_id substance /\ timestamp l > now - 7 * 24 * 60 * 60 * 1000.
Proof.
  unfold inWindow, Rgtb. rewrite andb_true_iff, !bool_decide_eq_true. reflexivity.
Qed.

Lemma tolerance_single localDate substance now l :
  inWindow substance now l = true ->
  calculateTolerance localDate [l] substance now
  = Rmax (100 - 1 * toleranceRate (getDosePK substance (dosage l))) 10.
Proof.
  intros Hin.
  assert (Hw : List.filter (inWindow substance now) [l] = [l]) by (simpl; now rewrite Hin).
  destruct (tolerance_nonempty localDate [l] substance now) as (x & Hx & _ & ->).
  { rewrite Hw. discriminate. }
  rewrite Hw in *. destruct Hx as [<-|[]].
  now rewrite distinctDays_single.
Qed.

(** C6 (as stated, refuted): a log dated one day after [now] lies outside the
    seven days that end at [now], yet it is counted: the tolerance of
    caffeine is 95, not 100.  And the result can leave [10,100]: with a
    negative tolerance rate one day of use gives 105. *)
Lemma C6_window_and_ceiling_counterexample :
  let now := 0 in
  let future := logOf "f1" Catalog.caffeine 100 dayMs in
  Forall (fun l => ~ (now - 7 * dayMs < timestamp l <= now)) [future] /\
  calculateTolerance januaryDate [future] Catalog.caffeine now = 95 /\
  calculateTolerance januaryDate [logOf "s1" sensitizer 1 0] sensitizer dayMs = 105.
Proof.
  intros now future. split; [|split].
  - constructor; [|constructor]. simpl. unfold now, dayMs. lra.
  - rewrite tolerance_single.
    + simpl. rewrite Rmax_left by lra. lra.
    + apply inWindow_iff. split; [reflexivity|]. simpl. unfold now, dayMs. lra.
  - rewrite tolerance_single.
    + simpl. rewrite Rmax_left by lra. lra.
    + apply inWindow_iff. split; [reflexivity|]. simpl. unfold dayMs. lra.
Qed.

Lemma catalog_toleranceRate s dose :
  In s substances -> 0 <= toleranceRate (getDosePK s dose).
Proof.
  simpl. intros H.
  repeat (destruct H as [<-|H]; [simpl; lra|]). contradiction.
Qed.

(** C6 (amended): when no log of the history is dated after [now], the logs
    that count are those of the substance inside the trailing 7-day window
    [(now - 7 days, now]] (in general: every log of the substance with
    [timestamp > now - 7 days]).  With no such log the tolerance is 100;
    otherwise it is [max(100 - distinctDays * toleranceRate, 10)], where
    distinctDays counts the distinct local calendar days of the in-window
    logs and toleranceRate is resolved at the dosage of a latest in-window
    log.  The result is always at least 10; when that toleranceRate is
    non-negative it equals [clamp(100 - distinctDays * toleranceRate, 10, 100)]
    and is at most 100, which is so for every substance of the catalog;
    toleranceRate 12 on 5 distinct days yields 40. *)
Theorem C6_tolerance_from_recent_usage
    (localDate : R -> Z * Z * Z) (logs : list SubstanceLog)
    (substance : Substance) (now : R) :
  let window := List.filter (inWindow substance now) logs in
  let days := distinctDays localDate window in
  let t := calculateTolerance localDate logs substance now in
  (forall l, In l window <->
             In l logs /\ substanceId l = s_id substance /\
             timestamp l > now - 7 * 24 * 60 * 60 * 1000) /\
  (Forall (fun l => timestamp l <= now) logs ->
   forall l, In l window <->
             In l logs /\ substanceId l = s_id substance /\
             now - 7 * 24 * 60 * 60 * 1000 < timestamp l <= now) /\
  (window = [] -> t = 100) /\
  (window <> [] ->
   exists lastLog,
     In lastLog window /\
     Forall (fun l => timestamp l <= timestamp lastLog) window /\
     let rate := toleranceRate (getDosePK substance (dosage lastLog)) in
     t = Rmax (100 - INR days * rate) 10 /\
     (0 <= rate -> t = clamp (100 - INR days * rate) 10 100 /\ t <= 100) /\
     (rate = 12 -> days = 5%nat -> t = 40)) /\
  10 <= t /\
  (In substance substances -> t <= 100).
Proof.
  intros window days t.
  assert (Hw : forall l, In l window <->
                         In l logs /\ substanceId l = s_id substance /\
                         timestamp l > now - 7 * 24 * 60 * 60 * 1000).
  { intros l. unfold window. rewrite List.filter_In, inWindow_iff. reflexivity. }
  split; [exact Hw|]. split; [|split; [|split; [|split]]].
  - intros Hpast l. rewrite Hw. rewrite List.Forall_forall in Hpast.
    split.
    + intros (Hin & Hid & Hts). specialize (Hpast l Hin). repeat split; try assumption; lra.
    + intros (Hin & Hid & Hts). repeat split; try assumption; lra.
  - apply tolerance_empty.
  - intros Hne.
    destruct (tolerance_nonempty localDate logs substance now Hne)
      as (lastLog & Hin & Hmax & Ht).
    exists lastLog. split; [exact Hin|]. split; [exact Hmax|].
    intros rate. fold window days rate t in Ht. split; [exact Ht|]. split.
    + intros Hrate. pose proof (pos_INR days) as Hd.
      assert (Hx : 100 - INR days * rate <= 100) by nra.
      rewrite Ht. unfold clamp. rewrite (Rmin_left _ 100) by exact Hx.
      split; [apply Rmax_comm|]. apply Rmax_lub; lra.
    + intros Hr Hd. rewrite Ht, Hr, Hd. simpl INR.
      rewrite Rmax_left by lra. lra.
  - apply tolerance_floor.
  - intros Hcat. apply tolerance_ceiling. intros dose.
    now apply catalog_toleranceRate.
Qed.

Lemma januaryDate_at (k : Z) (ms : R) :
  IZR k <= ms / 86400000 < IZR k + 1 -> januaryDate ms = (1970, 0, 1 + k)%Z.
Proof. intros H. unfold januaryDate. now rewrite (Zfloor_eq k). Qed.

Lemma filter_all {A} (f : A -> bool) (l : list A) :
  Forall (fun x => f x = true) l -> List.filter f l = l.
Proof.
  induction 1 as [|x l Hx _ IH]; simpl; [reflexivity|]. now rewrite Hx, IH.
Qed.

Lemma fiveDays_window : List.filter (inWindow Catalog.nicotine (5 * dayMs)) fiveDays = fiveDays.
Proof.
  apply filter_all. unfold fiveDays.
  repeat (apply List.Forall_cons;
          [apply inWindow_iff; split; [reflexivity|simpl; unfold dayMs; lra]|]).
  apply List.Forall_nil.
Qed.

Lemma fiveDays_distinct : distinctDays januaryDate fiveDays = 5%nat.
Proof.
  unfold distinctDays, fiveDays. cbn [map timestamp logOf].
  rewrite (januaryDate_at 0 (0.5 * dayMs)) by (unfold dayMs; lra).
  rewrite (januaryDate_at 1 (1.5 * dayMs)) by (unfold dayMs; lra).
  rewrite (januaryDate_at 2 (2.5 * dayMs)) by (unfold dayMs; lra).
  rewrite (januaryDate_at 3 (3.5 * dayMs)) by (unfold dayMs; lra).
  rewrite (januaryDate_at 4 (4.5 * dayMs)) by (unfold dayMs; lra).
  vm_compute. reflexivity.
Qed.

Lemma C6_tolerance_from_recent_usage_witness :
  Forall (fun l => timestamp l <= 5 * dayMs) fiveDays /\
  List.filter (inWindow Catalog.nicotine (5 * dayMs)) fiveDays <> [] /\
  In Catalog.nicotine substances /\
  calculateTolerance januaryDate fiveDays Catalog.nicotine (5 * dayMs) = 40.
Proof.
  assert (Hpast : Forall (fun l => timestamp l <= 5 * dayMs) fiveDays).
  { unfold fiveDays.
    repeat (apply List.Forall_cons; [simpl; unfold dayMs; lra|]).
    apply List.Forall_nil. }
  assert (Hne : List.filter (inWindow Catalog.nicotine (5 * dayMs)) fiveDays <> []).
  { rewrite fiveDays_window. discriminate. }
  assert (Hcat : In Catalog.nicotine substances) by (simpl; auto).
  split; [exact Hpast|]. split; [exact Hne|]. split; [exact Hcat|].
  destruct (C6_tolerance_from_recent_usage januaryDate fiveDays Catalog.nicotine
              (5 * dayMs))
    as (_ & Hwin & _ & Hsome & _ & Hceil).
  pose proof (Hwin Hpast) as _. pose proof (Hceil Hcat) as _.
  destruct (Hsome Hne) as (lastLog & _ & _ & _ & _ & H40).
  apply H40; [reflexivity|].
  rewrite fiveDays_window. apply fiveDays_distinct.
Defined.

(** * Further properties of the engine *)

(** ** Exponential decay *)

Lemma pow_half_1 : Math_pow 0.5 1 = 0.5.
Proof. unfold Math_pow. apply Rpower_1. lra. Qed.

Lemma pow_half_plus x y : Math_pow 0.5 (x + y) = Math_pow 0.5 x * Math_pow 0.5 y.
Proof. unfold Math_pow. apply Rpower_plus. Qed.

Lemma pow_half_strict x y : x < y -> Math_pow 0.5 y < Math_pow 0.5 x.
Proof.
  intros H. unfold Math_pow, Rpower. apply exp_increasing.
  pose proof ln_half_neg. nra.
Qed.

Lemma decay_nonneg_elapsed dose h e :
  0 <= e -> 0 < h -> calculateDecay dose h e = dose * Math_pow 0.5 (e / h).
Proof.
  intros He Hh. unfold calculateDecay. now rewrite Rltb_false by lra.
Qed.

(** X1: the half-life law.  For a positive half-life, waiting one more
    half-life halves what remains, whatever the dose and the time already
    elapsed; after exactly one half-life 100 becomes 50, at elapsed 0 the
    whole dose remains, and for negative elapsed time the result is 0. *)
Theorem X1_decay_halves_every_half_life (dose h e : R) :
  0 < h -> 0 <= e ->
  calculateDecay dose h (e + h) = calculateDecay dose h e / 2 /\
  calculateDecay 100 h h = 50 /\
  calculateDecay dose h 0 = dose /\
  (forall e', e' < 0 -> calculateDecay dose h e' = 0).
Proof.
  intros Hh He. repeat split.
  - rewrite !decay_nonneg_elapsed by lra.
    replace ((e + h) / h) with (e / h + 1) by (field; lra).
    rewrite pow_half_plus, pow_half_1. lra.
  - rewrite decay_nonneg_elapsed by lra.
    rewrite div_self by assumption. rewrite pow_half_1. lra.
  - rewrite decay_nonneg_elapsed by lra.
    replace (0 / h) with 0 by (unfold Rdiv; ring). rewrite pow_half_0. lra.
  - intros e' He'. unfold calculateDecay. now rewrite Rltb_true.
Qed.

Lemma X1_decay_halves_every_half_life_witness :
  0 < 5 /\ 0 <= 3 /\ calculateDecay 200 5 (3 + 5) = calculateDecay 200 5 3 / 2.
Proof.
  assert (Hh : 0 < 5) by lra. assert (He : 0 <= 3) by lra.
  split; [exact Hh|]. split; [exact He|].
  exact (proj1 (X1_decay_halves_every_half_life 200 5 3 Hh He)).
Defined.

(** X2: for a non-negative dose and a positive half-life the remaining amount
    stays between 0 and the dose and never increases with elapsed time. *)
Theorem X2_decay_bounded_and_decreasing (dose h : R) :
  0 <= dose -> 0 < h ->
  (forall e, 0 <= calculateDecay dose h e <= dose) /\
  (forall e1 e2, 0 <= e1 -> e1 <= e2 ->
                 calculateDecay dose h e2 <= calculateDecay dose h e1).
Proof.
  intros Hd Hh. split.
  - intros e. unfold calculateDecay, Rltb. case_bool_decide as He; [lra|].
    assert (Hq : 0 <= e / h) by (apply div_nonneg; lra).
    pose proof (pow_half_range _ Hq). nra.
  - intros e1 e2 H1 H12. rewrite !decay_nonneg_elapsed by lra.
    apply Rmult_le_compat_l; [assumption|]. apply pow_half_antitone.
    now apply div_le_compat.
Qed.

Lemma X2_decay_bounded_and_decreasing_witness :
  0 <= 100 /\ 0 < 2 /\ 0 <= calculateDecay 100 2 7 <= 100.
Proof.
  assert (Hd : 0 <= 100) by lra. assert (Hh : 0 < 2) by lra.
  split; [exact Hd|]. split; [exact Hh|].
  exact (proj1 (X2_decay_bounded_and_decreasing 100 2 Hd Hh) 7).
Defined.

(** ** The clearance horizon *)

Lemma pow_half_4_3_lower : 0.05 < Math_pow 0.5 4.3.
Proof.
  unfold Math_pow.
  destruct (Rlt_dec 0.05 (Rpower 0.5 4.3)) as [H|H]; [exact H|exfalso].
  assert (Hpos : 0 < Rpower 0.5 4.3) by apply exp_pos.
  assert (H10 : (Rpower 0.5 4.3) ^ 10 <= 0.05 ^ 10) by (apply pow_incr; lra).
  rewrite <- (Rpower_pow 10 (Rpower 0.5 4.3)) in H10 by exact Hpos.
  rewrite Rpower_mult in H10.
  replace (4.3 * INR 10) with (INR 43) in H10 by (simpl; lra).
  rewrite Rpower_pow in H10 by lra. simpl in H10. lra.
Qed.

Lemma pow_half_4_3_upper : Math_pow 0.5 4.3 < 0.051.
Proof.
  unfold Math_pow.
  destruct (Rlt_dec (Rpower 0.5 4.3) 0.051) as [H|H]; [exact H|exfalso].
  assert (H10 : 0.051 ^ 10 <= (Rpower 0.5 4.3) ^ 10) by (apply pow_incr; lra).
  rewrite <- (Rpower_pow 10 (Rpower 0.5 4.3)) in H10 by apply exp_pos.
  rewrite Rpower_mult in H10.
  replace (4.3 * INR 10) with (INR 43) in H10 by (simpl; lra).
  rewrite Rpower_pow in H10 by lra. simpl in H10. lra.
Qed.

(** X5: 4.3 half-lives after a dose, first-order decay leaves between 5% and
    5.1% of it: the horizon [calculateClearanceTime] returns is just short of
    the point where less than 5% remains. *)
Theorem X5_clearance_horizon_leaves_five_percent (substance : Substance) (dose : R) :
  0 < halfLife (getDosePK substance dose) ->
  let h := halfLife (getDosePK substance dose) in
  let clearanceHours := calculateClearanceTime substance dose / (60 * 60 * 1000) in
  clearanceHours = 4.3 * h /\
  5 < calculateDecay 100 h clearanceHours < 5.1.
Proof.
  intros Hh h clearanceHours.
  assert (Hc : clearanceHours = 4.3 * h).
  { unfold clearanceHours, calculateClearanceTime. fold h. field. }
  split; [exact Hc|]. rewrite Hc.
  rewrite decay_nonneg_elapsed by (fold h in Hh; nra).
  replace (4.3 * h / h) with 4.3 by (field; fold h in Hh; lra).
  pose proof pow_half_4_3_lower. pose proof pow_half_4_3_upper. lra.
Qed.

Lemma X5_clearance_horizon_leaves_five_percent_witness :
  0 < halfLife (getDosePK Catalog.nicotine 2) /\
  5 < calculateDecay 100 (halfLife (getDosePK Catalog.nicotine 2))
        (calculateClearanceTime Catalog.nicotine 2 / (60 * 60 * 1000)) < 5.1.
Proof.
  assert (Hh : 0 < halfLife (getDosePK Catalog.nicotine 2)) by (simpl; lra).
  split; [exact Hh|].
  exact (proj2 (X5_clearance_horizon_leaves_five_percent Catalog.nicotine 2 Hh)).
Defined.

(** X6: a log whose horizon is the one [logSubstance] gives it is, from its
    peak until it expires, more than 5% effective: past the peak the
    [effectiveness < 1] guard of the recompute never skips an active log. *)
Theorem X6_active_log_past_peak_is_effective
    (log : SubstanceLog) (substance : Substance) (now : R) :
  let pk := getDosePK substance (dosage log) in
  0 < halfLife pk -> 0 <= peakTime pk ->
  expectedClearance log = timestamp log + calculateClearanceTime substance (dosage log) ->
  timestamp log + peakTime pk * (1000 * 60) <= now ->
  expectedClearance log > now ->
  5 < getEffectiveness log substance now <= 100 /\
  Rltb (getEffectiveness log substance now) 1 = false.
Proof.
  intros pk Hh Hp Hclear Hpeak Hactive.
  assert (Hgt : 5 < getEffectiveness log substance now).
  { destruct (Req_dec now (timestamp log + peakTime pk * (1000 * 60))) as [->|Hne].
    - unfold pk. rewrite eff_at_peak by exact Hp. lra.
    - assert (Hts : timestamp log <= now) by nra.
      assert (He : peakTime pk < (now - timestamp log) / (1000 * 60)).
      { apply (Rmult_lt_reg_r (1000 * 60)); [lra|].
        replace ((now - timestamp log) / (1000 * 60) * (1000 * 60))
          with (now - timestamp log) by field. lra. }
      rewrite eff_decay by assumption. fold pk.
      set (e := (now - timestamp log) / (1000 * 60)) in *.
      assert (Hx : (e - peakTime pk) / 60 / halfLife pk < 4.3).
      { apply (Rmult_lt_reg_r (halfLife pk)); [assumption|].
        replace ((e - peakTime pk) / 60 / halfLife pk * halfLife pk)
          with ((e - peakTime pk) / 60) by (field; lra).
        assert (He' : e * (1000 * 60) = now - timestamp log)
          by (unfold e; field).
        unfold calculateClearanceTime in Hclear. fold pk in Hclear. lra. }
      pose proof (pow_half_strict _ _ Hx). pose proof pow_half_4_3_lower. lra. }
  pose proof (eff_range log substance now Hh) as Hr. fold pk in Hr.
  split; [lra|]. apply Rltb_false. lra.
Qed.

Lemma X6_active_log_past_peak_is_effective_witness :
  let log := logOf "n2" Catalog.nicotine 2 0 in
  5 < getEffectiveness log Catalog.nicotine (60 * (1000 * 60)) <= 100.
Proof.
  intros log.
  assert (Hh : 0 < halfLife (getDosePK Catalog.nicotine (dosage log))) by (simpl; lra).
  assert (Hp : 0 <= peakTime (getDosePK Catalog.nicotine (dosage log))) by (simpl; lra).
  assert (Hpeak : timestamp log
                  + peakTime (getDosePK Catalog.nicotine (dosage log)) * (1000 * 60)
                  <= 60 * (1000 * 60)) by (simpl; lra).
  assert (Hact : expectedClearance log > 60 * (1000 * 60)).
  { simpl. unfold calculateClearanceTime. simpl. lra. }
  exact (proj1 (X6_active_log_past_peak_is_effective log Catalog.nicotine
                  (60 * (1000 * 60)) Hh Hp eq_refl Hpeak Hact)).
Defined.

(** ** The active-level curve *)

Lemma decay_range dose h e :
  0 <= dose -> 0 < h -> 0 <= calculateDecay dose h e <= dose.
Proof.
  intros Hd Hh. unfold calculateDecay, Rltb. case_bool_decide as He; [lra|].
  assert (Hq : 0 <= e / h) by (apply div_nonneg; lra).
  pose proof (pow_half_range _ Hq). nra.
Qed.

Lemma activeLevel_ramp dose pk e :
  0 <= e -> e <= peakTime pk -> 0 < peakTime pk -> 0 < onsetTime pk ->
  calculateActiveLevel dose pk e
  = dose * sin ((PI / 2) * Rmin (e / onsetTime pk) 1).
Proof.
  intros He Hep Hp Ho. unfold calculateActiveLevel.
  rewrite Rltb_false by assumption. rewrite Rleb_true by assumption.
  rewrite bool_decide_false by lra. rewrite Rgtb_true by assumption.
  replace (e / peakTime pk * (peakTime pk / onsetTime pk)) with (e / onsetTime pk)
    by (field; lra).
  reflexivity.
Qed.

Lemma activeLevel_decay dose pk e :
  0 <= e -> peakTime pk < e ->
  calculateActiveLevel dose pk e
  = calculateDecay dose (halfLife pk) ((e - peakTime pk) / 60).
Proof.
  intros He Hep. unfold calculateActiveLevel.
  rewrite Rltb_false by assumption. rewrite Rleb_false by assumption.
  replace (halfLife pk * 60 / 60) with (halfLife pk) by field. reflexivity.
Qed.

(** X3: for a non-negative dose, a positive half-life and a non-negative peak
    time, the active level is between 0 and the dose at every elapsed time,
    whichever of the two ramps (sine when onsetTime > 0, linear otherwise)
    applies. *)
Theorem X3_active_level_within_dose (dose : R) (pk : DosePK) (elapsedMinutes : R) :
  0 <= dose -> 0 < halfLife pk -> 0 <= peakTime pk ->
  0 <= calculateActiveLevel dose pk elapsedMinutes <= dose.
Proof.
  intros Hd Hh Hp.
  destruct (Rlt_dec elapsedMinutes 0) as [Hneg|Hnn].
  { unfold calculateActiveLevel. rewrite Rltb_true by assumption. lra. }
  assert (He : 0 <= elapsedMinutes) by lra.
  destruct (Rle_dec elapsedMinutes (peakTime pk)) as [Hr|Hr].
  - destruct (Req_dec (peakTime pk) 0) as [Hz|Hnz].
    + unfold calculateActiveLevel. rewrite Rltb_false, Rleb_true by assumption.
      rewrite bool_decide_true by assumption. lra.
    + assert (Hpp : 0 < peakTime pk) by lra.
      destruct (Rlt_dec 0 (onsetTime pk)) as [Ho|Ho].
      * rewrite activeLevel_ramp by assumption.
        pose proof (ramp_range (elapsedMinutes / onsetTime pk)
                      (div_nonneg _ _ Ho He)). nra.
      * unfold calculateActiveLevel. rewrite Rltb_false, Rleb_true by assumption.
        rewrite bool_decide_false by assumption. rewrite Rgtb_false by lra.
        pose proof (div_nonneg elapsedMinutes (peakTime pk) Hpp He).
        assert (elapsedMinutes / peakTime pk <= 1).
        { rewrite <- (div_self (peakTime pk) Hpp). now apply div_le_compat. }
        nra.
  - rewrite activeLevel_decay by lra. now apply decay_range.
Qed.

Lemma X3_active_level_within_dose_witness :
  0 <= calculateActiveLevel 200 (mkPK 5 15 45 10 5) 30 <= 200.
Proof.
  apply (X3_active_level_within_dose 200 (mkPK 5 15 45 10 5) 30); simpl; lra.
Defined.

(** X4: the two onset ramps of the engine.  After the peak the active level
    of a dose of 100 is the effectiveness.  Before it, with onsetTime > 0,
    the active level follows the sine ramp over the onset time, not over the
    peak time: it is [dose * sin(PI/2 * min(elapsed/onsetTime, 1))], so from
    onsetTime to peakTime it already holds the full dose; the two functions
    agree on the whole time axis when onsetTime = peakTime > 0. *)
Theorem X4_active_level_and_effectiveness
    (log : SubstanceLog) (substance : Substance) (now dose : R) :
  let pk := getDosePK substance (dosage log) in
  let e := (now - timestamp log) / (1000 * 60) in
  0 < peakTime pk -> 0 < onsetTime pk ->
  (peakTime pk < e ->
   calculateActiveLevel 100 pk e = getEffectiveness log substance now) /\
  (0 <= e <= peakTime pk ->
   calculateActiveLevel dose pk e
   = dose * sin ((PI / 2) * Rmin (e / onsetTime pk) 1)) /\
  (onsetTime pk <= e <= peakTime pk -> calculateActiveLevel dose pk e = dose) /\
  (onsetTime pk = peakTime pk ->
   calculateActiveLevel 100 pk e = getEffectiveness log substance now).
Proof.
  intros pk e Hp Ho.
  assert (Hts : 0 <= e -> timestamp log <= now).
  { intros He0. unfold e in He0.
    apply (Rmult_le_compat_r (1000 * 60)) in He0; [|lra].
    replace ((now - timestamp log) / (1000 * 60) * (1000 * 60))
      with (now - timestamp log) in He0 by field. lra. }
  assert (Hpost : peakTime pk < e ->
                  calculateActiveLevel 100 pk e = getEffectiveness log substance now).
  { intros He. assert (He0 : 0 <= e) by lra.
    rewrite activeLevel_decay by assumption.
    rewrite eff_decay by (auto || assumption). fold pk e.
    unfold calculateDecay. rewrite Rltb_false; [reflexivity|].
    apply div_nonneg; lra. }
  assert (Hramp : 0 <= e <= peakTime pk ->
                  calculateActiveLevel dose pk e
                  = dose * sin ((PI / 2) * Rmin (e / onsetTime pk) 1)).
  { intros [He0 He1]. now apply activeLevel_ramp. }
  split; [exact Hpost|]. split; [exact Hramp|]. split.
  - intros [Hoe Hep]. rewrite Hramp by lra.
    rewrite Rmin_right.
    + rewrite Rmult_1_r, sin_PI2. lra.
    + rewrite <- (div_self (onsetTime pk) Ho). now apply div_le_compat.
  - intros Heq. destruct (Rlt_dec e 0) as [Hneg|Hnn].
    { unfold calculateActiveLevel, getEffectiveness. fold e.
      now rewrite !Rltb_true by assumption. }
    destruct (Rle_dec e (peakTime pk)) as [Hr|Hr]; [|apply Hpost; lra].
    rewrite activeLevel_ramp by lra.
    rewrite eff_ramp by (auto with real || lra). fold pk e.
    rewrite Heq. lra.
Qed.

Lemma X4_active_level_and_effectiveness_witness :
  let log := logOf "n2" Catalog.nicotine 2 0 in
  calculateActiveLevel 100 (getDosePK Catalog.nicotine (dosage log))
    ((10 * (1000 * 60) - timestamp log) / (1000 * 60)) = 100.
Proof.
  intros log.
  assert (Hp : 0 < peakTime (getDosePK Catalog.nicotine (dosage log))) by (simpl; lra).
  assert (Ho : 0 < onsetTime (getDosePK Catalog.nicotine (dosage log))) by (simpl; lra).
  apply (proj1 (proj2 (proj2
           (X4_active_level_and_effectiveness log Catalog.nicotine
              (10 * (1000 * 60)) 100 Hp Ho)))).
  simpl. lra.
Defined.

(** ** Timeline: the degenerate intervals and the shape of the samples *)

Lemma nearestEven_nonneg (y : R) : 0 <= y -> (0 <= Double.nearestEven y)%Z.
Proof.
  intros Hy. unfold Double.nearestEven.
  assert (Hn : (0 <= Zfloor y)%Z) by now apply (Zfloor_lub 0).
  repeat destruct (_ : bool); lia.
Qed.

Lemma round_nonneg (x : R) : 0 <= x -> 0 <= Double.round x.
Proof.
  intros Hx. unfold Double.round, Double.ulp.
  pose proof (pow2_pos (Double.exponent x - 52)) as Hp.
  assert (Hy : 0 <= x / powerRZ 2 (Double.exponent x - 52)) by now apply div_nonneg.
  apply nearestEven_nonneg, IZR_le in Hy. nra.
Qed.

Lemma timelineLoop_stuck log substance interval total (fuel : nat) :
  interval <= 0 -> 0 <= total ->
  forall m pts, m <= 0 ->
    timelineLoop fuel log substance interval total m pts = None.
Proof.
  intros Hi Ht. induction fuel as [|fuel IH]; intros m pts Hm; simpl;
    rewrite Rleb_true by lra; [reflexivity|].
  apply IH. unfold Double.add. apply round_nonpos. lra.
Qed.

(** X7: with a zero or negative interval and a non-negative duration the
    sampling loop never leaves its body: no amount of fuel yields a timeline.
    With a negative duration the loop body never runs and the timeline is
    empty, whatever the interval.  (The duration in minutes is the product
    the code computes.) *)
Theorem X7_timeline_degenerate_inputs
    (log : SubstanceLog) (substance : Substance) (intervalMinutes : R) :
  let totalMinutes := Double.mul (duration (getDosePK substance (dosage log))) 60 in
  (intervalMinutes <= 0 -> 0 <= totalMinutes ->
   forall fuel, generateTimeline fuel log substance intervalMinutes = None) /\
  (totalMinutes < 0 ->
   forall fuel, generateTimeline fuel log substance intervalMinutes = Some []).
Proof.
  intros totalMinutes. split.
  - intros Hi Ht fuel. unfold generateTimeline. apply timelineLoop_stuck; (assumption || lra).
  - intros Ht fuel. unfold generateTimeline. fold totalMinutes.
    destruct fuel; simpl; now rewrite Rleb_false by assumption.
Qed.

Lemma X7_timeline_degenerate_inputs_witness :
  generateTimeline 1000 (logOf "n2" Catalog.nicotine 2 0) Catalog.nicotine 0 = None.
Proof.
  assert (Hi : 0 <= 0) by lra.
  assert (Ht : 0 <= Double.mul (duration (getDosePK Catalog.nicotine
                                  (dosage (logOf "n2" Catalog.nicotine 2 0)))) 60).
  { apply round_nonneg. simpl. pose proof (r1_lerp_range 35 50 ((2 - 1) / 5)) as H.
    replace (IZR 35 / 10) with 3.5 in H by lra.
    replace (IZR 50 / 10) with 5 in H by lra.
    assert (35 <= 50)%Z as Hz by lia. specialize (H Hz). lra. }
  exact (proj1 (X7_timeline_degenerate_inputs (logOf "n2" Catalog.nicotine 2 0)
                  Catalog.nicotine 0) Hi Ht 1000%nat).
Defined.





(** ** Receptor impacts: keys, range and monotonicity *)

Lemma impact_keys ints eff r :
  is_Some (calculateReceptorImpact ints eff !! r) <-> In r (map receptorId ints).
Proof.
  unfold calculateReceptorImpact. induction ints as [|i l IH] using rev_ind.
  - simpl. rewrite lookup_empty. split; [intros [? [=]]|contradiction].
  - rewrite foldl_snoc, map_app, in_app_iff. unfold impactStep at 1.
    rewrite lookup_insert. simpl. destruct (decide (receptorId i = r)) as [->|Hne].
    + split; [auto|]. intros _. eexists. reflexivity.
    + rewrite IH. tauto.
Qed.

Lemma scaledSum_mono r eff1 eff2 l :
  Forall (fun i => 0 <= magnitude i) l -> eff1 <= eff2 ->
  scaledSum r eff1 l <= scaledSum r eff2 l.
Proof.
  intros Hl He. induction Hl as [|x l Hx _ IH]; simpl; [lra|].
  fold (scaledSum r eff1 l) (scaledSum r eff2 l). case_bool_decide; [|assumption].
  assert (magnitude x * eff1 / 100 <= magnitude x * eff2 / 100)
    by (apply div_le_compat; nra).
  lra.
Qed.

(** X9: the impact map has an entry exactly for the receptors the substance's
    interactions name.  For non-negative magnitudes and effectiveness every
    entry lies in [0,100] and grows (weakly) with the effectiveness; at
    effectiveness 0 every entry is 0. *)
Theorem X9_impact_keys_range_monotone
    (ints : list ReceptorInteraction) (eff1 eff2 : R) :
  Forall (fun i => 0 <= magnitude i) ints -> 0 <= eff1 -> eff1 <= eff2 ->
  (forall r, is_Some (calculateReceptorImpact ints eff1 !! r)
             <-> In r (map receptorId ints)) /\
  (forall r v, calculateReceptorImpact ints eff1 !! r = Some v -> 0 <= v <= 100) /\
  (forall r v1 v2,
      calculateReceptorImpact ints eff1 !! r = Some v1 ->
      calculateReceptorImpact ints eff2 !! r = Some v2 -> v1 <= v2) /\
  (forall r v, calculateReceptorImpact ints 0 !! r = Some v -> v = 0).
Proof.
  intros Hm He1 He12. split; [|split; [|split]].
  - intros r. apply impact_keys.
  - intros r v. now apply impact_range.
  - intros r v1 v2. rewrite !impact_sum_capped by (assumption || lra).
    destruct (targets r ints); [|discriminate]. intros [= <-] [= <-].
    apply Rle_min_compat_r. now apply scaledSum_mono.
  - intros r v. rewrite impact_sum_capped by (assumption || lra).
    destruct (targets r ints); [|discriminate]. intros [= <-].
    assert (Hz : scaledSum r 0 ints = 0).
    { clear. unfold scaledSum. induction ints as [|x l IH]; simpl; [reflexivity|].
      rewrite IH. case_bool_decide; lra. }
    rewrite Hz. apply Rmin_left. lra.
Qed.

Lemma X9_impact_keys_range_monotone_witness :
  is_Some (calculateReceptorImpact (receptorInteractions Catalog.caffeine) 40 !! "a2a").
Proof.
  assert (Hm : Forall (fun i => 0 <= magnitude i) (receptorInteractions Catalog.caffeine)).
  { simpl. repeat (apply List.Forall_cons; [simpl; lra|]). apply List.Forall_nil. }
  assert (H1 : 0 <= 40) by lra. assert (H2 : 40 <= 90) by lra.
  apply (proj1 (X9_impact_keys_range_monotone
                  (receptorInteractions Catalog.caffeine) 40 90 Hm H1 H2)).
  simpl. auto.
Defined.

(** ** Rounding *)

Lemma Math_round_fix (z : Z) x : x = IZR z -> Math_round x = x.
Proof. intros ->. apply Math_round_IZR. Qed.

Lemma r1_fix (z : Z) x : x = IZR z / 10 -> r1 x = x.
Proof. intros ->. apply r1_tenths. Qed.

(** X15: [Math.round] returns an integer at most 1/2 away from its argument
    (halves go up), leaves integers alone and is monotone; [r1] returns a
    multiple of 0.1 at most 0.05 away from its argument, is monotone and
    rounding twice is rounding once. *)
Theorem X15_rounding (x y : R) :
  (exists z : Z, Math_round x = IZR z) /\
  x - / 2 < Math_round x <= x + / 2 /\
  (forall z : Z, Math_round (IZR z) = IZR z) /\
  (forall z : Z, Math_round (IZR z + / 2) = IZR z + 1) /\
  (exists z : Z, r1 x = IZR z / 10) /\
  x - 0.05 < r1 x <= x + 0.05 /\
  r1 (r1 x) = r1 x /\
  (x <= y -> Math_round x <= Math_round y /\ r1 x <= r1 y).
Proof.
  split; [eexists; reflexivity|]. split; [apply Math_round_bounds|].
  split; [apply Math_round_IZR|]. split.
  { intros z. unfold Math_round. rewrite <- plus_IZR. f_equal.
    apply Zfloor_eq. rewrite plus_IZR. lra. }
  split; [eexists; reflexivity|]. split.
  { unfold r1. pose proof (Math_round_bounds (x * 10)). lra. }
  split; [apply (r1_fix (Zfloor (x * 10 + / 2))); reflexivity|].
  intros Hxy. split; [now apply Math_round_le|now apply r1_le].
Qed.

Lemma X15_rounding_witness : Math_round 2 <= Math_round 2.5 /\ r1 2 <= r1 2.5.
Proof.
  assert (H : 2 <= 2.5) by lra.
  exact (proj2 (proj2 (proj2 (proj2 (proj2 (proj2 (proj2 (X15_rounding 2 2.5))))))) H).
Defined.

(** ** The catalog: validity, monotonicity and anchor values of the kinetics *)

Lemma lerp_between a b t lo hi :
  lo <= a <= hi -> lo <= b <= hi -> lo <= lerp a b t <= hi.
Proof.
  intros Ha Hb. pose proof (lerp_bounds a b t) as H.
  unfold Rmin, Rmax in H. destruct (Rle_dec a b); lra.
Qed.

Lemma r1_between (zlo zhi : Z) x :
  IZR zlo / 10 <= x <= IZR zhi / 10 -> IZR zlo / 10 <= r1 x <= IZR zhi / 10.
Proof.
  intros [Hl Hh]. split.
  - apply Rle_trans with (r1 (IZR zlo / 10)); [rewrite r1_tenths; lra|now apply r1_le].
  - apply Rle_trans with (r1 (IZR zhi / 10)); [now apply r1_le|rewrite r1_tenths; lra].
Qed.

Lemma round_between (zlo zhi : Z) x :
  IZR zlo <= x <= IZR zhi -> IZR zlo <= Math_round x <= IZR zhi.
Proof.
  intros [Hl Hh]. split.
  - apply Rle_trans with (Math_round (IZR zlo));
      [rewrite Math_round_IZR; lra|now apply Math_round_le].
  - apply Rle_trans with (Math_round (IZR zhi));
      [now apply Math_round_le|rewrite Math_round_IZR; lra].
Qed.

Lemma clamp01_mono t1 t2 : t1 <= t2 -> Rmax 0 (Rmin 1 t1) <= Rmax 0 (Rmin 1 t2).
Proof. intros H. unfold Rmax, Rmin. repeat destruct Rle_dec; lra. Qed.

Lemma lerp_mono a b t1 t2 : a <= b -> t1 <= t2 -> lerp a b t1 <= lerp a b t2.
Proof.
  intros Hab Ht. unfold lerp. pose proof (clamp01_mono t1 t2 Ht). nra.
Qed.

Lemma lerp_anti a b t1 t2 : b <= a -> t1 <= t2 -> lerp a b t2 <= lerp a b t1.
Proof.
  intros Hab Ht. unfold lerp. pose proof (clamp01_mono t1 t2 Ht). nra.
Qed.

Lemma r1_lerp_in (zlo zhi : Z) a b t :
  IZR zlo / 10 <= a <= IZR zhi / 10 -> IZR zlo / 10 <= b <= IZR zhi / 10 ->
  IZR zlo / 10 <= r1 (lerp a b t) <= IZR zhi / 10.
Proof. intros Ha Hb. apply r1_between. now apply lerp_between. Qed.

Lemma round_lerp_in (zlo zhi : Z) a b t :
  IZR zlo <= a <= IZR zhi -> IZR zlo <= b <= IZR zhi ->
  IZR zlo <= Math_round (lerp a b t) <= IZR zhi.
Proof. intros Ha Hb. apply round_between. now apply lerp_between. Qed.

Section CatalogKinetics.

Variable dose : R.

Lemma caffeine_kinetics :
  let pk := getDosePK Catalog.caffeine dose in
  4.5 <= halfLife pk <= 6.5 /\ onsetTime pk = 15 /\ 40 <= peakTime pk <= 50 /\
  9.9 <= duration pk <= 14.3 /\ toleranceRate pk = 5.
Proof.
  simpl.
  pose proof (r1_lerp_in 45 65 4.5 6.5 ((dose - 50) / 350)) as Hh.
  pose proof (round_lerp_in 40 50 40 50 ((dose - 50) / 350)) as Hp.
  pose proof (r1_between 99 143 (r1 (lerp 4.5 6.5 ((dose - 50) / 350)) * 2.2)) as Hd.
  lra.
Qed.

Lemma l_theanine_kinetics :
  let pk := getDosePK Catalog.l_theanine dose in
  halfLife pk = 1.1 /\ 25 <= onsetTime pk <= 35 /\ peakTime pk = 50 /\
  3 <= duration pk <= 7 /\ toleranceRate pk = 1.
Proof.
  simpl.
  pose proof (round_lerp_in 25 35 35 25 ((dose - 100) / 300)) as Ho.
  pose proof (r1_lerp_in 30 70 3 7 ((dose - 100) / 300)) as Hd.
  lra.
Qed.

Lemma nicotine_kinetics :
  let pk := getDosePK Catalog.nicotine dose in
  halfLife pk = 2 /\ onsetTime pk = 5 /\ peakTime pk = 15 /\
  3.5 <= duration pk <= 5 /\ toleranceRate pk = 12.
Proof.
  simpl. pose proof (r1_lerp_in 35 50 3.5 5 ((dose - 1) / 5)) as Hd. lra.
Qed.

Lemma l_tyrosine_kinetics :
  let pk := getDosePK Catalog.l_tyrosine dose in
  1.8 <= halfLife pk <= 2.5 /\ onsetTime pk = 30 /\ 75 <= peakTime pk <= 120 /\
  4 <= duration pk <= 6 /\ toleranceRate pk = 2.
Proof.
  simpl.
  pose proof (r1_lerp_in 18 25 1.8 2.5 ((dose - 250) / 750)) as Hh.
  pose proof (round_lerp_in 75 120 75 120 ((dose - 250) / 750)) as Hp.
  pose proof (r1_lerp_in 40 60 4 6 ((dose - 250) / 750)) as Hd.
  lra.
Qed.

Lemma flmodafinil_kinetics :
  let pk := getDosePK Catalog.flmodafinil dose in
  12 <= halfLife pk <= 15 /\ 15 <= onsetTime pk <= 25 /\ 180 <= peakTime pk <= 300 /\
  14 <= duration pk <= 18 /\ toleranceRate pk = 3.
Proof.
  simpl.
  pose proof (r1_lerp_in 120 150 12 15 ((dose - 25) / 75)) as Hh.
  pose proof (round_lerp_in 15 25 15 25 ((dose - 25) / 75)) as Ho.
  pose proof (round_lerp_in 180 300 180 300 ((dose - 25) / 75)) as Hp.
  pose proof (r1_lerp_in 140 180 14 18 ((dose - 25) / 75)) as Hd.
  lra.
Qed.

Lemma bromantane_kinetics :
  let pk := getDosePK Catalog.bromantane dose in
  halfLife pk = 11 /\ onsetTime pk = 90 /\ 165 <= peakTime pk <= 210 /\
  duration pk = 24 /\ toleranceRate pk = 1.
Proof.
  simpl. pose proof (round_lerp_in 165 210 165 210 ((dose - 25) / 75)) as Hp. lra.
Qed.

Lemma shilajit_kinetics :
  let pk := getDosePK Catalog.shilajit dose in
  halfLife pk = 7 /\ onsetTime pk = 60 /\ 150 <= peakTime pk <= 210 /\
  10 <= duration pk <= 14 /\ toleranceRate pk = 2.
Proof.
  simpl.
  pose proof (round_lerp_in 150 210 150 210 ((dose - 250) / 250)) as Hp.
  pose proof (r1_lerp_in 100 140 10 14 ((dose - 250) / 250)) as Hd.
  lra.
Qed.

End CatalogKinetics.

(** X11: every substance of the catalog resolves, at every dose (also a
    negative or an arbitrarily large one), to usable kinetics: half-life in
    [1.1, 15] hours, onset in [5, 90] minutes and not after the peak, peak in
    [15, 300] minutes and within the duration, duration in [3, 24] hours and
    tolerance rate in [1, 12].  In particular the half-life and the peak time
    are positive. *)
Theorem X11_catalog_kinetics_valid (s : Substance) (dose : R) :
  In s substances ->
  let pk := getDosePK s dose in
  1.1 <= halfLife pk <= 15 /\
  5 <= onsetTime pk <= 90 /\
  15 <= peakTime pk <= 300 /\
  3 <= duration pk <= 24 /\
  1 <= toleranceRate pk <= 12 /\
  onsetTime pk <= peakTime pk /\
  peakTime pk <= duration pk * 60.
Proof.
  intros Hin. simpl in Hin.
  destruct Hin as [<-|[<-|[<-|[<-|[<-|[<-|[<-|[]]]]]]]]; intros pk; subst pk.
  - pose proof (caffeine_kinetics dose) as H. cbv zeta in H. lra.
  - pose proof (l_theanine_kinetics dose) as H. cbv zeta in H. lra.
  - pose proof (nicotine_kinetics dose) as H. cbv zeta in H. lra.
  - pose proof (l_tyrosine_kinetics dose) as H. cbv zeta in H. lra.
  - pose proof (flmodafinil_kinetics dose) as H. cbv zeta in H. lra.
  - pose proof (bromantane_kinetics dose) as H. cbv zeta in H. lra.
  - pose proof (shilajit_kinetics dose) as H. cbv zeta in H. lra.
Qed.

Lemma X11_catalog_kinetics_valid_witness :
  In Catalog.flmodafinil substances /\
  1.1 <= halfLife (getDosePK Catalog.flmodafinil (-3)) <= 15.
Proof.
  assert (H : In Catalog.flmodafinil substances) by (simpl; auto 10).
  split; [exact H|].
  exact (proj1 (X11_catalog_kinetics_valid Catalog.flmodafinil (-3) H)).
Defined.

(** X12: a larger dose never shortens the kinetics: for every substance of
    the catalog the resolved half-life, peak time and duration are
    non-decreasing in the dose, and the tolerance rate does not depend on the
    dose at all. *)
Theorem X12_catalog_kinetics_monotone_in_dose (s : Substance) (d1 d2 : R) :
  In s substances -> d1 <= d2 ->
  halfLife (getDosePK s d1) <= halfLife (getDosePK s d2) /\
  peakTime (getDosePK s d1) <= peakTime (getDosePK s d2) /\
  duration (getDosePK s d1) <= duration (getDosePK s d2) /\
  toleranceRate (getDosePK s d1) = toleranceRate (getDosePK s d2).
Proof.
  intros Hin Hd. simpl in Hin.
  destruct Hin as [<-|[<-|[<-|[<-|[<-|[<-|[<-|[]]]]]]]]; simpl;
    (split; [|split; [|split; [|reflexivity]]]);
    repeat first
      [ lra
      | apply r1_le
      | apply Math_round_le
      | apply lerp_mono; [lra|]
      | apply div_le_compat; [lra|]
      | apply Rmult_le_compat_r; [lra|] ].
Qed.

Lemma X12_catalog_kinetics_monotone_in_dose_witness :
  halfLife (getDosePK Catalog.caffeine 100) <= halfLife (getDosePK Catalog.caffeine 200).
Proof.
  assert (H : In Catalog.caffeine substances) by (simpl; auto).
  assert (Hd : 100 <= 200) by lra.
  exact (proj1 (X12_catalog_kinetics_monotone_in_dose Catalog.caffeine 100 200 H Hd)).
Defined.

Lemma lerp_at_low a b lo w dose : 0 < w -> dose <= lo -> lerp a b ((dose - lo) / w) = a.
Proof. intros Hw Hd. apply lerp_low. apply div_pos_le0; lra. Qed.

Lemma lerp_at_high a b lo w dose : 0 < w -> lo + w <= dose -> lerp a b ((dose - lo) / w) = b.
Proof. intros Hw Hd. apply lerp_high. apply div_pos_ge1; lra. Qed.

(** X13: the calibration table.  At or below its low anchor dose, and at or
    above its high anchor dose, each substance of the catalog resolves to
    fixed kinetics: the rounded calibration endpoints listed in
    [anchorKinetics] (caffeine: 4.5 h half-life, 40 min peak and 9.9 h
    duration up to 50 mg; 6.5 h, 50 min and 14.3 h from 400 mg on). *)
Theorem X13_kinetics_at_and_beyond_anchors
    (s : Substance) (lo hi : R) (pkLo pkHi : DosePK) (dose : R) :
  In (s, (lo, hi), (pkLo, pkHi)) anchorKinetics ->
  map fst anchorKinetics = calibration /\
  (dose <= lo -> getDosePK s dose = pkLo) /\
  (hi <= dose -> getDosePK s dose = pkHi).
Proof.
  intros Hin. split; [reflexivity|]. simpl in Hin.
  repeat (destruct Hin as [Hin|Hin]; [injection Hin as <- <- <- <- <-|]);
    try contradiction; split; intros Hd; simpl;
    rewrite ?(lerp_at_low _ _ _ _ dose) by lra;
    rewrite ?(lerp_at_high _ _ _ _ dose) by lra;
    unfold mkPK; f_equal;
    repeat first
      [ reflexivity
      | apply (Math_round_fix 40); lra | apply (Math_round_fix 50); lra
      | apply (Math_round_fix 35); lra | apply (Math_round_fix 25); lra
      | apply (Math_round_fix 75); lra | apply (Math_round_fix 120); lra
      | apply (Math_round_fix 15); lra | apply (Math_round_fix 180); lra
      | apply (Math_round_fix 300); lra | apply (Math_round_fix 165); lra
      | apply (Math_round_fix 210); lra | apply (Math_round_fix 150); lra
      | rewrite (r1_fix 45 4.5) by lra | rewrite (r1_fix 65 6.5) by lra
      | rewrite (r1_fix 99 (4.5 * 2.2)) by lra
      | rewrite (r1_fix 143 (6.5 * 2.2)) by lra
      | rewrite (r1_fix 30 3) by lra | rewrite (r1_fix 70 7) by lra
      | rewrite (r1_fix 35 3.5) by lra | rewrite (r1_fix 50 5) by lra
      | rewrite (r1_fix 18 1.8) by lra | rewrite (r1_fix 25 2.5) by lra
      | rewrite (r1_fix 40 4) by lra | rewrite (r1_fix 60 6) by lra
      | rewrite (r1_fix 120 12) by lra | rewrite (r1_fix 150 15) by lra
      | rewrite (r1_fix 140 14) by lra | rewrite (r1_fix 180 18) by lra
      | rewrite (r1_fix 100 10) by lra
      | lra ].
Qed.

Lemma X13_kinetics_at_and_beyond_anchors_witness :
  getDosePK Catalog.caffeine 20 = mkPK 4.5 15 40 9.9 5 /\
  getDosePK Catalog.caffeine 600 = mkPK 6.5 15 50 14.3 5.
Proof.
  assert (H : In (Catalog.caffeine, (50, 400),
                  (mkPK 4.5 15 40 9.9 5, mkPK 6.5 15 50 14.3 5)) anchorKinetics)
    by (simpl; auto).
  split.
  - apply (proj1 (proj2 (X13_kinetics_at_and_beyond_anchors _ _ _ _ _ 20 H))). lra.
  - apply (proj2 (proj2 (X13_kinetics_at_and_beyond_anchors _ _ _ _ _ 600 H))). lra.
Defined.

(** ** The substance map *)

Lemma mkSubstanceMap_lookup_id cat k s : mkSubstanceMap cat !! k = Some s -> s_id s = k.
Proof.
  unfold mkSubstanceMap. induction cat as [|x cat IH] using rev_ind.
  - simpl. rewrite lookup_empty. discriminate.
  - rewrite foldl_snoc, lookup_insert. destruct (decide (s_id x = k)).
    + now intros [= <-].
    + exact IH.
Qed.

Lemma mkSubstanceMap_last_wins cat s :
  In s cat ->
  exists s', mkSubstanceMap cat !! s_id s = Some s' /\ s_id s' = s_id s /\ In s' cat.
Proof.
  unfold mkSubstanceMap. induction cat as [|x cat IH] using rev_ind; [contradiction|].
  intros Hin. rewrite foldl_snoc, lookup_insert.
  destruct (decide (s_id x = s_id s)) as [He|Hne].
  - exists x. split; [reflexivity|]. split; [exact He|].
    apply in_or_app. right. now left.
  - apply in_app_or in Hin as [Hin|[->|[]]]; [|congruence].
    destruct (IH Hin) as (s' & H1 & H2 & H3). exists s'.
    split; [exact H1|]. split; [exact H2|]. apply in_or_app. now left.
Qed.

Lemma unique_by_id (cat : list Substance) s s' :
  NoDup (map s_id cat) -> In s cat -> In s' cat -> s_id s' = s_id s -> s' = s.
Proof.
  induction cat as [|x cat IH]; simpl; [contradiction|].
  intros Hnd Hs Hs' Hid. apply NoDup_cons in Hnd as [Hx Hnd].
  rewrite list_elem_of_In in Hx.
  destruct Hs as [->|Hs], Hs' as [->|Hs']; auto.
  - exfalso. apply Hx. rewrite <- Hid. now apply in_map.
  - exfalso. apply Hx. rewrite Hid. now apply in_map.
Qed.

(** X14: building the substance map and looking an id up.  A lookup returns
    only substances of the list, filed under their own id; when the ids of the
    list are pairwise distinct, as those of the catalog are, every substance
    of the list is found under its id.  With a repeated id the later entry
    replaces the earlier one. *)
Theorem X14_substance_map_lookup (cat : list Substance) (k : string) (s : Substance) :
  NoDup (map s_id cat) ->
  (mkSubstanceMap cat !! k = Some s <-> In s cat /\ s_id s = k) /\
  NoDup (map s_id substances) /\
  (forall s1 s2, s_id s1 = s_id s2 ->
     mkSubstanceMap [s1; s2] !! s_id s1 = Some s2).
Proof.
  intros Hnd. split; [|split].
  - split.
    + intros H. split; [now apply (mkSubstanceMap_lookup cat k)
                       |now apply (mkSubstanceMap_lookup_id cat)].
    + intros [Hin <-]. destruct (mkSubstanceMap_last_wins cat s Hin) as (s' & H1 & H2 & H3).
      rewrite H1. f_equal. now apply (unique_by_id cat).
  - simpl. repeat (apply NoDup_cons_2;
                   [rewrite list_elem_of_In; simpl; intuition discriminate|]).
    apply NoDup_nil_2.
  - intros s1 s2 Heq. unfold mkSubstanceMap. simpl. rewrite Heq. apply lookup_insert_eq.
Qed.

Lemma X14_substance_map_lookup_witness :
  substanceMap !! "nicotine" = Some Catalog.nicotine.
Proof.
  assert (Hnd : NoDup (map s_id substances)).
  { simpl. repeat (apply NoDup_cons_2;
                   [rewrite list_elem_of_In; simpl; intuition discriminate|]).
    apply NoDup_nil_2. }
  apply (proj1 (X14_substance_map_lookup substances "nicotine" Catalog.nicotine Hnd)).
  split; [simpl; auto|reflexivity].
Defined.

(** ** The circadian baselines *)

Lemma adenosine_cases h :
  ((h < 7 \/ 23 <= h) /\ Circadian.adenosine h = 10) \/
  (7 <= h < 23 /\ Circadian.adenosine h = 10 + (h - 7) * 5.6).
Proof.
  unfold Circadian.adenosine. unfold_cmp.
  destruct (Rlt_dec h 7); [left; rewrite (bool_decide_true (h < 7)) by lra;
                           rewrite orb_true_r; split; [lra|reflexivity]|].
  destruct (Rle_dec 23 h); [left; rewrite (bool_decide_true (h >= 23)) by lra;
                            split; [lra|reflexivity]|].
  rewrite (bool_decide_false (h >= 23)), (bool_decide_false (h < 7)) by lra.
  right. simpl. split; [lra|]. apply Rmin_left. lra.
Qed.

Lemma dopamine_cases h :
  ((h < 7 \/ 23 <= h) /\ Circadian.dopamine h = 40) \/
  (7 <= h < 10 /\ Circadian.dopamine h = 40 + (h - 7) / 3 * 30) \/
  (10 <= h < 14 /\ Circadian.dopamine h = 70) \/
  (14 <= h < 18 /\ Circadian.dopamine h = 70 - (h - 14) / 4 * 20) \/
  (18 <= h < 23 /\ Circadian.dopamine h = 50 - (h - 18) / 5 * 10).
Proof.
  unfold Circadian.dopamine. unfold_cmp.
  destruct (Rlt_dec h 7); [left; rewrite (bool_decide_true (h < 7)) by lra;
                           rewrite orb_true_r; split; [lra|reflexivity]|].
  destruct (Rle_dec 23 h); [left; rewrite (bool_decide_true (h >= 23)) by lra;
                            split; [lra|reflexivity]|].
  rewrite (bool_decide_false (h >= 23)), (bool_decide_false (h < 7)) by lra.
  right. simpl.
  destruct (Rlt_dec h 10).
  { left. rewrite (bool_decide_true (h >= 7)), (bool_decide_true (h < 10)) by lra.
    split; [lra|reflexivity]. }
  rewrite (bool_decide_false (h < 10)) by lra. rewrite andb_false_r. right.
  destruct (Rlt_dec h 14).
  { left. rewrite (bool_decide_true (h >= 10)), (bool_decide_true (h < 14)) by lra.
    split; [lra|reflexivity]. }
  rewrite (bool_decide_false (h < 14)) by lra. rewrite andb_false_r. right.
  destruct (Rlt_dec h 18).
  { left. rewrite (bool_decide_true (h >= 14)), (bool_decide_true (h < 18)) by lra.
    split; [lra|reflexivity]. }
  rewrite (bool_decide_false (h < 18)) by lra. rewrite andb_false_r. right.
  split; [lra|reflexivity].
Qed.

Lemma serotonin_cases h :
  ((h < 6 \/ 22 <= h) /\ Circadian.serotonin h = 35) \/
  (6 <= h < 12 /\ Circadian.serotonin h = 35 + (h - 6) / 6 * 35) \/
  (12 <= h < 16 /\ Circadian.serotonin h = 70) \/
  (16 <= h < 22 /\ Circadian.serotonin h = 70 - (h - 16) / 6 * 35).
Proof.
  unfold Circadian.serotonin. unfold_cmp.
  destruct (Rlt_dec h 6); [left; rewrite (bool_decide_true (h < 6)) by lra;
                           rewrite orb_true_r; split; [lra|reflexivity]|].
  destruct (Rle_dec 22 h); [left; rewrite (bool_decide_true (h >= 22)) by lra;
                            split; [lra|reflexivity]|].
  rewrite (bool_decide_false (h >= 22)), (bool_decide_false (h < 6)) by lra.
  right. simpl.
  destruct (Rlt_dec h 12).
  { left. rewrite (bool_decide_true (h >= 6)), (bool_decide_true (h < 12)) by lra.
    split; [lra|reflexivity]. }
  rewrite (bool_decide_false (h < 12)) by lra. rewrite andb_false_r. right.
  destruct (Rlt_dec h 16).
  { left. rewrite (bool_decide_true (h >= 12)), (bool_decide_true (h < 16)) by lra.
    split; [lra|reflexivity]. }
  rewrite (bool_decide_false (h < 16)) by lra. rewrite andb_false_r. right.
  split; [lra|reflexivity].
Qed.

Lemma gaba_cases h :
  ((h < 6 \/ 22 <= h) /\ Circadian.gaba h = 75) \/
  (6 <= h < 10 /\ Circadian.gaba h = 75 - (h - 6) / 4 * 30) \/
  (10 <= h < 18 /\ Circadian.gaba h = 45) \/
  (18 <= h < 22 /\ Circadian.gaba h = 45 + (h - 18) / 4 * 30).
Proof.
  unfold Circadian.gaba. unfold_cmp.
  destruct (Rlt_dec h 6); [left; rewrite (bool_decide_true (h < 6)) by lra;
                           rewrite orb_true_r; split; [lra|reflexivity]|].
  destruct (Rle_dec 22 h); [left; rewrite (bool_decide_true (h >= 22)) by lra;
                            split; [lra|reflexivity]|].
  rewrite (bool_decide_false (h >= 22)), (bool_decide_false (h < 6)) by lra.
  right. simpl.
  destruct (Rlt_dec h 10).
  { left. rewrite (bool_decide_true (h >= 6)), (bool_decide_true (h < 10)) by lra.
    split; [lra|reflexivity]. }
  rewrite (bool_decide_false (h < 10)) by lra. rewrite andb_false_r. right.
  destruct (Rlt_dec h 18).
  { left. rewrite (bool_decide_true (h >= 10)), (bool_decide_true (h < 18)) by lra.
    split; [lra|reflexivity]. }
  rewrite (bool_decide_false (h < 18)) by lra. rewrite andb_false_r. right.
  split; [lra|reflexivity].
Qed.

(** X16: the four circadian baselines stay inside [0,100] at every hour:
    adenosine in [10, 99.6), dopamine in [40, 70], serotonin in [35, 70] and
    GABA in [45, 75].  Adenosine is 10 during sleep (before 7 and from 23 on)
    and [10 + 5.6 * (hour - 7)] while awake: its [Math.min(..., 100)] cap is
    never reached, and at 23:00 it falls from almost 99.6 back to 10. *)
Theorem X16_circadian_ranges (h : R) :
  10 <= Circadian.adenosine h < 99.6 /\
  40 <= Circadian.dopamine h <= 70 /\
  35 <= Circadian.serotonin h <= 70 /\
  45 <= Circadian.gaba h <= 75 /\
  (7 <= h < 23 -> Circadian.adenosine h = 10 + (h - 7) * 5.6) /\
  (h < 7 \/ 23 <= h -> Circadian.adenosine h = 10).
Proof.
  pose proof (adenosine_cases h) as Ha.
  pose proof (dopamine_range h). pose proof (serotonin_range h).
  pose proof (gaba_range h).
  repeat split; try lra; try (intros Hh); destruct Ha as [[? ?]|[? ?]]; lra.
Qed.

Lemma X16_circadian_ranges_witness : Circadian.adenosine 12 = 10 + (12 - 7) * 5.6.
Proof.
  apply (proj1 (proj2 (proj2 (proj2 (proj2 (X16_circadian_ranges 12)))))). lra.
Defined.

(** X17: the dopamine, serotonin and GABA baselines have no jumps: over any
    two hours they change by at most 10, 35/6 and 7.5 points per hour
    apart, also across the boundaries between the phases of the day and
    across the start and end of the night plateau. *)
Theorem X17_circadian_baselines_continuous (h1 h2 : R) :
  h1 <= h2 ->
  - (10 * (h2 - h1)) <= Circadian.dopamine h2 - Circadian.dopamine h1 <= 10 * (h2 - h1) /\
  - (35 / 6 * (h2 - h1)) <= Circadian.serotonin h2 - Circadian.serotonin h1
                         <= 35 / 6 * (h2 - h1) /\
  - (7.5 * (h2 - h1)) <= Circadian.gaba h2 - Circadian.gaba h1 <= 7.5 * (h2 - h1).
Proof.
  intros Hh. split; [|split].
  - destruct (dopamine_cases h1) as [[? ->]|[[? ->]|[[? ->]|[[? ->]|[? ->]]]]],
             (dopamine_cases h2) as [[? ->]|[[? ->]|[[? ->]|[[? ->]|[? ->]]]]]; lra.
  - destruct (serotonin_cases h1) as [[? ->]|[[? ->]|[[? ->]|[? ->]]]],
             (serotonin_cases h2) as [[? ->]|[[? ->]|[[? ->]|[? ->]]]]; lra.
  - destruct (gaba_cases h1) as [[? ->]|[[? ->]|[[? ->]|[? ->]]]],
             (gaba_cases h2) as [[? ->]|[[? ->]|[[? ->]|[? ->]]]]; lra.
Qed.

Lemma X17_circadian_baselines_continuous_witness :
  - (10 * (7.5 - 6.5)) <= Circadian.dopamine 7.5 - Circadian.dopamine 6.5 <= 10 * (7.5 - 6.5).
Proof.
  assert (H : 6.5 <= 7.5) by lra.
  exact (proj1 (X17_circadian_baselines_continuous 6.5 7.5 H)).
Defined.

(** ** The snapshot: status, status effects and frame *)

Section StatusInvariant.

Variables (substance : Substance) (log : SubstanceLog) (impacts : gmap string R).

Lemma applyToReceptor_status lvl st rec :
  st <> rising ->
  applyToReceptor substance log impacts lvl st rec = (lvl, st, rec) \/
  exists lvl' st' rec',
    applyToReceptor substance log impacts lvl st rec = (lvl', st', rec') /\
    st' <> stable /\ st' <> rising /\ (0 < length (statusEffects rec'))%nat.
Proof.
  intros Hst. unfold applyToReceptor.
  destruct (impacts !! r_id rec) as [v|]; [|now left].
  destruct (List.find _ _) as [i|]; [|now left].
  right. destruct (ri_type i); do 3 eexists; (split; [reflexivity|]); simpl;
    rewrite ?length_app; simpl; repeat split; try discriminate; try lia;
    destruct st; congruence.
Qed.

Lemma applyToReceptors_status lvl st rs :
  st <> rising ->
  applyToReceptors substance log impacts lvl st rs = (lvl, st, rs) \/
  exists lvl' st' rs',
    applyToReceptors substance log impacts lvl st rs = (lvl', st', rs') /\
    st' <> stable /\ st' <> rising /\
    Exists (fun r => (0 < length (statusEffects r))%nat) rs'.
Proof.
  revert lvl st. induction rs as [|r rs IH]; intros lvl st Hst; simpl; [now left|].
  destruct (applyToReceptor_status lvl st r Hst)
    as [->|(lvl1 & st1 & r1 & -> & Hs1 & Hr1 & Hlen)].
  - destruct (IH lvl st Hst) as [->|(lvl2 & st2 & rs2 & -> & Hs2 & Hr2 & Hex)];
      [now left|].
    right. do 3 eexists. split; [reflexivity|]. repeat split; try assumption.
    now apply Exists_cons_tl.
  - right.
    destruct (IH lvl1 st1 Hr1) as [->|(lvl2 & st2 & rs2 & -> & Hs2 & Hr2 & Hex)].
    + do 3 eexists. split; [reflexivity|]. repeat split; try assumption.
      now apply Exists_cons_hd.
    + do 3 eexists. split; [reflexivity|]. repeat split; try assumption.
      now apply Exists_cons_hd.
Qed.

End StatusInvariant.

Lemma applyToNT_touch substance log impacts hour nt :
  ntUntouched hour nt \/ ntAffected nt ->
  ntUntouched hour (applyToNT substance log impacts nt)
  \/ ntAffected (applyToNT substance log impacts nt).
Proof.
  intros HP.
  assert (Hst : status nt <> rising).
  { destruct HP as [(Hs & _)|(Hs & _)]; [congruence|].
    simpl in Hs. intros Hr. rewrite Hr in Hs. intuition discriminate. }
  unfold applyToNT.
  destruct (applyToReceptors_status substance log impacts
              (currentLevel nt) (status nt) (receptors nt) Hst)
    as [->|(lvl' & st' & rs' & -> & Hs & Hr & Hex)].
  - destruct HP as [HU|HA]; [left|right]; exact HU || exact HA.
  - right. split; [|exact Hex]. simpl. destruct st'; auto; congruence.
Qed.

Lemma applyLog_touch catalog now hour updated l :
  Forall (fun nt => ntUntouched hour nt \/ ntAffected nt) updated ->
  Forall (fun nt => ntUntouched hour nt \/ ntAffected nt) (applyLog catalog now updated l).
Proof.
  intros Hu. unfold applyLog.
  destruct (catalog !! substanceId l) as [s|]; [|assumption].
  destruct (Rltb _ 1); [assumption|].
  apply Forall_map. eapply Forall_impl; [exact Hu|].
  intros nt. apply applyToNT_touch.
Qed.

(** X19: in every snapshot, for any catalog and any log history, each
    neurotransmitter is in one of two states.  Either nothing touched it:
    its status is stable, its level is the circadian level, and every
    receptor has sensitivity 100 and no status effect.  Or its status is
    enhanced, blocked or falling and at least one of its receptors carries a
    status effect.  The status rising never occurs in a snapshot. *)
Theorem X19_status_matches_status_effects
    (catalog : gmap string Substance) (baseNTs : list Neurotransmitter)
    (now hour : R) (logs : list SubstanceLog) :
  Forall (fun nt => ntUntouched hour nt \/ ntAffected nt)
         (recomputeWith catalog baseNTs now hour logs).
Proof.
  unfold recomputeWith.
  assert (Hbase : Forall (fun nt => ntUntouched hour nt \/ ntAffected nt)
                         (map (freshNT hour) baseNTs)).
  { apply Forall_map. apply Forall_forall. intros base _. left.
    unfold ntUntouched. simpl. split; [reflexivity|]. split; [reflexivity|].
    apply Forall_map. apply Forall_forall. intros r _. simpl. auto. }
  revert Hbase. generalize (map (freshNT hour) baseNTs) as updated.
  induction (List.filter (fun l => Rgtb (expectedClearance l) now) logs)
    as [|l active IH]; intros updated Hu; simpl; [assumption|].
  apply IH. now apply applyLog_touch.
Qed.

Lemma applyToReceptor_frame substance log impacts lvl st rec :
  sameReceptorFrame rec (applyToReceptor substance log impacts lvl st rec).2.
Proof.
  unfold applyToReceptor, sameReceptorFrame.
  destruct (impacts !! r_id rec); [|simpl; auto].
  destruct (List.find _ _) as [i|]; [|simpl; auto].
  destruct (ri_type i); simpl; auto.
Qed.

Lemma applyToReceptors_frame substance log impacts lvl st rs :
  Forall2 sameReceptorFrame rs (applyToReceptors substance log impacts lvl st rs).2.
Proof.
  revert lvl st. induction rs as [|r rs IH]; intros lvl st; simpl; [constructor|].
  pose proof (applyToReceptor_frame substance log impacts lvl st r) as Hr.
  destruct (applyToReceptor substance log impacts lvl st r) as [[lvl1 st1] r1].
  specialize (IH lvl1 st1).
  destruct (applyToReceptors substance log impacts lvl1 st1 rs) as [[lvl2 st2] rs2].
  simpl in *. now constructor.
Qed.

Lemma sameReceptorFrame_trans r0 r1 r2 :
  sameReceptorFrame r0 r1 -> sameReceptorFrame r1 r2 -> sameReceptorFrame r0 r2.
Proof. unfold sameReceptorFrame. intuition congruence. Qed.

Lemma Forall2_frame_trans rs0 rs1 rs2 :
  Forall2 sameReceptorFrame rs0 rs1 -> Forall2 sameReceptorFrame rs1 rs2 ->
  Forall2 sameReceptorFrame rs0 rs2.
Proof.
  intros H01. revert rs2. induction H01 as [|r0 r1 rs0 rs1 Hr _ IH]; intros rs2 H12;
    inversion H12; subst; constructor; eauto using sameReceptorFrame_trans.
Qed.

Lemma applyToNT_frame substance log impacts nt0 nt :
  sameFrame nt0 nt -> sameFrame nt0 (applyToNT substance log impacts nt).
Proof.
  intros (H1 & H2 & H3 & H4 & H5 & H6). unfold applyToNT.
  pose proof (applyToReceptors_frame substance log impacts
                (currentLevel nt) (status nt) (receptors nt)) as Hrs.
  destruct (applyToReceptors _ _ _ _ _ _) as [[lvl st] rs]. simpl in Hrs.
  unfold sameFrame. simpl. repeat split; try assumption.
  now apply (Forall2_frame_trans _ (receptors nt)).
Qed.

Lemma applyLog_frame catalog now nts0 updated l :
  Forall2 sameFrame nts0 updated ->
  Forall2 sameFrame nts0 (applyLog catalog now updated l).
Proof.
  intros H. unfold applyLog.
  destruct (catalog !! substanceId l) as [s|]; [|assumption].
  destruct (Rltb _ 1); [assumption|].
  induction H; simpl; constructor; auto using applyToNT_frame.
Qed.

Lemma sameFrame_refl nt : sameFrame nt nt.
Proof.
  unfold sameFrame. repeat split; try reflexivity.
  induction (receptors nt); constructor; auto. unfold sameReceptorFrame. auto.
Qed.

(** X20: whatever the catalog and the log history, a snapshot differs from
    the snapshot of the empty history at the same hour in nothing but
    currentLevel, status, receptor sensitivity and status effects: it has the
    same systems in the same order with the same ids, names and circadian
    functions, each with the same receptors in the same order, and every
    receptor keeps its circadian occupancy.  Substances never change
    occupancy. *)
Theorem X20_snapshot_keeps_frame_and_occupancy
    (catalog : gmap string Substance) (baseNTs : list Neurotransmitter)
    (now hour : R) (logs : list SubstanceLog) :
  Forall2 sameFrame
    (recomputeWith catalog baseNTs now hour [])
    (recomputeWith catalog baseNTs now hour logs) /\
  length (recomputeWith catalog baseNTs now hour logs) = length baseNTs.
Proof.
  assert (H : Forall2 sameFrame
                (recomputeWith catalog baseNTs now hour [])
                (recomputeWith catalog baseNTs now hour logs)).
  { unfold recomputeWith. simpl.
    assert (Hbase : Forall2 sameFrame (map (freshNT hour) baseNTs)
                                      (map (freshNT hour) baseNTs)).
    { induction (map (freshNT hour) baseNTs); constructor; auto using sameFrame_refl. }
    revert Hbase. generalize (map (freshNT hour) baseNTs) at 2 4 as updated.
    induction (List.filter (fun l => Rgtb (expectedClearance l) now) logs)
      as [|l active IH]; intros updated Hu; simpl; [assumption|].
    apply IH. now apply applyLog_frame. }
  split; [exact H|].
  apply Forall2_length in H. rewrite <- H.
  unfold recomputeWith. simpl. apply length_map.
Qed.

(** ** Logs that do not count *)

Lemma recompute_drop_inert catalog baseNTs now hour before after l :
  (Rgtb (expectedClearance l) now = true ->
   forall updated, applyLog catalog now updated l = updated) ->
  recomputeWith catalog baseNTs now hour (before ++ l :: after)
  = recomputeWith catalog baseNTs now hour (before ++ after).
Proof.
  intros H. unfold recomputeWith.
  rewrite !List.filter_app, !foldl_app. simpl.
  destruct (Rgtb (expectedClearance l) now) eqn:Ha; [|reflexivity].
  simpl. now rewrite H.
Qed.

Lemma eff_future log substance now :
  now < timestamp log -> getEffectiveness log substance now = 0.
Proof. apply eff_before. Qed.

(** X21: three kinds of log leave the snapshot exactly as it is without
    them, wherever they stand in the history: an expired log
    ([expectedClearance <= now]), a log dated after [now], and a log whose
    effectiveness at [now] is below 1. *)
Theorem X21_expired_future_and_negligible_logs_are_inert
    (catalog : gmap string Substance) (baseNTs : list Neurotransmitter)
    (now hour : R) (before after : list SubstanceLog) (l : SubstanceLog) :
  expectedClearance l <= now \/ now < timestamp l \/
  (exists s, catalog !! substanceId l = Some s /\ getEffectiveness l s now < 1) ->
  recomputeWith catalog baseNTs now hour (before ++ l :: after)
  = recomputeWith catalog baseNTs now hour (before ++ after).
Proof.
  intros H. apply recompute_drop_inert. intros Hactive updated.
  destruct H as [Hexp|[Hfut|(s & Hs & Heff)]].
  - unfold Rgtb in Hactive. apply bool_decide_eq_true in Hactive. lra.
  - unfold applyLog. destruct (catalog !! substanceId l) as [s|]; [|reflexivity].
    rewrite eff_future by assumption. now rewrite Rltb_true by lra.
  - unfold applyLog. rewrite Hs. now rewrite Rltb_true by assumption.
Qed.

Lemma X21_expired_future_and_negligible_logs_are_inert_witness :
  let old := logOf "old" Catalog.nicotine 2 0 in
  let kept := logOf "c1" Catalog.caffeine 100 90000000 in
  expectedClearance old <= 90000000 /\
  recompute 90000000 12 ([kept] ++ old :: []) = recompute 90000000 12 ([kept] ++ []).
Proof.
  intros old kept.
  assert (H : expectedClearance old <= 90000000).
  { simpl. unfold calculateClearanceTime. simpl. lra. }
  split; [exact H|].
  exact (X21_expired_future_and_negligible_logs_are_inert substanceMap
           defaultNeurotransmitters 90000000 12 [kept] [] old (or_introl H)).
Defined.

(** ** The store of the application *)

Lemma defaults_in_range : Forall ntInRange defaultNeurotransmitters.
Proof.
  unfold ntInRange, receptorInRange.
  repeat (apply List.Forall_cons;
          [simpl; split;
           [lra | repeat (apply List.Forall_cons; [simpl; lra|]); apply List.Forall_nil]|]).
  apply List.Forall_nil.
Qed.

Lemma recompute_in_range now h logs : Forall ntInRange (recompute now h logs).
Proof.
  unfold recompute, recomputeWith.
  generalize (baseline_in_range h).
  generalize (map (freshNT h) defaultNeurotransmitters) as updated.
  induction (List.filter (fun l => Rgtb (expectedClearance l) now) logs)
    as [|l active IH]; intros updated Hu; simpl; [assumption|].
  apply IH. now apply applyLog_range.
Qed.

Lemma step_snapshot s s' :
  step substanceMap defaultNeurotransmitters s s' ->
  (neurotransmitters s' = neurotransmitters s /\ substanceLogs s' = substanceLogs s) \/
  exists now hour, neurotransmitters s' = recompute now hour (substanceLogs s').
Proof.
  intros Hstep. destruct Hstep; try (right; do 2 eexists; reflexivity);
    try (left; split; reflexivity).
  unfold logSubstanceWith. destruct (substanceMap !! sid).
  - right. do 2 eexists. reflexivity.
  - left. split; reflexivity.
Qed.

(** X23: an invariant of the store.  In every state the application can
    reach, the stored snapshot is the recompute of the state's own log list
    at some clock reading, except before the first recompute of the session:
    until then the snapshot is the initial list of systems and the logs are
    those found in storage at start-up (none when nothing was stored).  Once
    an action has changed the logs, the snapshot never lags behind them.  In
    either case every stored level lies in [0,100], every sensitivity in
    [20,150] and every occupancy in [0,100]. *)
Theorem X23_store_snapshot_follows_logs (stored : option Persisted) (s : NeuroState) :
  reachable substanceMap defaultNeurotransmitters stored s ->
  ((neurotransmitters s = defaultNeurotransmitters /\
    substanceLogs s = storedLogs stored) \/
   exists now hour, neurotransmitters s = recompute now hour (substanceLogs s)) /\
  Forall ntInRange (neurotransmitters s).
Proof.
  intros Hr.
  assert (H : (neurotransmitters s = defaultNeurotransmitters /\
               substanceLogs s = storedLogs stored) \/
              exists now hour, neurotransmitters s = recompute now hour (substanceLogs s)).
  { induction Hr as [|s s' _ IH Hstep]; [left; now destruct stored|].
    destruct (step_snapshot s s' Hstep) as [[Hn Hl]|Hre]; [|now right].
    rewrite Hn, Hl. exact IH. }
  split; [exact H|].
  destruct H as [[-> _]|(now & hour & ->)];
    [apply defaults_in_range|apply recompute_in_range].
Qed.

Lemma X23_store_snapshot_follows_logs_witness :
  let old := {| log_id := "old"; substanceId := "caffeine"; dosage := 100;
                timestamp := 0; expectedClearance := 74304000 |} in
  let stored := Some {| p_substanceLogs := [old];
                        p_sleepSchedule := {| wakeTime := "07:00"; sleepTime := "23:00" |};
                        p_viewMode := simple |} in
  let s1 := logSubstance "caffeine" 100 1000 "id1" 1001 12
              (rehydrate stored (initialState defaultNeurotransmitters)) in
  reachable substanceMap defaultNeurotransmitters stored s1 /\
  Forall ntInRange (neurotransmitters s1).
Proof.
  intros old stored s1.
  assert (Hr : reachable substanceMap defaultNeurotransmitters stored s1).
  { apply (reachable_step _ _ _
             (rehydrate stored (initialState defaultNeurotransmitters)));
      [apply reachable_init|apply step_logSubstance]. }
  split; [exact Hr|].
  exact (proj2 (X23_store_snapshot_follows_logs stored s1 Hr)).
Defined.

Lemma filter_other_ids (logs : list SubstanceLog) id :
  Forall (fun l => log_id l <> id) logs ->
  List.filter (fun l => negb (bool_decide (log_id l = id))) logs = logs.
Proof.
  intros H. apply filter_all. eapply List.Forall_impl; [|exact H].
  intros l Hl. simpl. now rewrite bool_decide_false.
Qed.

(** X24: removing a log that was just added under a fresh id restores the log
    list, and the snapshot that follows is the recompute of the restored
    list.  Removing an id no log carries changes no log; [removeLog] takes
    every log with the given id, so a second removal finds nothing. *)
Theorem X24_remove_undoes_log
    (catalog : gmap string Substance) (baseNTs : list Neurotransmitter)
    (s : NeuroState) (sid : string) (dose now : R) (newId : string)
    (now1 hour1 now2 hour2 : R) :
  Forall (fun l => log_id l <> newId) (substanceLogs s) ->
  let added := logSubstanceWith catalog baseNTs sid dose now newId now1 hour1 s in
  let removed := removeLogWith catalog baseNTs newId now2 hour2 added in
  substanceLogs removed = substanceLogs s /\
  neurotransmitters removed = recomputeWith catalog baseNTs now2 hour2 (substanceLogs s) /\
  substanceLogs (removeLogWith catalog baseNTs newId now2 hour2 s) = substanceLogs s /\
  Forall (fun l => log_id l <> newId) (substanceLogs removed) /\
  substanceLogs (removeLogWith catalog baseNTs newId now2 hour2 removed)
  = substanceLogs removed.
Proof.
  intros Hfresh added removed.
  assert (Hlogs : substanceLogs removed = substanceLogs s).
  { unfold removed, added, removeLogWith, logSubstanceWith.
    destruct (catalog !! sid) as [sub|]; simpl.
    - rewrite List.filter_app. simpl. rewrite bool_decide_true by reflexivity.
      simpl. rewrite app_nil_r. now apply filter_other_ids.
    - now apply filter_other_ids. }
  assert (Hrm : forall st,
             substanceLogs (removeLogWith catalog baseNTs newId now2 hour2 st)
             = List.filter (fun l => negb (bool_decide (log_id l = newId)))
                           (substanceLogs st)) by reflexivity.
  split; [exact Hlogs|]. split; [|split; [|split]].
  - change (neurotransmitters removed)
      with (recomputeWith catalog baseNTs now2 hour2 (substanceLogs removed)).
    now rewrite Hlogs.
  - rewrite Hrm. now apply filter_other_ids.
  - now rewrite Hlogs.
  - rewrite Hrm. apply filter_other_ids. now rewrite Hlogs.
Qed.

Lemma X24_remove_undoes_log_witness :
  let s := initialState defaultNeurotransmitters in
  substanceLogs
    (removeLogWith substanceMap defaultNeurotransmitters "id1" 2000 12
       (logSubstance "caffeine" 100 1000 "id1" 1001 12 s))
  = substanceLogs s.
Proof.
  intros s.
  assert (H : Forall (fun l => log_id l <> "id1") (substanceLogs s)) by apply List.Forall_nil.
  exact (proj1 (X24_remove_undoes_log substanceMap defaultNeurotransmitters s
                  "caffeine" 100 1000 "id1" 1001 12 2000 12 H)).
Defined.

(** ** Directions of change with the catalog *)

Lemma catalog_type_by_receptor s rid i :
  In s substances ->
  List.find (fun i => bool_decide (receptorId i = rid)) (receptorInteractions s) = Some i ->
  ri_type i <> downregulation /\
  (In rid adenosineReceptors -> ri_type i = antagonist) /\
  (~ In rid adenosineReceptors -> ri_type i <> antagonist).
Proof.
  intros Hin. simpl in Hin.
  destruct Hin as [<-|[<-|[<-|[<-|[<-|[<-|[<-|[]]]]]]]]; simpl;
    repeat case_bool_decide; subst; intros Heq; try discriminate;
    injection Heq as <-; simpl;
    (split; [discriminate|]); split; intros Hx;
    first [ reflexivity | discriminate
          | exfalso; apply Hx; simpl; tauto
          | exfalso; simpl in Hx; intuition discriminate ].
Qed.

Section Directions.

Variables (substance : Substance) (log : SubstanceLog) (impacts : gmap string R).
Hypothesis Hcat : In substance substances.
Hypothesis Himp : forall r v, impacts !! r = Some v -> 0 <= v <= 100.
Variable c : R.
Hypothesis Hc : 0 <= c <= 100.

Lemma applyToReceptor_direction lvl st rec :
  let '(lvl', _, rec') := applyToReceptor substance log impacts lvl st rec in
  r_id rec' = r_id rec /\
  (100 <= sensitivity rec -> 100 <= sensitivity rec') /\
  (In (r_id rec) adenosineReceptors -> lvl <= c -> lvl' <= c) /\
  (~ In (r_id rec) adenosineReceptors -> c <= lvl -> c <= lvl').
Proof.
  unfold applyToReceptor.
  destruct (impacts !! r_id rec) as [v|] eqn:Hv; [|repeat split; auto].
  apply Himp in Hv.
  destruct (List.find _ _) as [i|] eqn:Hf; [|repeat split; auto].
  destruct (catalog_type_by_receptor substance (r_id rec) i Hcat Hf) as (Hnd & Ha & Hna).
  destruct (ri_type i) eqn:Ht; simpl; try congruence;
    (split; [reflexivity|]); (split; [intros ?|split; intros Hin ?]);
    try (specialize (Ha Hin); discriminate);
    try (specialize (Hna Hin); congruence);
    unfold Rmin, Rmax; repeat destruct Rle_dec; lra.
Qed.

Lemma applyToReceptors_direction lvl st rs :
  let '(lvl', _, rs') := applyToReceptors substance log impacts lvl st rs in
  map r_id rs' = map r_id rs /\
  (Forall (fun r => 100 <= sensitivity r) rs ->
   Forall (fun r => 100 <= sensitivity r) rs') /\
  (Forall (fun r => In (r_id r) adenosineReceptors) rs -> lvl <= c -> lvl' <= c) /\
  (Forall (fun r => ~ In (r_id r) adenosineReceptors) rs -> c <= lvl -> c <= lvl').
Proof.
  revert lvl st. induction rs as [|r rs IH]; intros lvl st; simpl.
  - repeat split; auto.
  - pose proof (applyToReceptor_direction lvl st r) as H1.
    destruct (applyToReceptor substance log impacts lvl st r) as [[lvl1 st1] r1].
    destruct H1 as (Hid & Hs & Hd & Hu).
    specialize (IH lvl1 st1).
    destruct (applyToReceptors substance log impacts lvl1 st1 rs) as [[lvl2 st2] rs2].
    destruct IH as (Hids & Hss & Hdd & Huu).
    split; [simpl; congruence|]. split; [|split].
    + intros HF. inversion_clear HF. constructor; auto.
    + intros HF Hl. inversion_clear HF. auto.
    + intros HF Hl. inversion_clear HF. auto.
Qed.

End Directions.

Lemma defaults_receptor_ids base h :
  In base defaultNeurotransmitters ->
  0 <= getLevel base h <= 100 /\
  if bool_decide (nt_id base = "adenosine")
  then Forall (fun id => In id adenosineReceptors) (map r_id (receptors base))
  else Forall (fun id => ~ In id adenosineReceptors) (map r_id (receptors base)).
Proof.
  intros Hin. simpl in Hin.
  pose proof (adenosine_range h). pose proof (dopamine_range h).
  pose proof (serotonin_range h). pose proof (gaba_range h).
  destruct Hin as [<-|[<-|[<-|[<-|[]]]]]; simpl; (split; [lra|]);
    repeat (apply List.Forall_cons; [simpl; intuition discriminate|]);
    apply List.Forall_nil.
Qed.

Lemma Forall_ids (P : string -> Prop) (l : list Receptor) :
  Forall P (map r_id l) -> Forall (fun r => P (r_id r)) l.
Proof.
  induction l as [|x l IH]; simpl; intros H; [constructor|].
  inversion_clear H. constructor; auto.
Qed.

Lemma applyToNT_direction substance log impacts h base nt :
  In substance substances ->
  (forall r v, impacts !! r = Some v -> 0 <= v <= 100) ->
  In base defaultNeurotransmitters ->
  movedAsCatalogAllows h base nt ->
  movedAsCatalogAllows h base (applyToNT substance log impacts nt).
Proof.
  intros Hcat Himp Hbase (Hids & Hsens & Hdir).
  destruct (defaults_receptor_ids base h Hbase) as [Hc Hown].
  unfold applyToNT.
  pose proof (applyToReceptors_direction substance log impacts Hcat Himp
                (getLevel base h) Hc (currentLevel nt) (status nt) (receptors nt)) as H.
  destruct (applyToReceptors _ _ _ _ _ _) as [[lvl st] rs].
  destruct H as (Hids' & Hsens' & Hdown & Hup).
  unfold movedAsCatalogAllows. cbn [receptors currentLevel].
  split; [congruence|]. split; [apply Hsens'; exact Hsens|].
  rewrite <- Hids in Hown.
  destruct (bool_decide (nt_id base = "adenosine"));
    apply Forall_ids in Hown; [apply Hdown|apply Hup];
    first [exact Hown|exact Hdir].
Qed.

Lemma applyLog_direction now h updated l :
  Forall2 (movedAsCatalogAllows h) defaultNeurotransmitters updated ->
  Forall2 (movedAsCatalogAllows h) defaultNeurotransmitters
          (applyLog substanceMap now updated l).
Proof.
  intros H. unfold applyLog.
  destruct (substanceMap !! substanceId l) as [s|] eqn:Hs; [|assumption].
  unfold Rltb. case_bool_decide as He; [assumption|].
  assert (Hcat : In s substances) by (eapply mkSubstanceMap_lookup; exact Hs).
  assert (Himp : forall r v,
             calculateReceptorImpact (receptorInteractions s)
               (getEffectiveness l s now) !! r = Some v -> 0 <= v <= 100).
  { intros r v. apply impact_range; [now apply (catalog_magnitudes _ _ Hs)|lra]. }
  assert (Hgen : forall bases nts,
             Forall (fun base => In base defaultNeurotransmitters) bases ->
             Forall2 (movedAsCatalogAllows h) bases nts ->
             Forall2 (movedAsCatalogAllows h) bases
               (map (applyToNT s l
                       (calculateReceptorImpact (receptorInteractions s)
                          (getEffectiveness l s now))) nts)).
  { intros bases nts Hall H2.
    induction H2 as [|base nt bases' nts' Hrel _ IH]; simpl; constructor;
      inversion_clear Hall; auto using applyToNT_direction. }
  apply Hgen; [|exact H]. apply List.Forall_forall. auto.
Qed.

(** X22: with the catalog of the application no history of logs can move a
    system the other way: in every snapshot adenosine is at or below its
    circadian level and dopamine, serotonin and GABA are at or above theirs,
    and no receptor's sensitivity is below 100 (the catalog has no
    downregulation, and it antagonises adenosine receptors only). *)
Theorem X22_catalog_moves_systems_one_way (now h : R) (logs : list SubstanceLog) :
  Forall2 (movedAsCatalogAllows h) defaultNeurotransmitters (recompute now h logs).
Proof.
  unfold recompute, recomputeWith.
  assert (Hbase : Forall2 (movedAsCatalogAllows h) defaultNeurotransmitters
                          (map (freshNT h) defaultNeurotransmitters)).
  { unfold movedAsCatalogAllows.
    repeat (apply List.Forall2_cons;
            [simpl; split; [reflexivity|];
             split; [repeat (apply List.Forall_cons; [simpl; lra|]); apply List.Forall_nil
                    |lra]|]).
    apply List.Forall2_nil. }
  revert Hbase. generalize (map (freshNT h) defaultNeurotransmitters) as updated.
  induction (List.filter (fun l => Rgtb (expectedClearance l) now) logs)
    as [|l active IH]; intros updated Hu; simpl; [assumption|].
  apply IH. now apply applyLog_direction.
Qed.

(** ** Tolerance never recovers by logging more *)

Lemma catalog_rate_constant s d1 d2 :
  In s substances -> toleranceRate (getDosePK s d1) = toleranceRate (getDosePK s d2).
Proof.
  simpl. intros H.
  repeat (destruct H as [<-|H]; [reflexivity|]). contradiction.
Qed.

Lemma distinctDays_mono localDate (l1 l2 : list SubstanceLog) :
  (forall x, In x l1 -> In x l2) ->
  (distinctDays localDate l1 <= distinctDays localDate l2)%nat.
Proof.
  intros Hsub. unfold distinctDays. apply subseteq_size.
  intros d. rewrite !elem_of_list_to_set, !list_elem_of_In, !in_map_iff.
  intros (x & Hx & Hin). exists x. auto.
Qed.

(** X10: for a substance of the catalog, adding a log to the history, at any
    position and of any substance, dose and date, never raises the tolerance
    score. *)
Theorem X10_more_logs_never_raise_tolerance
    (localDate : R -> Z * Z * Z) (substance : Substance) (now : R)
    (before after : list SubstanceLog) (l : SubstanceLog) :
  In substance substances ->
  calculateTolerance localDate (before ++ l :: after) substance now
  <= calculateTolerance localDate (before ++ after) substance now.
Proof.
  intros Hcat.
  set (W := List.filter (inWindow substance now) (before ++ after)).
  set (W' := List.filter (inWindow substance now) (before ++ l :: after)).
  assert (Hsub : forall x, In x W -> In x W').
  { intros x. unfold W, W'. rewrite !List.filter_In, !in_app_iff. simpl. tauto. }
  assert (Hcase : W = [] \/ W <> []) by (destruct W; [now left|now right]).
  destruct Hcase as [He|Hne].
  - rewrite (tolerance_empty localDate (before ++ after)) by exact He.
    apply tolerance_ceiling. intros dose. now apply catalog_toleranceRate.
  - assert (Hne' : W' <> []).
    { intros He'. destruct W as [|x W0]; [congruence|].
      specialize (Hsub x (or_introl eq_refl)). rewrite He' in Hsub. contradiction. }
    destruct (tolerance_nonempty localDate _ substance now Hne) as (x & _ & _ & ->).
    destruct (tolerance_nonempty localDate _ substance now Hne') as (x' & _ & _ & ->).
    fold W W'. rewrite (catalog_rate_constant substance (dosage x') (dosage x) Hcat).
    pose proof (catalog_toleranceRate substance (dosage x) Hcat) as Hrate.
    pose proof (distinctDays_mono localDate W W' Hsub) as Hd. apply le_INR in Hd.
    apply Rle_max_compat_r. nra.
Qed.

Lemma X10_more_logs_never_raise_tolerance_witness :
  calculateTolerance januaryDate ([] ++ logOf "n0" Catalog.nicotine 2 0 :: fiveDays)
    Catalog.nicotine (5 * dayMs)
  <= calculateTolerance januaryDate ([] ++ fiveDays) Catalog.nicotine (5 * dayMs).
Proof.
  assert (H : In Catalog.nicotine substances) by (simpl; auto).
  exact (X10_more_logs_never_raise_tolerance januaryDate Catalog.nicotine (5 * dayMs)
           [] fiveDays (logOf "n0" Catalog.nicotine 2 0) H).
Defined.

(** ** The list of active substances *)

Lemma insertNewestFirst_perm x l : Permutation (insertNewestFirst x l) (x :: l).
Proof.
  induction l as [|y l IH]; simpl; [reflexivity|].
  destruct (Rgeb (timestamp x) (timestamp y)); [reflexivity|].
  rewrite IH. apply perm_swap.
Qed.

Lemma sortNewestFirst_perm l : Permutation (sortNewestFirst l) l.
Proof.
  induction l as [|x l IH]; simpl; [reflexivity|].
  rewrite insertNewestFirst_perm. now rewrite IH.
Qed.

Lemma insertNewestFirst_sorted x l :
  StronglySorted laterOrSame l -> StronglySorted laterOrSame (insertNewestFirst x l).
Proof.
  induction 1 as [|y l Hs IH Hy]; simpl.
  - repeat constructor.
  - unfold Rgeb. case_bool_decide as Hxy.
    + constructor; [now constructor|]. constructor; [unfold laterOrSame; lra|].
      eapply List.Forall_impl; [|exact Hy]. unfold laterOrSame. intros z Hz. lra.
    + constructor; [exact IH|].
      rewrite (insertNewestFirst_perm x l). constructor; [|exact Hy].
      unfold laterOrSame. lra.
Qed.

Lemma sortNewestFirst_sorted l : StronglySorted laterOrSame (sortNewestFirst l).
Proof.
  induction l as [|x l IH]; simpl; [constructor|].
  now apply insertNewestFirst_sorted.
Qed.

(** X26: the component lists exactly the logs that have not expired, each as
    often as it occurs in the store (unknown substances included, which it
    then renders as nothing), ordered from the newest to the oldest
    timestamp. *)
Theorem X26_active_list_is_newest_first (substanceLogs : list SubstanceLog) (now : R) :
  Permutation (activeLogsNewestFirst substanceLogs now)
              (List.filter (fun l => Rgtb (expectedClearance l) now) substanceLogs) /\
  (forall l, In l (activeLogsNewestFirst substanceLogs now)
             <-> In l substanceLogs /\ expectedClearance l > now) /\
  StronglySorted laterOrSame (activeLogsNewestFirst substanceLogs now) /\
  (forall i j a b, (i < j)%nat ->
     activeLogsNewestFirst substanceLogs now !! i = Some a ->
     activeLogsNewestFirst substanceLogs now !! j = Some b ->
     timestamp b <= timestamp a).
Proof.
  assert (Hperm := sortNewestFirst_perm
                     (List.filter (fun l => Rgtb (expectedClearance l) now) substanceLogs)).
  assert (Hsorted := sortNewestFirst_sorted
                       (List.filter (fun l => Rgtb (expectedClearance l) now) substanceLogs)).
  fold (activeLogsNewestFirst substanceLogs now) in Hperm, Hsorted.
  split; [exact Hperm|]. split; [|split; [exact Hsorted|]].
  - intros l. split.
    + intros Hin. apply (Permutation_in _ Hperm) in Hin.
      apply List.filter_In in Hin as [Hin Ha]. split; [exact Hin|].
      unfold Rgtb in Ha. now apply bool_decide_eq_true in Ha.
    + intros [Hin Ha]. apply (Permutation_in _ (Permutation_sym Hperm)).
      apply List.filter_In. split; [exact Hin|]. now apply Rgtb_true.
  - revert Hsorted. generalize (activeLogsNewestFirst substanceLogs now) as ls.
    induction ls as [|x ls IH]; intros Hs i j a b Hij Ha Hb; [discriminate|].
    inversion_clear Hs as [|? ? Hs' Hx].
    destruct j as [|j]; [lia|]. simpl in Hb.
    destruct i as [|i].
    + injection Ha as <-. rewrite List.Forall_forall in Hx.
      apply (Hx b). apply list_elem_of_In. eapply list_elem_of_lookup_2. exact Hb.
    + simpl in Ha. apply (IH Hs' i j); [lia|assumption|assumption].
Qed.

Lemma X26_active_list_is_newest_first_witness :
  let n5 := logOf "n5" Catalog.nicotine 1 (4.5 * dayMs) in
  In n5 fiveDays /\ expectedClearance n5 > 4.6 * dayMs /\
  In n5 (activeLogsNewestFirst fiveDays (4.6 * dayMs)).
Proof.
  intros n5.
  assert (Hin : In n5 fiveDays) by (simpl; auto 10).
  assert (Ha : expectedClearance n5 > 4.6 * dayMs).
  { simpl. unfold calculateClearanceTime, dayMs. simpl. lra. }
  split; [exact Hin|]. split; [exact Ha|].
  exact (proj2 (proj1 (proj2 (X26_active_list_is_newest_first fiveDays (4.6 * dayMs))) n5)
           (conj Hin Ha)).
Defined.

Lemma Math_round_nonneg x : 0 <= x -> 0 <= Math_round x.
Proof.
  intros Hx. unfold Math_round. apply (IZR_le 0). apply Zfloor_lub. simpl. lra.
Qed.

(** X25: the "Clears in Xh Ym" figures of a listed log.  The remaining
    minutes are a whole number within half a minute of the true time to
    clearance, never negative; the hours and minutes shown are whole
    numbers, the minutes lie in [0, 60), and together they are exactly the
    remaining minutes. *)
Theorem X25_remaining_time_display (log : SubstanceLog) (now : R) :
  expectedClearance log > now ->
  let total := remainingMinOf log now in
  let hrs := remainingHrsOf log now in
  let mins := remainingMinsOf log now in
  0 <= total /\
  total - / 2 <= (expectedClearance log - now) / (60 * 1000) < total + / 2 /\
  (exists zt zh zm : Z, total = IZR zt /\ hrs = IZR zh /\ mins = IZR zm) /\
  0 <= hrs /\ 0 <= mins < 60 /\
  hrs * 60 + mins = total.
Proof.
  intros Hactive total hrs mins.
  assert (Hq : 0 <= (expectedClearance log - now) / (60 * 1000))
    by (apply div_nonneg; lra).
  assert (Ht : 0 <= total) by now apply Math_round_nonneg.
  assert (Hq60 : 0 <= total / 60) by (apply div_nonneg; lra).
  assert (Hmins : mins = total - 60 * IZR (Zfloor (total / 60))).
  { unfold mins, remainingMinsOf, JS_rem. fold total.
    now rewrite Rltb_false by assumption. }
  pose proof (Zfloor_bound (total / 60)) as Hfl.
  split; [exact Ht|]. split.
  { unfold total, remainingMinOf.
    pose proof (Math_round_bounds ((expectedClearance log - now) / (60 * 1000))). lra. }
  split.
  { exists (Zfloor ((expectedClearance log - now) / (60 * 1000) + / 2)),
           (Zfloor (total / 60)),
           (Zfloor ((expectedClearance log - now) / (60 * 1000) + / 2)
            - 60 * Zfloor (total / 60))%Z.
    split; [reflexivity|]. split; [reflexivity|].
    rewrite Hmins, minus_IZR, mult_IZR. reflexivity. }
  split.
  { unfold hrs, remainingHrsOf, Math_floor. fold total.
    apply (IZR_le 0). apply Zfloor_lub. simpl. exact Hq60. }
  split; [rewrite Hmins; lra|].
  unfold hrs, remainingHrsOf, Math_floor. fold total. rewrite Hmins. lra.
Qed.

Lemma X25_remaining_time_display_witness :
  let log := logOf "n2" Catalog.nicotine 2 0 in
  remainingHrsOf log 1000 * 60 + remainingMinsOf log 1000 = remainingMinOf log 1000.
Proof.
  intros log.
  assert (H : expectedClearance log > 1000).
  { simpl. unfold calculateClearanceTime. simpl. lra. }
  exact (proj2 (proj2 (proj2 (proj2 (proj2 (X25_remaining_time_display log 1000 H)))))).
Defined.

(** ** Every status effect is accounted for *)

Section EffectAudit.

Variables (now : R) (logs : list SubstanceLog).
Variables (l : SubstanceLog) (s : Substance).
Hypothesis Hl : In l logs.
Hypothesis Hactive : expectedClearance l > now.
Hypothesis Hs : substanceMap !! substanceId l = Some s.
Hypothesis Heff : 1 <= getEffectiveness l s now.

#[local] Abbreviation impactsOf :=
  (calculateReceptorImpact (receptorInteractions s) (getEffectiveness l s now)).

Lemma applyToReceptor_audit lvl st rec :
  Forall (effectFromLog now logs) (statusEffects rec) ->
  Forall (effectFromLog now logs)
         (statusEffects (applyToReceptor s l impactsOf lvl st rec).2).
Proof.
  intros Hold. unfold applyToReceptor.
  destruct (impactsOf !! r_id rec) as [v|] eqn:Hv; [|exact Hold].
  destruct (List.find _ _) as [i|] eqn:Hf; [|exact Hold].
  assert (Hnew : effectFromLog now logs
                   {| se_type := ri_type i; se_source := s_name s;
                      se_magnitude := v; se_startTime := timestamp l |}).
  { exists l, s, i. repeat split; try assumption; try reflexivity.
    - apply List.find_some in Hf. tauto.
    - eapply impact_range; [exact (catalog_magnitudes _ _ Hs)| |exact Hv]. lra.
    - eapply impact_range; [exact (catalog_magnitudes _ _ Hs)| |exact Hv]. lra. }
  destruct (ri_type i); simpl; apply Forall_app; split; auto.
Qed.

Lemma applyToReceptors_audit lvl st rs :
  Forall (fun r => Forall (effectFromLog now logs) (statusEffects r)) rs ->
  Forall (fun r => Forall (effectFromLog now logs) (statusEffects r))
         (applyToReceptors s l impactsOf lvl st rs).2.
Proof.
  revert lvl st. induction rs as [|r rs IH]; intros lvl st Hrs; simpl; [constructor|].
  inversion_clear Hrs as [|? ? Hr Hrest].
  pose proof (applyToReceptor_audit lvl st r Hr) as H1.
  destruct (applyToReceptor s l impactsOf lvl st r) as [[lvl1 st1] r1].
  specialize (IH lvl1 st1 Hrest).
  destruct (applyToReceptors s l impactsOf lvl1 st1 rs) as [[lvl2 st2] rs2].
  simpl in *. now constructor.
Qed.

Lemma applyToNT_audit nt :
  effectsFromLogs now logs nt -> effectsFromLogs now logs (applyToNT s l impactsOf nt).
Proof.
  intros H. unfold effectsFromLogs, applyToNT.
  pose proof (applyToReceptors_audit (currentLevel nt) (status nt) (receptors nt) H) as H1.
  destruct (applyToReceptors _ _ _ _ _ _) as [[lvl st] rs]. exact H1.
Qed.

End EffectAudit.

Lemma applyLog_audit now logs updated l :
  In l logs -> expectedClearance l > now ->
  Forall (effectsFromLogs now logs) updated ->
  Forall (effectsFromLogs now logs) (applyLog substanceMap now updated l).
Proof.
  intros Hl Ha Hu. unfold applyLog.
  destruct (substanceMap !! substanceId l) as [s|] eqn:Hs; [|assumption].
  unfold Rltb. case_bool_decide as He; [assumption|].
  apply Forall_map. eapply Forall_impl; [exact Hu|].
  intros nt. apply applyToNT_audit; try assumption. lra.
Qed.

(** X18: the status effects of a snapshot are an audit trail of the history.
    With the catalog of the application, every status effect on every
    receptor comes from an unexpired log of the history that is at least 1%
    effective: it carries that log's timestamp and the name of the log's
    substance, the type of one of the substance's interactions, and a
    magnitude in [0,100]. *)
Theorem X18_status_effects_come_from_active_logs
    (now h : R) (logs : list SubstanceLog) :
  Forall (effectsFromLogs now logs) (recompute now h logs).
Proof.
  unfold recompute, recomputeWith.
  assert (Hbase : Forall (effectsFromLogs now logs)
                         (map (freshNT h) defaultNeurotransmitters)).
  { apply Forall_map. apply Forall_forall. intros base _.
    unfold effectsFromLogs. simpl. apply Forall_map. apply Forall_forall.
    intros r _. simpl. constructor. }
  assert (Hact : Forall (fun l => In l logs /\ expectedClearance l > now)
                        (List.filter (fun l => Rgtb (expectedClearance l) now) logs)).
  { apply List.Forall_forall. intros l Hl. apply List.filter_In in Hl as [Hin Ha].
    split; [exact Hin|]. unfold Rgtb in Ha. now apply bool_decide_eq_true in Ha. }
  revert Hbase Hact. generalize (map (freshNT h) defaultNeurotransmitters) as updated.
  induction (List.filter (fun l => Rgtb (expectedClearance l) now) logs)
    as [|l active IH]; intros updated Hu Hact; simpl; [assumption|].
  inversion_clear Hact as [|? ? [Hin Ha] Hrest].
  apply IH; [|exact Hrest]. now apply applyLog_audit.
Qed.

(** ** Tolerance does not depend on the order of the logs *)

Lemma tolerance_catalog localDate logs substance now :
  In substance substances ->
  calculateTolerance localDate logs substance now
  = match List.filter (inWindow substance now) logs with
    | [] => 100
    | _ :: _ =>
        Rmax (100 - INR (distinctDays localDate
                           (List.filter (inWindow substance now) logs))
                    * toleranceRate (getDosePK substance 0)) 10
    end.
Proof.
  intros Hcat.
  destruct (List.filter (inWindow substance now) logs) as [|x W] eqn:HW.
  - now apply tolerance_empty.
  - destruct (tolerance_nonempty localDate logs substance now) as (y & _ & _ & ->).
    { rewrite HW. discriminate. }
    rewrite HW. now rewrite (catalog_rate_constant substance (dosage y) 0 Hcat).
Qed.

(** X27: for a substance of the catalog the tolerance score depends on the
    log history as a collection only: reordering the logs in any way leaves
    the score unchanged (unlike the snapshot, which applies logs in order). *)
Theorem X27_tolerance_ignores_log_order
    (localDate : R -> Z * Z * Z) (substance : Substance) (now : R)
    (logs logs' : list SubstanceLog) :
  In substance substances -> Permutation logs logs' ->
  calculateTolerance localDate logs substance now
  = calculateTolerance localDate logs' substance now.
Proof.
  intros Hcat Hperm. rewrite !tolerance_catalog by assumption.
  assert (HW : Permutation (List.filter (inWindow substance now) logs)
                           (List.filter (inWindow substance now) logs')).
  { clear Hcat. induction Hperm; simpl.
    - reflexivity.
    - destruct (inWindow substance now x); [now constructor|assumption].
    - destruct (inWindow substance now x), (inWindow substance now y);
        try reflexivity. apply perm_swap.
    - etransitivity; eassumption. }
  assert (Hd : distinctDays localDate (List.filter (inWindow substance now) logs)
               = distinctDays localDate (List.filter (inWindow substance now) logs')).
  { unfold distinctDays. f_equal. apply list_to_set_perm_L. now apply Permutation_map. }
  rewrite Hd.
  destruct (List.filter (inWindow substance now) logs) as [|x W],
           (List.filter (inWindow substance now) logs') as [|x' W']; try reflexivity.
  - apply Permutation_nil in HW. discriminate.
  - symmetry in HW. apply Permutation_nil in HW. discriminate.
Qed.

Lemma X27_tolerance_ignores_log_order_witness :
  calculateTolerance januaryDate (rev fiveDays) Catalog.nicotine (5 * dayMs)
  = calculateTolerance januaryDate fiveDays Catalog.nicotine (5 * dayMs).
Proof.
  assert (Hcat : In Catalog.nicotine substances) by (simpl; auto).
  assert (Hperm : Permutation (rev fiveDays) fiveDays)
    by (symmetry; apply Permutation_rev).
  exact (X27_tolerance_ignores_log_order januaryDate Catalog.nicotine (5 * dayMs)
           (rev fiveDays) fiveDays Hcat Hperm).
Defined.
